(** * vscode-jslint: a shallow embedding of the validation pipeline

    The development follows [src/jslint/extension.ts] (the language-server
    half of the file): [makeDiagnostic], [getSeverity], [locateFile],
    [OptionsResolver], [FileMatcher] and [Linter].

    Conventions.
    - A JavaScript string is a list of UTF-16 code units ([jsstring]).
    - JavaScript values that flow through the configuration code are the
      JSON values plus [undefined] ([value]).
    - Effects (file-system probes, user-visible messages, engine calls,
      published diagnostics) are recorded in a trace by a small monad [M]
      that also threads the mutable object and carries exceptions; a
      thrown JavaScript exception is the outcome [Throw].
    - Node's [path], [JSON.parse], [minimatch], [parse-gitignore] and lodash
      are libraries outside the repository: the first three and the line
      parser of the fourth are fields of a [Host] record over which every
      definition is parametric; lodash's [mergeWith], [some] and [pickBy]
      are written out for JSON data, and so is the cache that
      [parse-gitignore] keeps per path. *)

From Stdlib Require Import ZArith NArith Ascii String List Bool Lia.
From stdpp Require Import base option list gmap.
Import ListNotations.

Set Warnings "-register-all".
Local Open Scope N_scope.

(** ** JavaScript strings *)

Definition char := N.
Abbreviation jsstring := (list char).

Definition dquote : char := 34.
Definition squote : char := 39.
Definition star : char := 42.
Definition slash : char := 47.
Definition backslash : char := 92.
Definition lf : char := 10.
Definition cr : char := 13.
Definition backquote : char := 96.

(** Literals: [js "..."] is the JavaScript string with the same characters,
    except that a backquote in the literal stands for a double quote. *)
Definition char_of_ascii (a : ascii) : char :=
  let c := N_of_ascii a in if c =? backquote then dquote else c.

Definition js (s : string) : jsstring :=
  map char_of_ascii (list_ascii_of_string s).

(** The characters the regular-expression atom [.] refuses. *)
Definition is_line_terminator (c : char) : bool :=
  (c =? lf) || (c =? cr) || (c =? 8232) || (c =? 8233).

Definition starts_with (c : char) (s : jsstring) : bool :=
  match s with
  | d :: _ => d =? c
  | [] => false
  end.

(** ** stripComments (extension.ts, lines 197-224)

    The regular expression has four alternatives, one per capturing group.
    Each is embedded as a scanner that is run after the opening delimiter
    and returns the rest of the matched text together with the unread
    input. *)

Definition consume (m : jsstring) (k : option (jsstring * jsstring))
  : option (jsstring * jsstring) :=
  match k with
  | Some (m', r) => Some (m ++ m', r)
  | None => None
  end.

(** Groups 1 and 2, after the opening quote [q]:
    [(?:[^\\q]*(?:\\.)?)*q]. *)
Fixpoint scan_string (q : char) (s : jsstring) : option (jsstring * jsstring) :=
  match s with
  | [] => None
  | c :: s' =>
      if c =? q then Some ([c], s')
      else if c =? backslash then
        match s' with
        | e :: s'' =>
            if is_line_terminator e then None
            else consume [c; e] (scan_string q s'')
        | [] => None
        end
      else consume [c] (scan_string q s')
  end.

(** Group 3, after the opening slash-star: [(?:\r?\n|.)*?] then star-slash.
    The quantifier is lazy, so the closing delimiter is tried first. *)
Fixpoint scan_block (s : jsstring) : option (jsstring * jsstring) :=
  match s with
  | [] => None
  | c :: s' =>
      if (c =? star) && starts_with slash s' then Some ([star; slash], tl s')
      else if (c =? cr) && starts_with lf s' then
        match s' with
        | _ :: s'' => consume [cr; lf] (scan_block s'')
        | [] => None
        end
      else if c =? lf then consume [lf] (scan_block s')
      else if is_line_terminator c then None
      else consume [c] (scan_block s')
  end.

(** Group 4, after the first two slashes: [.*?(?:(?:\r?\n)|$)]. *)
Fixpoint scan_line (s : jsstring) : option (jsstring * jsstring) :=
  match s with
  | [] => Some ([], [])
  | c :: s' =>
      if c =? lf then Some ([lf], s')
      else if (c =? cr) && starts_with lf s' then Some ([cr; lf], tl s')
      else if is_line_terminator c then None
      else consume [c] (scan_line s')
  end.

Inductive group := DoubleQuoted | SingleQuoted | BlockComment | LineComment.

(** One attempt of the regular expression at the head of [s]: the group
    that matched, the matched text and the unread input. *)
Definition regexp_exec (s : jsstring) : option (group * jsstring * jsstring) :=
  match s with
  | [] => None
  | c :: s' =>
      if c =? dquote then
        match scan_string dquote s' with
        | Some (m, r) => Some (DoubleQuoted, c :: m, r)
        | None => None
        end
      else if c =? squote then
        match scan_string squote s' with
        | Some (m, r) => Some (SingleQuoted, c :: m, r)
        | None => None
        end
      else if c =? slash then
        match s' with
        | d :: s'' =>
            if d =? star then
              match scan_block s'' with
              | Some (m, r) => Some (BlockComment, c :: d :: m, r)
              | None => None
              end
            else if d =? slash then
              match scan_line s'' with
              | Some (m, r) => Some (LineComment, c :: d :: m, r)
              | None => None
              end
            else None
        | [] => None
        end
      else None
  end.

(** The replacement callback. *)
Definition replacer (g : group) (m : jsstring) : jsstring :=
  match g with
  | BlockComment => []
  | LineComment =>
      let length := List.length m in
      if (2 <? length)%nat && (nth (length - 1) m 0 =? lf) then
        if nth (length - 2) m 0 =? cr then [cr; lf] else [lf]
      else []
  | DoubleQuoted | SingleQuoted => m
  end.

(** [String.prototype.replace] with a global regular expression: the
    leftmost match is replaced and the search resumes after it; where
    nothing matches, the character is copied. *)
Fixpoint replace_all (fuel : nat) (s : jsstring) : jsstring :=
  match s with
  | [] => []
  | c :: s' =>
      match fuel with
      | O => s
      | S n =>
          match regexp_exec s with
          | Some (g, m, r) => replacer g m ++ replace_all n r
          | None => c :: replace_all n s'
          end
      end
  end.

Definition stripComments (content : jsstring) : jsstring :=
  replace_all (List.length content) content.

(** ** JavaScript values *)

Inductive value :=
| VUndef
| VNull
| VBool (b : bool)
| VNum (n : Z)
| VStr (s : jsstring)
| VArr (l : list value)
| VObj (o : list (jsstring * value)).

(** An object is its list of own properties in insertion order. JavaScript
    enumerates them in that order, except that names that are array
    indices come first; no property below depends on the order of
    enumeration. *)
Abbreviation obj := (list (jsstring * value)).

(** ToBoolean. *)
Definition truthy (v : value) : bool :=
  match v with
  | VUndef | VNull => false
  | VBool b => b
  | VNum n => negb (n =? 0)%Z
  | VStr s => negb (bool_decide (s = []))
  | VArr _ | VObj _ => true
  end.

Definition nonempty (s : jsstring) : bool := negb (bool_decide (s = [])).

(** Truthiness of a [string | null | undefined]. *)
Definition truthy_str (s : option jsstring) : bool :=
  match s with
  | Some s => nonempty s
  | None => false
  end.

Fixpoint obj_get (k : jsstring) (o : obj) : option value :=
  match o with
  | [] => None
  | (k', v) :: o' => if bool_decide (k' = k) then Some v else obj_get k o'
  end.

(** [o[k] = v]: an existing property keeps its place, a new one is added
    last. *)
Fixpoint obj_set (k : jsstring) (v : value) (o : obj) : obj :=
  match o with
  | [] => [(k, v)]
  | (k', v') :: o' =>
      if bool_decide (k' = k) then (k, v) :: o' else (k', v') :: obj_set k v o'
  end.

(** [delete o[k]]. *)
Definition obj_delete (k : jsstring) (o : obj) : obj :=
  filter (fun kv => kv.1 <> k) o.

(** [v.k] for a [v] that is neither [null] nor [undefined], and a name [k]
    that no prototype defines (the program reads [extends], [config],
    [jslintConfig] and [globals]). *)
Definition prop (v : value) (k : jsstring) : value :=
  match v with
  | VObj o => default VUndef (obj_get k o)
  | _ => VUndef
  end.

(** ** lodash: [_.mergeWith(object, source, customizer)]

    Written out for JSON data, as lodash 4.17 merges it, with the
    customizer of [readJSLintFile] (lines 243-247) inlined: a destination
    value that is an array is replaced by [baseValue.concat(contentValue)];
    otherwise lodash merges a plain object into the destination's object
    (or into a new one), copies an array element by element, and assigns
    any other source value. lodash reads the destination through [safeGet],
    which sees nothing under the name [__proto__], and it assigns nothing
    for a source property of that name whose value is an object or an
    array. *)

Definition PROTO : jsstring := js "__proto__".

(** The values lodash merges recursively ([isObject]). *)
Definition is_composite (v : value) : bool :=
  match v with
  | VArr _ | VObj _ => true
  | _ => false
  end.

Definition safeGet (k : jsstring) (o : obj) : option value :=
  if bool_decide (k = PROTO) then None else obj_get k o.

(** [baseValue.concat(contentValue)]: an array argument is spread, any other
    value is appended. *)
Definition array_concat (base : list value) (content : value) : list value :=
  match content with
  | VArr l => base ++ l
  | _ => base ++ [content]
  end.

Fixpoint merge_value (objValue : option value) (srcValue : value) {struct srcValue}
  : value :=
  match objValue with
  | Some (VArr l) => VArr (array_concat l srcValue)
  | _ =>
      match srcValue with
      | VObj src =>
          let dst := match objValue with Some (VObj o) => o | _ => [] end in
          VObj ((fix baseMerge (src : obj) (dst : obj) {struct src} : obj :=
                   match src with
                   | [] => dst
                   | (k, v) :: src' =>
                       baseMerge src'
                         (if bool_decide (k = PROTO) && is_composite v then dst
                          else obj_set k (merge_value (safeGet k dst) v) dst)
                   end) src dst)
      | VArr l => VArr (map (merge_value None) l)
      | _ => srcValue
      end
  end.

Fixpoint baseMerge (src : obj) (dst : obj) : obj :=
  match src with
  | [] => dst
  | (k, v) :: src' =>
      baseMerge src'
        (if bool_decide (k = PROTO) && is_composite v then dst
         else obj_set k (merge_value (safeGet k dst) v) dst)
  end.

(** ** Diagnostics *)

Inductive DiagnosticSeverity := Error | Warning.

Record Position := { pos_line : Z; pos_character : Z }.

Record Range := { range_start : Position; range_end : Position }.

Record Diagnostic := {
  message : jsstring;
  severity : DiagnosticSeverity;
  source : jsstring;
  diag_code : option jsstring;
  range : Range
}.

(** ** Effects *)

Inductive exn := TypeError | IOError | SyntaxError.

Inductive notice :=
| Text (s : jsstring)
| MessageOf (e : exn).

(** What the program does to the world around it: [fs.existsSync],
    [fs.readFileSync], [connection.window.showErrorMessage], a call of the
    engine, [connection.sendDiagnostics], and [tracker.sendErrors] of an
    [ErrorMessageTracker] to which the listed messages were added, in that
    order (the library shows each distinct text among them once). *)
Inductive event :=
| EvExists (p : jsstring)
| EvRead (p : jsstring)
| EvShowError (m : notice)
| EvLint (content : jsstring) (options globals : value)
| EvSend (uri : jsstring) (diagnostics : list Diagnostic)
| EvSendErrors (added : list notice).

(** The outcome of a call: a returned value, a thrown exception, or no
    answer from the model ([OutOfFuel]: the recursion bound was reached;
    [Unmodelled]: the program left the JSON fragment of JavaScript). *)
Inductive outcome (A : Type) :=
| Ok (a : A)
| Throw (e : exn)
| OutOfFuel
| Unmodelled.
Arguments Ok {A} a.
Arguments Throw {A} e.
Arguments OutOfFuel {A}.
Arguments Unmodelled {A}.

(** A computation over a mutable object of type [S]: the state survives an
    exception, as a mutation made before a [throw] does. *)
Definition M (S A : Type) : Type := S -> outcome A * S * list event.

Definition ret {S A} (a : A) : M S A := fun s => (Ok a, s, []).

Definition bind {S A B} (m : M S A) (f : A -> M S B) : M S B :=
  fun s =>
    match m s with
    | (Ok a, s', t) => let '(r, s'', t') := f a s' in (r, s'', t ++ t')
    | (Throw e, s', t) => (Throw e, s', t)
    | (OutOfFuel, s', t) => (OutOfFuel, s', t)
    | (Unmodelled, s', t) => (Unmodelled, s', t)
    end.

Declare Scope js_scope.
Delimit Scope js_scope with js_m.
Notation "'let*' x := m 'in' k" := (bind m (fun x => k))
  (at level 10, x name, m at level 100, k at level 200) : js_scope.
Notation "'let*' ' p := m 'in' k" := (bind m (fun x => match x with p => k end))
  (at level 10, p pattern, m at level 100, k at level 200) : js_scope.
Notation "m ;; k" := (bind m (fun _ => k))
  (at level 100, k at level 200, right associativity) : js_scope.
Local Open Scope js_scope.

Definition get {S} : M S S := fun s => (Ok s, s, []).
Definition put {S} (s : S) : M S unit := fun _ => (Ok tt, s, []).
Definition emit {S} (e : event) : M S unit := fun s => (Ok tt, s, [e]).
Definition throw {S A} (e : exn) : M S A := fun s => (Throw e, s, []).
Definition out_of_fuel {S A} : M S A := fun s => (OutOfFuel, s, []).
Definition unmodelled {S A} : M S A := fun s => (Unmodelled, s, []).

(** [try { m } catch (err) { h err }]. *)
Definition try_catch {S A} (m : M S A) (h : exn -> M S A) : M S A :=
  fun s =>
    match m s with
    | (Throw e, s', t) => let '(r, s'', t') := h e s' in (r, s'', t ++ t')
    | other => other
    end.

(** Running a method of a field object inside its owner. *)
Definition zoom {S T A} (proj : S -> T) (upd : T -> S -> S) (m : M T A) : M S A :=
  fun s => let '(r, t', tr) := m (proj s) in (r, upd t' s, tr).

Definition outcome_of {S A} (x : outcome A * S * list event) : outcome A := x.1.1.
Definition state_of {S A} (x : outcome A * S * list event) : S := x.1.2.
Definition trace_of {S A} (x : outcome A * S * list event) : list event := x.2.

(** ** The host: libraries and platform the program calls *)

Inductive node :=
| File (text : jsstring)
| Directory.

(** The file system at one moment: what each path names, if anything. *)
Definition filesystem := jsstring -> option node.

Record Host := {
  path_join : jsstring -> jsstring -> jsstring;
  path_dirname : jsstring -> jsstring;
  path_resolve : jsstring -> jsstring -> jsstring;
  JSON_parse : jsstring -> option value;
  minimatch : jsstring -> jsstring -> bool;
  parse_gitignore : jsstring -> list jsstring;
  uriToFilePath : jsstring -> option jsstring;
  user_home : option jsstring
}.

(** ** makeDiagnostic and getSeverity (lines 108-136) *)

Record JSLintError := {
  code : option jsstring;
  id : nat;
  line : Z;
  character : Z;
  reason : jsstring
}.

(** [problem.code] as a condition: [undefined] and the empty string are
    falsy. *)
Definition code_present (problem : JSLintError) : bool := truthy_str (code problem).

Definition getSeverity (problem : JSLintError) : DiagnosticSeverity :=
  match code problem with
  | Some (c :: _) => if c =? 69 then Error else Warning
  | Some [] | None => Error
  end.

Definition makeDiagnostic (problem : JSLintError) : Diagnostic :=
  let line := if (line problem <=? 0)%Z then 1%Z else line problem in
  let character := if (character problem <=? 0)%Z then 1%Z else character problem in
  let problem := {| code := code problem; id := id problem; line := line;
                    character := character; reason := reason problem |} in
  {| message := reason problem ++
                (match code problem with
                 | Some c => if nonempty c then js " (" ++ c ++ js ")" else []
                 | None => []
                 end);
     severity := getSeverity problem;
     source := js "jsLint";
     diag_code := code problem;
     range := {| range_start := {| pos_line := line - 1; pos_character := character - 1 |};
                 range_end := {| pos_line := line - 1; pos_character := character - 1 |} |}
  |}.

Definition JSLINTRC : jsstring := js "jslint.conf".
Definition JSLINTIGNORE : jsstring := js ".jslintignore".

Section Program.

Variable H : Host.
Variable fs : filesystem.

(** ** File-system calls *)

Definition existsSync {S} (p : jsstring) : M S bool :=
  emit (EvExists p) ;; ret (bool_decide (is_Some (fs p))).

Definition readFileSync {S} (p : jsstring) : M S jsstring :=
  emit (EvRead p) ;;
  match fs p with
  | Some (File text) => ret text
  | Some Directory | None => throw IOError
  end.

Definition showErrorMessage {S} (m : jsstring) : M S unit :=
  emit (EvShowError (Text m)).

(** ** locateFile (lines 138-149)

    The do-while loop: one unit of fuel per iteration. *)
Fixpoint locateFile {S} (fuel : nat) (directory fileName : jsstring)
  : M S (option jsstring) :=
  match fuel with
  | O => out_of_fuel
  | S n =>
      let location := path_join H directory fileName in
      let* found := existsSync location in
      if found then ret (Some location)
      else
        let parent := path_dirname H directory in
        if bool_decide (parent = directory) then ret None
        else locateFile n parent fileName
  end.

(** ** OptionsResolver (lines 152-299)

    [optionsCache] and, below, [excludeCache] are objects used as maps
    from file paths (the paths [uriToFilePath] returns, or the workspace
    root); they are embedded as finite maps. *)

Record OptionsResolver := {
  configPath : option jsstring;
  jslintOptions : value;
  optionsCache : gmap jsstring value
}.

Definition OptionsResolver_new : OptionsResolver :=
  {| configPath := None; jslintOptions := VNull; optionsCache := ∅ |}.

Definition OptionsResolver_configure (path : option jsstring) (options : value)
  (this : OptionsResolver) : OptionsResolver :=
  {| configPath := path; jslintOptions := options; optionsCache := ∅ |}.

Definition OptionsResolver_clear (this : OptionsResolver) : OptionsResolver :=
  {| configPath := configPath this; jslintOptions := jslintOptions this;
     optionsCache := ∅ |}.

Definition readJsonFile {S} (file : jsstring) (extendedFrom : option jsstring)
  : M S value :=
  try_catch
    (let* text := readFileSync file in
     match JSON_parse H (stripComments text) with
     | Some v => ret v
     | None => throw SyntaxError
     end)
    (fun _ =>
       let location :=
         match extendedFrom with
         | Some e => if nonempty e then file ++ js " extended from " ++ e else file
         | None => file
         end in
       showErrorMessage
         (js "Can't load JSLint configuration from file " ++ location ++
          js ". Please check the file for syntax errors.") ;;
       ret (VObj [])).

(** [content.extends], [content.jslintConfig]: reading a property of
    [null] throws. *)
Definition get_prop {S} (v : value) (k : jsstring) : M S value :=
  match v with
  | VUndef | VNull => throw TypeError
  | _ => ret (prop v k)
  end.

(** [path.resolve(dir, to)]: a [to] that is not a string is refused. *)
Definition path_resolve_value {S} (dir : jsstring) (to : value) : M S jsstring :=
  match to with
  | VStr s => ret (path_resolve H dir s)
  | _ => throw TypeError
  end.

(** [_.mergeWith(base, content, customizer)]; a destination that is not a
    plain object is outside the model. *)
Definition mergeWith {S} (base content : value) : M S value :=
  match base, content with
  | VObj b, VObj c => ret (VObj (baseMerge c b))
  | _, _ => unmodelled
  end.

Definition delete_prop (v : value) (k : jsstring) : value :=
  match v with
  | VObj o => VObj (obj_delete k o)
  | _ => v
  end.

(** One unit of fuel per file of the [extends] chain. *)
Fixpoint readJSLintFile {S} (fuel : nat) (file : jsstring)
  (extendedFrom : option jsstring) : M S value :=
  match fuel with
  | O => out_of_fuel
  | S n =>
      let* content := readJsonFile file extendedFrom in
      let* extends := get_prop content (js "extends") in
      if truthy extends then
        let* baseFile := path_resolve_value (path_dirname H file) extends in
        let* found := existsSync baseFile in
        let* content :=
          (if found then
             let* base := readJSLintFile n baseFile (Some file) in
             mergeWith base content
           else
             showErrorMessage
               (js "Can't find JSLint file " ++ baseFile ++
                js " extended from " ++ file) ;;
             ret content) in
        ret (delete_prop content (js "extends"))
      else ret content
  end.

(** [fs.existsSync] of a value that may not be a string. *)
Definition existsSync_value {S} (v : value) : M S bool :=
  match v with
  | VStr p => existsSync p
  | _ => ret false
  end.

Definition string_of (v : value) : jsstring :=
  match v with
  | VStr p => p
  | _ => []
  end.

(** Lines 276-282: the [jslintConfig] of the nearest package.json; [Some]
    is a [return]. *)
Definition readOptions_package {S} (fuel : nat) (fsPath : jsstring)
  : M S (option value) :=
  let* packageFile := locateFile fuel fsPath (js "package.json") in
  match packageFile with
  | Some packageFile =>
      let* content := readJsonFile packageFile None in
      let* jslintConfig := get_prop content (js "jslintConfig") in
      if truthy jslintConfig then ret (Some jslintConfig) else ret None
  | None => ret None
  end.

(** Lines 284-287: the nearest jslint.conf. *)
Definition readOptions_conf {S} (fuel : nat) (fsPath : jsstring)
  : M S (option value) :=
  let* configFile := locateFile fuel fsPath JSLINTRC in
  match configFile with
  | Some configFile =>
      let* c := readJSLintFile fuel configFile None in ret (Some c)
  | None => ret None
  end.

(** The part of [readOptions] guarded by [if (fsPath)] (lines 275-288). *)
Definition readOptions_near {S} (fuel : nat) (fsPath : jsstring)
  : M S (option value) :=
  let* fromPackage := readOptions_package fuel fsPath in
  match fromPackage with
  | Some c => ret (Some c)
  | None => readOptions_conf fuel fsPath
  end.

(** Lines 290-297. *)
Definition readOptions_home {S} (fuel : nat) (jslintOptions : value) : M S value :=
  if truthy_str (user_home H) then
    let file := path_join H (default [] (user_home H)) JSLINTRC in
    let* found := existsSync file in
    if found then readJSLintFile fuel file None else ret jslintOptions
  else ret jslintOptions.

Definition readOptions (fuel : nat) (fsPath : jsstring) : M OptionsResolver value :=
  let* this := get in
  let* explicit :=
    (if truthy_str (configPath this)
     then existsSync (default [] (configPath this)) else ret false) in
  if explicit then readJsonFile (default [] (configPath this)) None
  else
    let jslintOptions := jslintOptions this in
    let config := prop jslintOptions (js "config") in
    let* legacy :=
      (if truthy jslintOptions && truthy config
       then existsSync_value config else ret false) in
    if legacy then readJsonFile (string_of config) None
    else
      let* near :=
        (if nonempty fsPath then readOptions_near fuel fsPath else ret None) in
      match near with
      | Some c => ret c
      | None => readOptions_home fuel jslintOptions
      end.

Definition cache_store (fsPath : jsstring) (result : value) : M OptionsResolver unit :=
  let* this := get in
  put {| configPath := configPath this; jslintOptions := jslintOptions this;
         optionsCache := <[fsPath := result]> (optionsCache this) |}.

Definition getOptions (fuel : nat) (fsPath : jsstring) : M OptionsResolver value :=
  let* this := get in
  let result := default VUndef (optionsCache this !! fsPath) in
  if truthy result then ret result
  else
    let* result := readOptions fuel fsPath in
    cache_store fsPath result ;;
    ret result.

End Program.

(** ** FileMatcher (lines 302-378) *)

(** The three fields of the class, and with them the one piece of state
    that its methods reach outside the object: the cache of the
    [parse-gitignore] module, which keeps the patterns it has returned for
    a path as long as the process lives. The matcher is the only caller of
    the module and is created once, when the server starts; no method of
    the class assigns [gitignoreCache]. *)
Record FileMatcher := {
  fm_configPath : option jsstring;
  defaultExcludePatterns : option (list jsstring);
  excludeCache : gmap jsstring bool;
  gitignoreCache : gmap jsstring (list jsstring)
}.

Definition FileMatcher_new : FileMatcher :=
  {| fm_configPath := None; defaultExcludePatterns := None; excludeCache := ∅;
     gitignoreCache := ∅ |}.

(** [_.keys(_.pickBy(obj, value => value === true))]; [obj] may be
    [undefined]. The patterns are listed in the order of the settings;
    [match] does not depend on their order. *)
Definition pickTrueKeys (o : option obj) : list jsstring :=
  match o with
  | Some o =>
      map fst (List.filter (fun kv => match snd kv with VBool true => true | _ => false end) o)
  | None => []
  end.

Definition FileMatcher_configure (path : option jsstring) (exclude : option obj)
  (this : FileMatcher) : FileMatcher :=
  {| fm_configPath := path; excludeCache := ∅;
     defaultExcludePatterns := Some (pickTrueKeys exclude);
     gitignoreCache := gitignoreCache this |}.

Definition FileMatcher_clear (this : FileMatcher) : FileMatcher :=
  {| fm_configPath := fm_configPath this;
     defaultExcludePatterns := defaultExcludePatterns this;
     excludeCache := ∅;
     gitignoreCache := gitignoreCache this |}.

(** [0 === fsPath.indexOf(folder)]. *)
Fixpoint is_prefix (folder fsPath : jsstring) : bool :=
  match folder, fsPath with
  | [] , _ => true
  | c :: folder', d :: fsPath' => (c =? d) && is_prefix folder' fsPath'
  | _ :: _, [] => false
  end.

Definition relativeTo (fsPath : jsstring) (folder : option jsstring) : jsstring :=
  match folder with
  | Some folder =>
      if nonempty folder && is_prefix folder fsPath then
        let cuttingPoint := List.length folder in
        let cuttingPoint :=
          if (cuttingPoint <? List.length fsPath)%nat
             && (nth cuttingPoint fsPath 0 =? slash)
          then (cuttingPoint + 1)%nat else cuttingPoint in
        drop cuttingPoint fsPath
      else fsPath
  | None => fsPath
  end.

(** [fsPath.lastIndexOf('/')], [None] for -1. *)
Fixpoint lastIndexOf_slash (s : jsstring) : option nat :=
  match s with
  | [] => None
  | c :: s' =>
      match lastIndexOf_slash s' with
      | Some i => Some (S i)
      | None => if c =? slash then Some O else None
      end
  end.

Definition folderOf (fsPath : jsstring) : jsstring :=
  match lastIndexOf_slash fsPath with
  | Some index => take index fsPath
  | None => fsPath
  end.

Section Matching.

Variable H : Host.
Variable fs : filesystem.

(** [_.some(excludePatters, pattern => minimatch(relativePath, pattern))];
    [_.some] of [null] is [false]. *)
Definition FileMatcher_match (excludePatters : option (list jsstring))
  (path : jsstring) (root : option jsstring) : bool :=
  let relativePath := relativeTo path root in
  match excludePatters with
  | Some patterns => existsb (fun pattern => minimatch H relativePath pattern) patterns
  | None => false
  end.

Definition gitignore_store (path : jsstring) (patterns : list jsstring)
  : M FileMatcher unit :=
  let* this := get in
  put {| fm_configPath := fm_configPath this;
         defaultExcludePatterns := defaultExcludePatterns this;
         excludeCache := excludeCache this;
         gitignoreCache := <[path := patterns]> (gitignoreCache this) |}.

(** [processIgnoreFile(path)] (the parse-gitignore package): a path that
    does not exist has no patterns; a path the module has answered for
    before is answered from its cache, without reading the file; otherwise
    the file is read, its lines are parsed ([parse_gitignore]) and the
    patterns are remembered under the path. *)
Definition processIgnoreFile (path : jsstring) : M FileMatcher (list jsstring) :=
  let* found := existsSync fs path in
  if found then
    let* this := get in
    match gitignoreCache this !! path with
    | Some patterns => ret patterns
    | None =>
        let* text := readFileSync fs path in
        let patterns := parse_gitignore H text in
        gitignore_store path patterns ;;
        ret patterns
    end
  else ret [].

Definition exclude_store (fsPath : jsstring) (verdict : bool) : M FileMatcher unit :=
  let* this := get in
  put {| fm_configPath := fm_configPath this;
         defaultExcludePatterns := defaultExcludePatterns this;
         excludeCache := <[fsPath := verdict]> (excludeCache this);
         gitignoreCache := gitignoreCache this |}.

(** Lines 359-370: the verdict when the cache has none. *)
Definition shouldBeExcluded (fuel : nat) (fsPath : jsstring) (root : option jsstring)
  : M FileMatcher bool :=
  let* this := get in
  let* explicit :=
    (if truthy_str (fm_configPath this)
     then existsSync fs (default [] (fm_configPath this)) else ret false) in
  if explicit then
    let* patterns := processIgnoreFile (default [] (fm_configPath this)) in
    ret (FileMatcher_match (Some patterns) fsPath root)
  else
    let* ignoreFile := locateFile H fs fuel fsPath JSLINTIGNORE in
    match ignoreFile with
    | Some ignoreFile =>
        let* patterns := processIgnoreFile ignoreFile in
        ret (FileMatcher_match (Some patterns) fsPath (Some (folderOf ignoreFile)))
    | None =>
        ret (FileMatcher_match (defaultExcludePatterns this) fsPath root)
    end.

Definition excludes (fuel : nat) (fsPath root : option jsstring) : M FileMatcher bool :=
  if truthy_str fsPath then
    let fsPath := default [] fsPath in
    let* this := get in
    match excludeCache this !! fsPath with
    | Some verdict => ret verdict
    | None =>
        let* verdict := shouldBeExcluded fuel fsPath root in
        exclude_store fsPath verdict ;;
        ret verdict
    end
  else ret true.

(** ** Linter (lines 380-529) *)

Record JSLintWarning := {
  w_code : option jsstring;
  w_line : Z;
  w_column : Z;
  w_message : jsstring
}.

(** The loaded engine: whether [JSLINT.data()] can be called, and the
    warnings it reports for the last analysed text. *)
Record JSLINT := {
  data_supported : bool;
  analyse : jsstring -> value -> value -> list JSLintWarning
}.

Record Linter := {
  options : OptionsResolver;
  fileMatcher : FileMatcher;
  workspaceRoot : option jsstring;
  lib : JSLINT
}.

Record ITextDocument := { uri : jsstring; getText : jsstring }.

Definition set_options (o : OptionsResolver) (this : Linter) : Linter :=
  {| options := o; fileMatcher := fileMatcher this;
     workspaceRoot := workspaceRoot this; lib := lib this |}.

Definition set_fileMatcher (m : FileMatcher) (this : Linter) : Linter :=
  {| options := options this; fileMatcher := m;
     workspaceRoot := workspaceRoot this; lib := lib this |}.

Definition or_empty (v : value) : value := if truthy v then v else VObj [].

Definition to_error (i : nat) (warning : JSLintWarning) : JSLintError :=
  {| code := w_code warning; id := i; line := w_line warning;
     character := w_column warning; reason := w_message warning |}.

Definition NO_DATA_MESSAGE : jsstring :=
  js "JSLint library does not export a data() method.  The JSLint verions you are using is probably out of date.".

Definition lintContent (fuel : nat) (content fsPath : jsstring)
  : M Linter (list JSLintError) :=
  let* this := get in
  let JSLINT := lib this in
  let* cached := zoom options set_options (getOptions H fs fuel fsPath) in
  let options := or_empty cached in
  let globals := or_empty (prop options (js "globals")) in
  emit (EvLint content options globals) ;;
  let* output :=
    try_catch
      (if data_supported JSLINT
       then ret (Some (analyse JSLINT content options globals))
       else throw TypeError)
      (fun _ => showErrorMessage NO_DATA_MESSAGE ;; ret None) in
  match output with
  | Some warnings => ret (imap to_error warnings)
  | None => throw TypeError
  end.

Definition sendDiagnostics (uri : jsstring) (diagnostics : list Diagnostic)
  : M Linter unit :=
  emit (EvSend uri diagnostics).

(** Lines 499-502: the path under which the document is looked up. *)
Definition lookup_path (document : ITextDocument) (this : Linter) : option jsstring :=
  let fsPath := uriToFilePath H (uri document) in
  if truthy_str fsPath then fsPath else workspaceRoot this.

Definition validate (fuel : nat) (document : ITextDocument) : M Linter unit :=
  let* this := get in
  let fsPath := lookup_path document this in
  let* excluded :=
    zoom fileMatcher set_fileMatcher (excludes fuel fsPath (workspaceRoot this)) in
  let* diagnostics :=
    (if negb excluded then
       let* errors := lintContent fuel (getText document) (default [] fsPath) in
       ret (map makeDiagnostic errors)
     else ret []) in
  sendDiagnostics (uri document) diagnostics.

(** [getMessage]: every exception of the model carries a message. *)
Definition getMessage (err : exn) (document : ITextDocument) : notice := MessageOf err.

Definition validateSingle (fuel : nat) (document : ITextDocument) : M Linter unit :=
  try_catch (validate fuel document)
    (fun err => emit (EvShowError (getMessage err document))).

End Matching.

(** ** A concrete host, for running the program on examples

    A POSIX system: [path] on normalised paths, [JSON.parse] on JSON
    without fractions and unicode escapes, shell globs with star,
    double-star and question mark, one ignore pattern per line. The
    theorems below hold for every host; this one instantiates them. *)

Module Posix.

Definition join (a b : jsstring) : jsstring :=
  match last a with
  | Some c => if c =? slash then a ++ b else a ++ [slash] ++ b
  | None => b
  end.

Definition dirname (p : jsstring) : jsstring :=
  match lastIndexOf_slash p with
  | Some O => [slash]
  | Some i => take i p
  | None => js "."
  end.

Definition resolve (dir to : jsstring) : jsstring :=
  if starts_with slash to then to else join dir to.

Definition is_space (c : char) : bool :=
  (c =? 32) || (c =? 9) || (c =? 10) || (c =? 13).

Fixpoint skip_ws (s : jsstring) : jsstring :=
  match s with
  | c :: s' => if is_space c then skip_ws s' else s
  | [] => []
  end.

Definition is_digit (c : char) : bool := (48 <=? c) && (c <=? 57).

Fixpoint digits (acc : Z) (s : jsstring) : Z * jsstring :=
  match s with
  | c :: s' =>
      if is_digit c then digits (10 * acc + Z.of_N (c - 48))%Z s' else (acc, s)
  | [] => (acc, [])
  end.

Definition number (s : jsstring) : option (value * jsstring) :=
  let '(neg, s1) := match s with
                    | c :: s' => if c =? 45 then (true, s') else (false, s)
                    | [] => (false, s)
                    end in
  match s1 with
  | c :: _ =>
      if is_digit c then
        let '(n, r) := digits 0 s1 in
        if starts_with 46 r || starts_with 101 r || starts_with 69 r then None
        else Some (VNum (if neg then - n else n)%Z, r)
      else None
  | [] => None
  end.

Definition unescape (c : char) : option char :=
  if (c =? dquote) || (c =? backslash) || (c =? slash) then Some c
  else if c =? 110 then Some lf
  else if c =? 114 then Some cr
  else if c =? 116 then Some 9
  else if c =? 98 then Some 8
  else if c =? 102 then Some 12
  else None.

(** After the opening quote: the string's characters and the rest. *)
Fixpoint string_body (s : jsstring) : option (jsstring * jsstring) :=
  match s with
  | [] => None
  | c :: s' =>
      if c =? dquote then Some ([], s')
      else if c =? backslash then
        match s' with
        | e :: s'' =>
            match unescape e, string_body s'' with
            | Some d, Some (m, r) => Some (d :: m, r)
            | _, _ => None
            end
        | [] => None
        end
      else if c <? 32 then None
      else match string_body s' with
           | Some (m, r) => Some (c :: m, r)
           | None => None
           end
  end.

Definition keyword (k : jsstring) (v : value) (s : jsstring) : option (value * jsstring) :=
  if is_prefix k s then Some (v, drop (List.length k) s) else None.

Fixpoint parse_value (fuel : nat) (s : jsstring) {struct fuel}
  : option (value * jsstring) :=
  match fuel with
  | O => None
  | S n =>
      match skip_ws s with
      | [] => None
      | c :: s' =>
          if c =? 123 then
            match skip_ws s' with
            | d :: s'' => if d =? 125 then Some (VObj [], s'')
                          else parse_members n (d :: s'') []
            | [] => None
            end
          else if c =? 91 then
            match skip_ws s' with
            | d :: s'' => if d =? 93 then Some (VArr [], s'')
                          else parse_elements n (d :: s'') []
            | [] => None
            end
          else if c =? dquote then
            match string_body s' with
            | Some (m, r) => Some (VStr m, r)
            | None => None
            end
          else if c =? 116 then keyword (js "true") (VBool true) (c :: s')
          else if c =? 102 then keyword (js "false") (VBool false) (c :: s')
          else if c =? 110 then keyword (js "null") VNull (c :: s')
          else number (c :: s')
      end
  end
with parse_elements (fuel : nat) (s : jsstring) (acc : list value) {struct fuel}
  : option (value * jsstring) :=
  match fuel with
  | O => None
  | S n =>
      match parse_value n s with
      | Some (v, r) =>
          match skip_ws r with
          | c :: r' =>
              if c =? 44 then parse_elements n r' (acc ++ [v])
              else if c =? 93 then Some (VArr (acc ++ [v]), r')
              else None
          | [] => None
          end
      | None => None
      end
  end
with parse_members (fuel : nat) (s : jsstring) (acc : obj) {struct fuel}
  : option (value * jsstring) :=
  match fuel with
  | O => None
  | S n =>
      match skip_ws s with
      | q :: s' =>
          if q =? dquote then
            match string_body s' with
            | Some (k, r) =>
                match skip_ws r with
                | colon :: r' =>
                    if colon =? 58 then
                      match parse_value n r' with
                      | Some (v, r'') =>
                          match skip_ws r'' with
                          | c :: r3 =>
                              if c =? 44 then parse_members n r3 (obj_set k v acc)
                              else if c =? 125 then Some (VObj (obj_set k v acc), r3)
                              else None
                          | [] => None
                          end
                      | None => None
                      end
                    else None
                | [] => None
                end
            | None => None
            end
          else None
      | [] => None
      end
  end.

Definition parse (text : jsstring) : option value :=
  match parse_value (2 * List.length text + 2) text with
  | Some (v, r) => match skip_ws r with [] => Some v | _ :: _ => None end
  | None => None
  end.

Fixpoint split_on (sep : char) (s : jsstring) : list jsstring :=
  match s with
  | [] => [[]]
  | c :: s' =>
      if c =? sep then [] :: split_on sep s'
      else match split_on sep s' with
           | seg :: rest => (c :: seg) :: rest
           | [] => [[c]]
           end
  end.

(** One path segment against one pattern segment. *)
Fixpoint glob_segment (pattern : jsstring) : jsstring -> bool :=
  match pattern with
  | [] => fun s => bool_decide (s = [])
  | p :: pattern' =>
      if p =? star then
        fix any (s : jsstring) : bool :=
          glob_segment pattern' s ||
          match s with
          | _ :: s' => any s'
          | [] => false
          end
      else fun s =>
        match s with
        | c :: s' => ((p =? 63) || (p =? c)) && glob_segment pattern' s'
        | [] => false
        end
  end.

Fixpoint glob_path (patterns : list jsstring) : list jsstring -> bool :=
  match patterns with
  | [] => fun segments => bool_decide (segments = [])
  | p :: patterns' =>
      if bool_decide (p = [star; star]) then
        fix any (segments : list jsstring) : bool :=
          glob_path patterns' segments ||
          match segments with
          | _ :: segments' => any segments'
          | [] => false
          end
      else fun segments =>
        match segments with
        | s :: segments' => glob_segment p s && glob_path patterns' segments'
        | [] => false
        end
  end.

Definition glob (path pattern : jsstring) : bool :=
  glob_path (split_on slash pattern) (split_on slash path).

Definition ignore_lines (text : jsstring) : list jsstring :=
  List.filter (fun l => nonempty l && negb (starts_with 35 l)) (split_on lf text).

Definition fileUri (u : jsstring) : option jsstring :=
  if is_prefix (js "file://") u then Some (drop 7 u) else None.

Definition host (home : option jsstring) : Host :=
  {| path_join := join; path_dirname := dirname; path_resolve := resolve;
     JSON_parse := parse; minimatch := glob; parse_gitignore := ignore_lines;
     uriToFilePath := fileUri; user_home := home |}.

(** A file system given by the list of its regular files. *)
Fixpoint files (l : list (jsstring * jsstring)) : filesystem :=
  match l with
  | [] => fun _ => None
  | (p, text) :: l' =>
      fun q => if bool_decide (q = p) then Some (File text) else files l' q
  end.

End Posix.

(** ** Vocabulary of the properties *)

(** What [stripComments] does, as a grammar of the input: the text is a
    sequence of ordinary characters, quoted strings, block comments and
    line comments, read from left to right. The strings and comments are
    those of the regular expression, for which a line ends in a line feed,
    with or without a carriage return before it: a comment that holds
    another line terminator is none of them (see [lone_terminator]
    below). *)



Definition no_line_terminator (b : jsstring) : Prop :=
  Forall (fun c => is_line_terminator c = false) b.







(** The number of line feeds of a text: the line on which what follows it
    starts. *)
Definition line_feeds (s : jsstring) : nat := List.length (List.filter (N.eqb lf) s).

Definition origin : Position := {| pos_line := 0; pos_character := 0 |}.

(** The clamping as the specification words it: a warning whose line or
    character is not positive is reported at the origin. *)
Definition clamped_to_origin (problem : JSLintError) : Prop :=
  (line problem <= 0 \/ character problem <= 0)%Z ->
  range_start (range (makeDiagnostic problem)) = origin.

Definition build_patterns : option obj := Some [(js "build/**", VBool true)].

Definition reads_only {S A} (m : M S A) : Prop := forall s, state_of (m s) = s.

Definition with_optionsCache (cache : gmap jsstring value) (this : OptionsResolver)
  : OptionsResolver :=
  {| configPath := configPath this; jslintOptions := jslintOptions this;
     optionsCache := cache |}.

Definition with_excludeCache (cache : gmap jsstring bool) (this : FileMatcher)
  : FileMatcher :=
  {| fm_configPath := fm_configPath this;
     defaultExcludePatterns := defaultExcludePatterns this;
     excludeCache := cache;
     gitignoreCache := gitignoreCache this |}.

Definition with_gitignoreCache (cache : gmap jsstring (list jsstring))
  (this : FileMatcher) : FileMatcher :=
  {| fm_configPath := fm_configPath this;
     defaultExcludePatterns := defaultExcludePatterns this;
     excludeCache := excludeCache this;
     gitignoreCache := cache |}.

(** A computation of the matcher that leaves its three fields alone, may
    add to the cache of parse-gitignore, and changes nothing at all when it
    does not return. *)
Definition remembers_patterns_only {A} (m : M FileMatcher A) : Prop :=
  forall this,
    (exists cache, state_of (m this) = with_gitignoreCache cache this)
    /\ ((forall a, outcome_of (m this) <> Ok a) -> state_of (m this) = this).

(** Later calls, each with the file system of its moment. *)
Record query := {
  q_fs : filesystem;
  q_fuel : nat;
  q_path : jsstring
}.

Fixpoint after_getOptions (H : Host) (queries : list query) (this : OptionsResolver)
  : OptionsResolver :=
  match queries with
  | [] => this
  | q :: queries' =>
      after_getOptions H queries'
        (state_of (getOptions H (q_fs q) (q_fuel q) (q_path q) this))
  end.

Record exclusion_query := {
  x_fs : filesystem;
  x_fuel : nat;
  x_path : option jsstring;
  x_root : option jsstring
}.

Fixpoint after_excludes (H : Host) (queries : list exclusion_query) (this : FileMatcher)
  : FileMatcher :=
  match queries with
  | [] => this
  | q :: queries' =>
      after_excludes H queries'
        (state_of (excludes H (x_fs q) (x_fuel q) (x_path q) (x_root q) this))
  end.

(** The memoization as the specification words it: whatever the first call
    returned, the next call for the same path returns it without running
    the resolution again. *)
Definition memoized_for_every_value (H : Host) (this : OptionsResolver)
  (fsPath : jsstring) : Prop :=
  forall fs fuel result,
    outcome_of (getOptions H fs fuel fsPath this) = Ok result ->
    forall fs' fuel',
      let this' := state_of (getOptions H fs fuel fsPath this) in
      getOptions H fs' fuel' fsPath this' = (Ok result, this', []).

Definition empty_conf : filesystem := Posix.files [(js "/proj/jslint.conf", js "{}")].

Definition emits_only {S A} (P : event -> Prop) (m : M S A) : Prop :=
  forall s, Forall P (trace_of (m s)).

Definition not_send (e : event) : Prop :=
  match e with
  | EvSend _ _ => False
  | _ => True
  end.

(** An engine that has no [data()]: the failing input of C1. *)
Definition old_engine : JSLINT :=
  {| data_supported := false; analyse := fun _ _ _ => [] |}.

Definition old_linter : Linter :=
  {| options := OptionsResolver_configure None (VObj []) OptionsResolver_new;
     fileMatcher := FileMatcher_configure None (Some []) FileMatcher_new;
     workspaceRoot := Some (js "/proj");
     lib := old_engine |}.

Definition a_js : ITextDocument :=
  {| uri := js "file:///proj/src/a.js"; getText := js "x = 1" |}.

(** What [JSON.parse(stripComments(...))] makes of a file, when the file
    can be read and parsed. *)
Definition parsed (H : Host) (fs : filesystem) (file : jsstring) : option value :=
  match fs file with
  | Some (File text) => JSON_parse H (stripComments text)
  | Some Directory | None => None
  end.

Definition load_error (file : jsstring) (extendedFrom : option jsstring) : event :=
  EvShowError
    (Text (js "Can't load JSLint configuration from file " ++
           (match extendedFrom with
            | Some e => if nonempty e then file ++ js " extended from " ++ e else file
            | None => file
            end) ++
           js ". Please check the file for syntax errors.")).

Definition missing_base (baseFile file : jsstring) : event :=
  EvShowError
    (Text (js "Can't find JSLint file " ++ baseFile ++ js " extended from " ++ file)).


Definition scalar (v : value) : Prop :=
  match v with
  | VArr _ | VObj _ => False
  | _ => True
  end.

(** The files of the specification's example, and a file with an empty
    [extends]. *)
Definition extends_fs : filesystem :=
  Posix.files
    [(js "/proj/jslint.conf", js "{`a`: [2], `extends`: `parent`}");
     (js "/proj/parent", js "{`a`: [1], `b`: 1}")].




Definition on_disk (fs : filesystem) (p : jsstring) : bool :=
  bool_decide (is_Some (fs p)).

Definition explicit_config (fs : filesystem) (this : OptionsResolver) : bool :=
  truthy_str (configPath this) && on_disk fs (default [] (configPath this)).

Definition legacy_path (this : OptionsResolver) : value :=
  prop (jslintOptions this) (js "config").

Definition legacy_config (fs : filesystem) (this : OptionsResolver) : bool :=
  truthy (jslintOptions this) && truthy (legacy_path this)
  && match legacy_path this with
     | VStr p => on_disk fs p
     | _ => false
     end.

Definition home_config (H : Host) (fs : filesystem) : bool :=
  truthy_str (user_home H) && on_disk fs (path_join H (default [] (user_home H)) JSLINTRC).

(** The [k]-th directory above [directory]. *)
Fixpoint ancestor (H : Host) (k : nat) (directory : jsstring) : jsstring :=
  match k with
  | O => directory
  | Datatypes.S k' => ancestor H k' (path_dirname H directory)
  end.

(** Source (3) as the specification words it: the [jslintConfig] of the
    nearest directory, from [dir] upwards, whose package.json has one. *)
Definition package_config (H : Host) (fs : filesystem) (dir : jsstring) : option value :=
  match parsed H fs (path_join H dir (js "package.json")) with
  | Some content =>
      let c := prop content (js "jslintConfig") in
      if truthy c then Some c else None
  | None => None
  end.

Fixpoint nearest_package_config (H : Host) (fs : filesystem) (fuel : nat)
  (dir : jsstring) : option value :=
  match fuel with
  | O => None
  | Datatypes.S n =>
      match package_config H fs dir with
      | Some c => Some c
      | None =>
          if bool_decide (path_dirname H dir = dir) then None
          else nearest_package_config H fs n (path_dirname H dir)
      end
  end.

Definition package_source_as_stated (H : Host) (fs : filesystem) (fuel : nat)
  (fsPath : jsstring) (this : OptionsResolver) : Prop :=
  explicit_config fs this = false -> legacy_config fs this = false ->
  forall c, nearest_package_config H fs fuel fsPath = Some c ->
            outcome_of (readOptions H fs fuel fsPath this) = Ok c.

(** A package.json without [jslintConfig] below one that has it. *)
Definition nested_fs : filesystem :=
  Posix.files
    [(js "/proj/sub/package.json", js "{`name`: `sub`}");
     (js "/proj/package.json", js "{`jslintConfig`: {`devel`: true}}")].

(** The six sources, each on a small file system. *)
Definition sources_fs : filesystem :=
  Posix.files
    [(js "/etc/explicit.conf", js "{`explicit`: true, `extends`: `x`}");
     (js "/etc/legacy.conf", js "{`legacy`: true}");
     (js "/proj/package.json", js "{`jslintConfig`: {`devel`: true}}");
     (js "/proj/src/jslint.conf", js "{`near`: true}");
     (js "/home/u/jslint.conf", js "{`home`: true}")].

Definition conf_fs : filesystem :=
  Posix.files
    [(js "/proj/package.json", js "{`name`: `p`}");
     (js "/proj/jslint.conf", js "{`near`: true}")].

Definition legacy_options : value := VObj [(js "config", VStr (js "/etc/legacy.conf"))].

(** ** The rest of the server

    [Linter.lastSegment] (lines 431-434), the bulk validation (lines
    454-464) and the two notification handlers of the constructor (lines
    398-424). *)

(** [index > -1 ? fsPath.substr(index + 1) : fsPath]. *)
Definition lastSegment (fsPath : jsstring) : jsstring :=
  match lastIndexOf_slash fsPath with
  | Some index => drop (S index) fsPath
  | None => fsPath
  end.

(** [ErrorMessageTracker] (vscode-languageserver): [add] records a
    message, [sendErrors] shows what was recorded. The tracker keeps one
    entry per message text; the exceptions of the model carry their class
    and not their text, so the tracker is embedded as the list of the
    messages added and [sendErrors] as one event that carries the list. *)
Definition tracker_add (tracker : list notice) (m : notice) : list notice :=
  tracker ++ [m].

Definition sendErrors {S} (tracker : list notice) : M S unit :=
  emit (EvSendErrors tracker).

(** The loop of [validateAll] over [this.documents.all()]; the open
    documents belong to the document store of the library and are given as
    an argument. *)
Fixpoint validate_each (H : Host) (fs : filesystem) (fuel : nat)
  (documents : list ITextDocument) (tracker : list notice) : M Linter (list notice) :=
  match documents with
  | [] => ret tracker
  | document :: documents' =>
      let* tracker :=
        try_catch (validate H fs fuel document ;; ret tracker)
          (fun err => ret (tracker_add tracker (getMessage err document))) in
      validate_each H fs fuel documents' tracker
  end.

Definition validateAll (H : Host) (fs : filesystem) (fuel : nat)
  (documents : list ITextDocument) : M Linter unit :=
  let* tracker := validate_each H fs fuel documents [] in
  sendErrors tracker.

(** One round of the [forEach] of [onDidChangeWatchedFiles] (lines
    408-419). *)
Definition watched_change (uri : jsstring) (needsValidating : bool) : M Linter bool :=
  let name := lastSegment uri in
  if bool_decide (name = JSLINTRC) then
    let* this := get in
    put (set_options (OptionsResolver_clear (options this)) this) ;;
    ret true
  else if bool_decide (name = JSLINTIGNORE) then
    let* this := get in
    put (set_fileMatcher (FileMatcher_clear (fileMatcher this)) this) ;;
    ret true
  else ret needsValidating.

Fixpoint watched_changes (changes : list jsstring) (needsValidating : bool)
  : M Linter bool :=
  match changes with
  | [] => ret needsValidating
  | uri :: changes' =>
      let* needsValidating := watched_change uri needsValidating in
      watched_changes changes' needsValidating
  end.

(** [params.changes] may be missing. *)
Definition onDidChangeWatchedFiles (H : Host) (fs : filesystem) (fuel : nat)
  (documents : list ITextDocument) (changes : option (list jsstring)) : M Linter unit :=
  let* needsValidating :=
    match changes with
    | Some changes => watched_changes changes false
    | None => ret false
    end in
  if needsValidating then validateAll H fs fuel documents else ret tt.

(** The [jslint] section of the settings; a field that is not there is
    [None]. *)
Record JSLintSettings := {
  s_config : option jsstring;
  s_options : option value;
  s_excludePath : option jsstring;
  s_exclude : option obj;
  s_version : value
}.

(** [_.assign({ options: {}, exclude: {} }, settings.jslint)]. *)
Definition assign_defaults (jslint : option JSLintSettings) : JSLintSettings :=
  match jslint with
  | Some s =>
      {| s_config := s_config s;
         s_options := Some (default (VObj []) (s_options s));
         s_excludePath := s_excludePath s;
         s_exclude := Some (default [] (s_exclude s));
         s_version := s_version s |}
  | None =>
      {| s_config := None; s_options := Some (VObj []); s_excludePath := None;
         s_exclude := Some []; s_version := VUndef |}
  end.

(** The handler of [onDidChangeConfiguration] (lines 398-404). The state
    is the linter together with the version that [setVersion] stores in the
    resolver. *)
Definition onDidChangeConfiguration (H : Host) (fs : filesystem) (fuel : nat)
  (documents : list ITextDocument) (jslint : option JSLintSettings)
  : M (Linter * value) unit :=
  let jslintSettings := assign_defaults jslint in
  let* state := get in
  let this := fst state in
  let this :=
    set_options
      (OptionsResolver_configure (s_config jslintSettings)
         (default VUndef (s_options jslintSettings)) (options this)) this in
  let this :=
    set_fileMatcher
      (FileMatcher_configure (s_excludePath jslintSettings) (s_exclude jslintSettings)
         (fileMatcher this)) this in
  put (this, s_version jslintSettings) ;;
  zoom fst (fun l st => (l, snd st)) (validateAll H fs fuel documents).

(** ** Vocabulary of the further properties *)

(** A value in which the property names of every object are distinct, at
    every depth: what [JSON.parse] returns. *)
Fixpoint unique_keys (v : value) : Prop :=
  match v with
  | VObj o =>
      NoDup (map fst o)
      /\ (fix all (o : obj) : Prop :=
            match o with
            | [] => True
            | (_, w) :: o' => unique_keys w /\ all o'
            end) o
  | VArr l =>
      (fix all (l : list value) : Prop :=
         match l with
         | [] => True
         | w :: l' => unique_keys w /\ all l'
         end) l
  | _ => True
  end.

Fixpoint all_unique_keys (o : obj) : Prop :=
  match o with
  | [] => True
  | (_, w) :: o' => unique_keys w /\ all_unique_keys o'
  end.

(** A value in which no object has a property named [__proto__], at every
    depth. *)
Fixpoint ordinary_names (v : value) : Prop :=
  match v with
  | VObj o =>
      (fix all (o : obj) : Prop :=
         match o with
         | [] => True
         | (k, w) :: o' => k <> PROTO /\ ordinary_names w /\ all o'
         end) o
  | VArr l =>
      (fix all (l : list value) : Prop :=
         match l with
         | [] => True
         | w :: l' => ordinary_names w /\ all l'
         end) l
  | _ => True
  end.

Fixpoint all_ordinary_names (o : obj) : Prop :=
  match o with
  | [] => True
  | (k, w) :: o' => k <> PROTO /\ ordinary_names w /\ all_ordinary_names o'
  end.

(** Whether a text contains the opening delimiter of a block comment. *)
Fixpoint has_block_open (s : jsstring) : bool :=
  match s with
  | [] => false
  | c :: s' => ((c =? slash) && starts_with star s') || has_block_open s'
  end.

(** The [existsSync] calls of a walk of [k] directories from [directory]
    upwards. *)
Fixpoint probes (H : Host) (k : nat) (directory fileName : jsstring) : list event :=
  match k with
  | O => []
  | S k' =>
      EvExists (path_join H directory fileName)
      :: probes H k' (path_dirname H directory) fileName
  end.

(** The file is in the [k]-th directory above [directory] and in none
    below it, and the root is not reached before. *)
Definition nearest_at (H : Host) (fs : filesystem) (directory fileName : jsstring)
  (k : nat) : Prop :=
  on_disk fs (path_join H (ancestor H k directory) fileName) = true
  /\ forall j, (j < k)%nat ->
       on_disk fs (path_join H (ancestor H j directory) fileName) = false
       /\ path_dirname H (ancestor H j directory) <> ancestor H j directory.

(** The [k]-th directory above [directory] is the root, and no directory up
    to it has the file. *)
Definition none_up_to (H : Host) (fs : filesystem) (directory fileName : jsstring)
  (k : nat) : Prop :=
  path_dirname H (ancestor H k directory) = ancestor H k directory
  /\ forall j, (j <= k)%nat ->
       on_disk fs (path_join H (ancestor H j directory) fileName) = false.

(** The package.json source has nothing to say: there is no package.json
    up to the root, or the nearest one cannot be loaded, or its content has
    no truthy [jslintConfig]. *)
Definition package_silent (H : Host) (fs : filesystem) (fuel : nat) (fsPath : jsstring)
  : Prop :=
  (exists k, none_up_to H fs fsPath (js "package.json") k /\ (k < fuel)%nat)
  \/ (exists k,
        nearest_at H fs fsPath (js "package.json") k /\ (k < fuel)%nat
        /\ match parsed H fs (path_join H (ancestor H k fsPath) (js "package.json")) with
           | Some content =>
               content <> VNull /\ content <> VUndef
               /\ truthy (prop content (js "jslintConfig")) = false
           | None => True
           end).

(** A set of files closed under [extends]: each one parses to an object
    whose [extends] names an existing file of the set. *)
Definition extends_within (H : Host) (fs : filesystem) (files : jsstring -> Prop) : Prop :=
  forall file, files file ->
    exists c e,
      parsed H fs file = Some (VObj c)
      /\ obj_get (js "extends") c = Some (VStr e)
      /\ e <> []
      /\ fs (path_resolve H (path_dirname H file) e) <> None
      /\ files (path_resolve H (path_dirname H file) e).

Definition self_extending_fs : filesystem :=
  Posix.files [(js "/proj/jslint.conf", js "{`extends`: `jslint.conf`}")].

(** Whether the configured ignore file is there. *)
Definition ignore_config (fs : filesystem) (this : FileMatcher) : bool :=
  truthy_str (fm_configPath this) && on_disk fs (default [] (fm_configPath this)).

Definition null_package_fs : filesystem :=
  Posix.files [(js "/proj/package.json", js "null");
               (js "/proj/jslint.conf", js "{`devel`: true}")].

Definition empty_ignore_fs : filesystem :=
  Posix.files [(js "/proj/.jslintignore", js "# nothing to ignore")].

(** The events that come from the file system. *)
Definition disk_event (e : event) : Prop :=
  match e with
  | EvExists _ | EvRead _ => True
  | _ => False
  end.

Definition is_send (e : event) : bool :=
  match e with
  | EvSend _ _ => true
  | _ => false
  end.

(** What validating the documents one after the other publishes, each on
    the state the one before left. *)
Fixpoint published (H : Host) (fs : filesystem) (fuel : nat)
  (documents : list ITextDocument) (this : Linter) : list event :=
  match documents with
  | [] => []
  | document :: documents' =>
      List.filter is_send (trace_of (validate H fs fuel document this))
      ++ published H fs fuel documents' (state_of (validate H fs fuel document this))
  end.

Fixpoint after_validating (H : Host) (fs : filesystem) (fuel : nat)
  (documents : list ITextDocument) (this : Linter) : Linter :=
  match documents with
  | [] => this
  | document :: documents' =>
      after_validating H fs fuel documents'
        (state_of (validate H fs fuel document this))
  end.

(** Every validation of the sequence returns or throws. *)
Fixpoint all_settle (H : Host) (fs : filesystem) (fuel : nat)
  (documents : list ITextDocument) (this : Linter) : Prop :=
  match documents with
  | [] => True
  | document :: documents' =>
      (outcome_of (validate H fs fuel document this) = Ok tt
       \/ exists e, outcome_of (validate H fs fuel document this) = Throw e)
      /\ all_settle H fs fuel documents' (state_of (validate H fs fuel document this))
  end.

(** The linter after the caches named by a batch of file changes were
    cleared. *)
Definition cleared (rc ignore : bool) (this : Linter) : Linter :=
  {| options := if rc then OptionsResolver_clear (options this) else options this;
     fileMatcher :=
       if ignore then FileMatcher_clear (fileMatcher this) else fileMatcher this;
     workspaceRoot := workspaceRoot this;
     lib := lib this |}.

Definition names (name : jsstring) (changes : list jsstring) : bool :=
  existsb (fun uri => bool_decide (lastSegment uri = name)) changes.

(** An engine that reports one warning whatever it is given. *)
Definition semicolon_engine : JSLINT :=
  {| data_supported := true;
     analyse := fun _ _ _ =>
       [{| w_code := Some (js "W1"); w_line := 1; w_column := 1;
           w_message := js "Missing semicolon" |}] |}.

Definition new_linter (engine : JSLINT) : Linter :=
  {| options := OptionsResolver_new; fileMatcher := FileMatcher_new;
     workspaceRoot := Some (js "/proj"); lib := engine |}.

Definition b_js : ITextDocument :=
  {| uri := js "file:///proj/build/b.js"; getText := js "y = 2" |}.

Definition untitled : ITextDocument :=
  {| uri := js "untitled:Untitled-1"; getText := js "z" |}.

Definition excluding_old_linter : Linter :=
  {| options := OptionsResolver_new;
     fileMatcher := FileMatcher_configure None build_patterns FileMatcher_new;
     workspaceRoot := Some (js "/proj");
     lib := old_engine |}.

(** The linter that a change of configuration leaves before it validates:
    both objects hold the incoming settings (an empty options object and no
    pattern where the settings have none) and empty caches; the workspace
    root, the engine and what parse-gitignore remembers are as before. *)
Definition reconfigured (jslint : option JSLintSettings) (this : Linter) : Linter :=
  {| options :=
       {| configPath := jslint ≫= s_config;
          jslintOptions := default (VObj []) (jslint ≫= s_options);
          optionsCache := ∅ |};
     fileMatcher :=
       {| fm_configPath := jslint ≫= s_excludePath;
          defaultExcludePatterns := Some (pickTrueKeys (Some (default [] (jslint ≫= s_exclude))));
          excludeCache := ∅;
          gitignoreCache := gitignoreCache (fileMatcher this) |};
     workspaceRoot := workspaceRoot this;
     lib := lib this |}.

Definition build_settings : JSLintSettings :=
  {| s_config := None; s_options := None; s_excludePath := None;
     s_exclude := build_patterns; s_version := VStr (js "es6") |}.

(** What comes before the engine is called: looking at the disk and
    telling the user about a configuration file. *)
Definition preparing (e : event) : Prop :=
  match e with
  | EvExists _ | EvRead _ | EvShowError _ => True
  | _ => False
  end.

(** The engine is given truthy options and truthy globals. *)
Definition lints_with_objects (e : event) : Prop :=
  match e with
  | EvLint _ options globals => truthy options = true /\ truthy globals = true
  | _ => True
  end.

(** A file that is read is on disk. *)
Definition reads_found (fs : filesystem) (e : event) : Prop :=
  match e with
  | EvRead p => on_disk fs p = true
  | _ => True
  end.

Definition zero_conf_fs : filesystem := Posix.files [(js "/proj/jslint.conf", js "0")].

(** * Properties *)

(** ** Comment stripping *)

Lemma consume_Some m k m' r :
  k = Some (m', r) -> consume m k = Some (m ++ m', r).
Proof. intros ->. reflexivity. Qed.


Lemma starts_with_app c b rest :
  b <> [] -> starts_with c (b ++ rest) = starts_with c b.
Proof. destruct b; [contradiction | reflexivity]. Qed.


Lemma not_terminator_lf c : is_line_terminator c = false -> (c =? lf) = false.
Proof. unfold is_line_terminator. destruct (c =? lf); [discriminate|reflexivity]. Qed.

Lemma not_terminator_cr c : is_line_terminator c = false -> (c =? cr) = false.
Proof.
  unfold is_line_terminator. destruct (c =? cr); [|reflexivity].
  rewrite orb_true_r. discriminate.
Qed.




(** Every scanner splits its input into the text it matched and the rest. *)
Lemma scan_string_split q s : forall m r,
  scan_string q s = Some (m, r) -> s = m ++ r.
Proof.
  remember (List.length s) as n eqn:Hn. revert s Hn.
  induction n as [n IH] using lt_wf_ind. intros s Hn m r.
  destruct s as [|c s]; [discriminate|]. cbn [scan_string].
  destruct (c =? q).
  - intros [= <- <-]. reflexivity.
  - destruct (c =? backslash).
    + destruct s as [|e s]; [discriminate|].
      destruct (is_line_terminator e); [discriminate|].
      destruct (scan_string q s) as [[m' r']|] eqn:E; [|discriminate].
      intros [= <- <-]. apply (IH (List.length s)) in E; [|subst n; simpl; lia|reflexivity].
      subst s. reflexivity.
    + destruct (scan_string q s) as [[m' r']|] eqn:E; [|discriminate].
      intros [= <- <-]. apply (IH (List.length s)) in E; [|subst n; simpl; lia|reflexivity].
      subst s. reflexivity.
Qed.

Lemma scan_block_split s : forall m r,
  scan_block s = Some (m, r) -> s = m ++ r /\ m <> [].
Proof.
  remember (List.length s) as n eqn:Hn. revert s Hn.
  induction n as [n IH] using lt_wf_ind. intros s Hn m r.
  destruct s as [|c s]; [discriminate|]. cbn [scan_block].
  destruct ((c =? star) && starts_with slash s) eqn:Hclose.
  { intros [= <- <-]. apply andb_true_iff in Hclose as [Hc Hs].
    apply N.eqb_eq in Hc. destruct s as [|d s]; [discriminate|].
    apply N.eqb_eq in Hs. subst. split; [reflexivity|discriminate]. }
  destruct ((c =? cr) && starts_with lf s) eqn:Hcrlf.
  { apply andb_true_iff in Hcrlf as [Hc Hs]. apply N.eqb_eq in Hc.
    destruct s as [|d s]; [discriminate|]. apply N.eqb_eq in Hs. subst.
    destruct (scan_block s) as [[m' r']|] eqn:E; [|discriminate].
    intros [= <- <-]. apply (IH (List.length s)) in E as [-> _]; [|simpl; lia|reflexivity].
    split; [reflexivity|discriminate]. }
  destruct (c =? lf) eqn:Hlf.
  { apply N.eqb_eq in Hlf. subst c.
    destruct (scan_block s) as [[m' r']|] eqn:E; [|discriminate].
    intros [= <- <-]. apply (IH (List.length s)) in E as [-> _]; [|subst n; simpl; lia|reflexivity].
    split; [reflexivity|discriminate]. }
  destruct (is_line_terminator c); [discriminate|].
  destruct (scan_block s) as [[m' r']|] eqn:E; [|discriminate].
  intros [= <- <-]. apply (IH (List.length s)) in E as [-> _]; [|subst n; simpl; lia|reflexivity].
  split; [reflexivity|discriminate].
Qed.

Lemma scan_line_split s : forall m r,
  scan_line s = Some (m, r) -> s = m ++ r.
Proof.
  induction s as [|c s IH]; intros m r; cbn [scan_line].
  - intros [= <- <-]. reflexivity.
  - destruct (c =? lf) eqn:Hlf.
    { apply N.eqb_eq in Hlf. intros [= <- <-]. subst. reflexivity. }
    destruct ((c =? cr) && starts_with lf s) eqn:Hcrlf.
    { apply andb_true_iff in Hcrlf as [Hc Hs]. apply N.eqb_eq in Hc.
      destruct s as [|d s]; [discriminate|]. apply N.eqb_eq in Hs.
      intros [= <- <-]. subst. reflexivity. }
    destruct (is_line_terminator c); [discriminate|].
    destruct (scan_line s) as [[m' r']|] eqn:E; [|discriminate].
    intros [= <- <-]. rewrite (IH _ _ eq_refl). reflexivity.
Qed.

Lemma regexp_exec_split s g m r :
  regexp_exec s = Some (g, m, r) -> s = m ++ r /\ m <> [].
Proof.
  destruct s as [|c s]; [discriminate|]. cbn [regexp_exec].
  destruct (c =? dquote).
  { destruct (scan_string dquote s) as [[m' r']|] eqn:E; [|discriminate].
    intros [= <- <- <-]. apply scan_string_split in E. subst s.
    split; [reflexivity|discriminate]. }
  destruct (c =? squote).
  { destruct (scan_string squote s) as [[m' r']|] eqn:E; [|discriminate].
    intros [= <- <- <-]. apply scan_string_split in E. subst s.
    split; [reflexivity|discriminate]. }
  destruct (c =? slash); [|discriminate].
  destruct s as [|d s]; [discriminate|].
  destruct (d =? star).
  { destruct (scan_block s) as [[m' r']|] eqn:E; [|discriminate].
    intros [= <- <- <-]. apply scan_block_split in E as [-> _].
    split; [reflexivity|discriminate]. }
  destruct (d =? slash); [|discriminate].
  destruct (scan_line s) as [[m' r']|] eqn:E; [|discriminate].
  intros [= <- <- <-]. apply scan_line_split in E. subst s.
  split; [reflexivity|discriminate].
Qed.

(** The fuel of [stripComments] is enough: more changes nothing. *)
Lemma replace_all_fuel : forall fuel s,
  (List.length s <= fuel)%nat -> replace_all fuel s = replace_all (List.length s) s.
Proof.
  induction fuel as [fuel IH] using lt_wf_ind. intros s Hlen.
  destruct s as [|c s]; [destruct fuel; reflexivity|].
  destruct fuel as [|fuel]; [simpl in Hlen; lia|].
  cbn [replace_all List.length].
  destruct (regexp_exec (c :: s)) as [[[g m] r]|] eqn:E.
  - apply regexp_exec_split in E as [Hs Hm].
    assert (Hr : (List.length r <= List.length s)%nat).
    { apply (f_equal (@List.length _)) in Hs. rewrite length_app in Hs.
      simpl in Hs. destruct m; [contradiction|]. simpl in Hs. lia. }
    simpl in Hlen. f_equal.
    transitivity (replace_all (List.length r) r);
      [apply IH; lia | symmetry; apply IH; lia].
  - simpl in Hlen. f_equal.
    transitivity (replace_all (List.length s) s);
      [apply IH; lia | reflexivity].
Qed.

Lemma stripComments_match s g m r :
  regexp_exec s = Some (g, m, r) ->
  stripComments s = replacer g m ++ stripComments r.
Proof.
  intros E. unfold stripComments.
  destruct s as [|c s]; [discriminate|].
  cbn [replace_all List.length]. rewrite E.
  apply regexp_exec_split in E as [Hs Hm].
  rewrite replace_all_fuel; [reflexivity|].
  apply (f_equal (@List.length _)) in Hs. rewrite length_app in Hs.
  simpl in Hs. destruct m; [contradiction|]. simpl in Hs. lia.
Qed.

Lemma stripComments_copy c s :
  regexp_exec (c :: s) = None -> stripComments (c :: s) = c :: stripComments s.
Proof.
  intros E. unfold stripComments. cbn [replace_all List.length]. rewrite E.
  reflexivity.
Qed.

Lemma nth_last {A} (l : list A) (x d : A) :
  nth (List.length (l ++ [x]) - 1) (l ++ [x]) d = x.
Proof.
  rewrite length_app. simpl.
  replace (List.length l + 1 - 1)%nat with (List.length l) by lia.
  rewrite app_nth2 by lia. rewrite Nat.sub_diag. reflexivity.
Qed.

Lemma nth_before_last {A} (P : A -> Prop) (l : list A) (x d : A) :
  l <> [] -> Forall P l -> P (nth (List.length (l ++ [x]) - 2) (l ++ [x]) d).
Proof.
  intros Hl HP. rewrite length_app. simpl.
  assert (0 < List.length l)%nat by (destruct l; [contradiction | simpl; lia]).
  replace (List.length l + 1 - 2)%nat with (List.length l - 1)%nat by lia.
  rewrite app_nth1 by lia.
  rewrite Forall_forall in HP. apply HP. apply list_elem_of_In, nth_In. lia.
Qed.

Lemma slashes_not_cr b :
  no_line_terminator b -> Forall (fun c => (c =? cr) = false) (slash :: slash :: b).
Proof.
  intros Hb. repeat constructor.
  eapply Forall_impl; [exact Hb|]. intros c. apply not_terminator_cr.
Qed.

Lemma replacer_line_lf b :
  no_line_terminator b -> replacer LineComment (slash :: slash :: b ++ [lf]) = [lf].
Proof.
  intros Hb. unfold replacer.
  change (slash :: slash :: b ++ [lf]) with ((slash :: slash :: b) ++ [lf]).
  rewrite nth_last.
  rewrite (nth_before_last (fun c => (c =? cr) = false)); [|discriminate|apply slashes_not_cr, Hb].
  rewrite length_app. simpl.
  replace (2 <? S (S (List.length b + 1)))%nat with true; [reflexivity|].
  symmetry. apply Nat.ltb_lt. lia.
Qed.

Lemma replacer_line_crlf b :
  replacer LineComment (slash :: slash :: b ++ [cr; lf]) = [cr; lf].
Proof.
  unfold replacer.
  change (slash :: slash :: b ++ [cr; lf]) with ((slash :: slash :: b) ++ [cr; lf]).
  replace ((slash :: slash :: b) ++ [cr; lf])
    with (((slash :: slash :: b) ++ [cr]) ++ [lf]) by (rewrite <- app_assoc; reflexivity).
  rewrite nth_last.
  rewrite length_app. simpl List.length.
  replace (S (S (List.length (b ++ [cr]))) + 1 - 2)%nat
    with (List.length ((slash :: slash :: b) ++ [cr]) - 1)%nat by (simpl; lia).
  rewrite app_nth1 by (rewrite length_app; simpl; lia).
  rewrite nth_last.
  replace (2 <? S (S (List.length (b ++ [cr]))) + 1)%nat with true; [reflexivity|].
  symmetry. apply Nat.ltb_lt. lia.
Qed.

Lemma replacer_line_end b :
  no_line_terminator b -> replacer LineComment (slash :: slash :: b) = [].
Proof.
  intros Hb. unfold replacer.
  destruct b as [|c b] using rev_ind; [reflexivity|].
  change (slash :: slash :: b ++ [c]) with ((slash :: slash :: b) ++ [c]).
  rewrite nth_last.
  apply Forall_app in Hb as [_ Hc]. inversion Hc as [|? ? Hc' _]; subst.
  rewrite (not_terminator_lf _ Hc'), andb_false_r. reflexivity.
Qed.

Lemma line_feeds_none b : no_line_terminator b -> line_feeds b = 0%nat.
Proof.
  intros Hb. unfold line_feeds. induction Hb as [|c b Hc _ IH]; [reflexivity|].
  cbn [List.filter]. rewrite N.eqb_sym, (not_terminator_lf _ Hc). exact IH.
Qed.

Lemma line_feeds_app a b : line_feeds (a ++ b) = (line_feeds a + line_feeds b)%nat.
Proof. unfold line_feeds. rewrite List.filter_app, length_app. reflexivity. Qed.








(** ** Diagnostics *)

(** C6, as stated, fails: a warning on line 0 at character 5 has a
    non-positive line and is reported at (0, 4). *)
Lemma clamped_to_origin_counterexample :
  ~ clamped_to_origin
      {| code := Some (js "W1"); id := 0; line := 0; character := 5;
         reason := js "Missing semicolon" |}.
Proof.
  unfold clamped_to_origin. intros Hc.
  specialize (Hc (or_introl (Z.le_refl 0))). discriminate Hc.
Qed.

(** C6, amended. For every raw warning the diagnostic's range is a single
    point at (max(line,1)-1, max(character,1)-1): a line that is not positive
    gives line 0 and a character that is not positive gives character 0,
    each on its own. The message is the reason, followed by the code in
    parentheses exactly when the code is present; the severity is Error iff
    the code is absent or starts with E, and Warning otherwise. *)
Theorem makeDiagnostic_spec (problem : JSLintError) :
  let d := makeDiagnostic problem in
  range_start (range d) = range_end (range d)
  /\ range_start (range d)
     = {| pos_line := Z.max (line problem) 1 - 1;
          pos_character := Z.max (character problem) 1 - 1 |}
  /\ ((line problem <= 0)%Z -> pos_line (range_start (range d)) = 0%Z)
  /\ ((character problem <= 0)%Z -> pos_character (range_start (range d)) = 0%Z)
  /\ ((line problem <= 0)%Z -> (character problem <= 0)%Z ->
      range_start (range d) = origin)
  /\ message d
     = (if code_present problem
        then reason problem ++ js " (" ++ default [] (code problem) ++ js ")"
        else reason problem)
  /\ (severity d = Error <->
      code_present problem = false \/ head (default [] (code problem)) = Some 69)
  /\ (severity d = Warning <->
      code_present problem = true /\ head (default [] (code problem)) <> Some 69).
Proof.
  destruct problem as [c i l ch r]. cbn -[js Z.max].
  assert (Hl : (if (l <=? 0)%Z then 1%Z else l) = Z.max l 1)
    by (destruct (Z.leb_spec l 0); lia).
  assert (Hch : (if (ch <=? 0)%Z then 1%Z else ch) = Z.max ch 1)
    by (destruct (Z.leb_spec ch 0); lia).
  rewrite Hl, Hch.
  split; [reflexivity|]. split; [reflexivity|].
  split; [intros; lia|]. split; [intros; lia|].
  split; [intros; unfold origin; f_equal; lia|].
  unfold code_present, getSeverity; cbn -[js].
  destruct c as [[|c0 c]|]; cbn -[js].
  - rewrite app_nil_r. split; [reflexivity|]. split; [tauto|].
    split; [discriminate|]. intros [? _]. discriminate.
  - split; [reflexivity|].
    destruct (N.eqb_spec c0 69) as [->|Hne].
    + split; [tauto|]. split; [discriminate|]. intros [_ Hn]. contradiction.
    + split; split; try discriminate.
      * intros [?|[= ?]]; [discriminate|contradiction].
      * intros _. split; [reflexivity|]. intros [= ?]. contradiction.
      * reflexivity.
  - rewrite app_nil_r. split; [reflexivity|]. split; [tauto|].
    split; [discriminate|]. intros [? _]. discriminate.
Qed.

(** A warning reported before the first line and column. *)
Lemma makeDiagnostic_spec_witness :
  let problem := {| code := Some (js "W1"); id := 0; line := 0; character := (-3);
                    reason := js "Missing semicolon" |} in
  range_start (range (makeDiagnostic problem)) = origin
  /\ severity (makeDiagnostic problem) = Warning
  /\ message (makeDiagnostic problem) = js "Missing semicolon (W1)".
Proof.
  intros problem.
  destruct (makeDiagnostic_spec problem) as (_ & _ & _ & _ & H0 & Hm & _ & Hw).
  split; [apply H0; cbn; lia|]. split.
  - apply Hw. split; [reflexivity|discriminate].
  - exact Hm.
Defined.

(** ** Exclusion matching *)

Lemma is_prefix_app folder rest : is_prefix folder (folder ++ rest) = true.
Proof.
  induction folder as [|c folder IH]; [reflexivity|].
  cbn [app is_prefix]. rewrite N.eqb_refl. exact IH.
Qed.

Lemma relativeTo_separator c folder rest :
  relativeTo ((c :: folder) ++ slash :: rest) (Some (c :: folder)) = rest.
Proof.
  unfold relativeTo. rewrite is_prefix_app. cbn [nonempty andb].
  replace (nonempty (c :: folder)) with true by reflexivity. cbn [andb].
  rewrite app_nth2 by lia. rewrite Nat.sub_diag. cbn [nth].
  rewrite N.eqb_refl, andb_true_r.
  replace (List.length (c :: folder) <? List.length ((c :: folder) ++ slash :: rest))%nat
    with true by (symmetry; apply Nat.ltb_lt; rewrite length_app; simpl; lia).
  replace (List.length (c :: folder) + 1)%nat
    with (List.length ((c :: folder) ++ [slash])) by (rewrite length_app; reflexivity).
  replace ((c :: folder) ++ slash :: rest) with (((c :: folder) ++ [slash]) ++ rest)
    by (rewrite <- app_assoc; reflexivity).
  apply drop_app_length.
Qed.

Lemma relativeTo_no_separator c folder rest :
  starts_with slash rest = false ->
  relativeTo ((c :: folder) ++ rest) (Some (c :: folder)) = rest.
Proof.
  intros Hrest. unfold relativeTo. rewrite is_prefix_app.
  replace (nonempty (c :: folder)) with true by reflexivity. cbn [andb].
  assert (Hcut : (List.length (c :: folder) <? List.length ((c :: folder) ++ rest))%nat
                 && (nth (List.length (c :: folder)) ((c :: folder) ++ rest) 0 =? slash)
                 = false).
  { rewrite app_nth2 by lia. rewrite Nat.sub_diag.
    destruct rest as [|d rest]; [apply andb_false_r|].
    cbn [nth]. simpl in Hrest. rewrite Hrest. apply andb_false_r. }
  rewrite Hcut. apply drop_app_length.
Qed.

Lemma relativeTo_elsewhere fsPath folder :
  is_prefix folder fsPath = false -> relativeTo fsPath (Some folder) = fsPath.
Proof. intros Hp. unfold relativeTo. rewrite Hp, andb_false_r. reflexivity. Qed.

(** C7. With an active pattern set and a root, [FileMatcher.match] holds iff
    some pattern of the set glob-matches the path made relative to the
    root, which is the path without the root prefix and without one slash
    after it; with root /proj and pattern build/**, /proj/build/out.js is
    excluded and /proj/src/out.js is not. *)
Theorem FileMatcher_match_spec :
  (forall H patterns path root,
     FileMatcher_match H (Some patterns) path root = true <->
     exists pattern, In pattern patterns
                     /\ minimatch H (relativeTo path root) pattern = true)
  /\ (forall c folder rest,
        relativeTo ((c :: folder) ++ slash :: rest) (Some (c :: folder)) = rest)
  /\ (forall c folder rest, starts_with slash rest = false ->
        relativeTo ((c :: folder) ++ rest) (Some (c :: folder)) = rest)
  /\ (forall fsPath folder, is_prefix folder fsPath = false ->
        relativeTo fsPath (Some folder) = fsPath)
  /\ outcome_of (excludes (Posix.host None) (Posix.files []) 8
                   (Some (js "/proj/build/out.js")) (Some (js "/proj"))
                   (FileMatcher_configure None build_patterns FileMatcher_new))
     = Ok true
  /\ outcome_of (excludes (Posix.host None) (Posix.files []) 8
                   (Some (js "/proj/src/out.js")) (Some (js "/proj"))
                   (FileMatcher_configure None build_patterns FileMatcher_new))
     = Ok false.
Proof.
  split.
  { intros H patterns path root. unfold FileMatcher_match. apply existsb_exists. }
  split; [exact relativeTo_separator|].
  split; [exact relativeTo_no_separator|].
  split; [exact relativeTo_elsewhere|].
  split; vm_compute; reflexivity.
Qed.

Lemma FileMatcher_match_spec_witness :
  relativeTo (js "/proj" ++ js "x/a.js") (Some (js "/proj")) = js "x/a.js"
  /\ relativeTo (js "/other/a.js") (Some (js "/proj")) = js "/other/a.js"
  /\ FileMatcher_match (Posix.host None) (Some [js "*.min.js"; js "build/**"])
       (js "/proj/build/out.js") (Some (js "/proj")) = true.
Proof.
  destruct FileMatcher_match_spec as (Hm & _ & Hn & He & _).
  split; [apply (Hn 47 (js "proj") (js "x/a.js")); reflexivity|].
  split; [apply He; reflexivity|].
  apply Hm. exists (js "build/**"). split; [right; left; reflexivity|reflexivity].
Defined.

(** C9. [FileMatcher.excludes] returns true for a null or undefined path
    and for the empty string, whatever the root, the patterns, the cache
    and the file system; it touches neither the cache nor the disk. *)
Theorem excludes_no_path H fs fuel root (this : FileMatcher) :
  excludes H fs fuel None root this = (Ok true, this, [])
  /\ excludes H fs fuel (Some []) root this = (Ok true, this, []).
Proof. split; reflexivity. Qed.

(** ** Computations that leave the object as it is *)

Lemma reads_only_ret {S A} (a : A) : reads_only (@ret S A a).
Proof. intros s. reflexivity. Qed.

Lemma reads_only_get {S} : reads_only (@get S).
Proof. intros s. reflexivity. Qed.

Lemma reads_only_emit {S} e : reads_only (@emit S e).
Proof. intros s. reflexivity. Qed.

Lemma reads_only_throw {S A} e : reads_only (@throw S A e).
Proof. intros s. reflexivity. Qed.

Lemma reads_only_out_of_fuel {S A} : reads_only (@out_of_fuel S A).
Proof. intros s. reflexivity. Qed.

Lemma reads_only_unmodelled {S A} : reads_only (@unmodelled S A).
Proof. intros s. reflexivity. Qed.

Lemma reads_only_bind {S A B} (m : M S A) (f : A -> M S B) :
  reads_only m -> (forall a, reads_only (f a)) -> reads_only (bind m f).
Proof.
  intros Hm Hf s. unfold bind. specialize (Hm s).
  destruct (m s) as [[[a|e| |] s'] t]; unfold state_of in *; simpl in *; subst; try reflexivity.
  specialize (Hf a s). unfold state_of in Hf.
  destruct (f a s) as [[r s''] t']. exact Hf.
Qed.

Lemma reads_only_try_catch {S A} (m : M S A) (h : exn -> M S A) :
  reads_only m -> (forall e, reads_only (h e)) -> reads_only (try_catch m h).
Proof.
  intros Hm Hh s. unfold try_catch. specialize (Hm s).
  destruct (m s) as [[[a|e| |] s'] t]; unfold state_of in *; simpl in *; subst; try reflexivity.
  specialize (Hh e s). unfold state_of in Hh.
  destruct (h e s) as [[r s''] t']. exact Hh.
Qed.

Create HintDb reads discriminated.
#[export] Hint Resolve reads_only_ret reads_only_get reads_only_emit reads_only_throw
  reads_only_out_of_fuel reads_only_unmodelled : reads.

Ltac reads_only_step :=
  match goal with
  | |- reads_only (bind _ _) => apply reads_only_bind; [|intro]
  | |- reads_only (try_catch _ _) => apply reads_only_try_catch; [|intro]
  | |- reads_only (if ?b then _ else _) => destruct b
  | |- reads_only (match ?x with _ => _ end) => destruct x
  | |- reads_only _ => solve [auto with reads]
  end.

Ltac reads_only_tac := repeat reads_only_step.

Lemma reads_only_existsSync {S} fs p : reads_only (@existsSync fs S p).
Proof. unfold existsSync. reads_only_tac. Qed.

Lemma reads_only_readFileSync {S} fs p : reads_only (@readFileSync fs S p).
Proof. unfold readFileSync. reads_only_tac. Qed.

#[export] Hint Resolve reads_only_existsSync reads_only_readFileSync : reads.

Lemma reads_only_readJsonFile {S} H fs file extendedFrom :
  reads_only (@readJsonFile H fs S file extendedFrom).
Proof. unfold readJsonFile, showErrorMessage. reads_only_tac. Qed.

Lemma reads_only_locateFile {S} H fs fuel : forall directory fileName,
  reads_only (@locateFile H fs S fuel directory fileName).
Proof.
  induction fuel as [|n IH]; intros directory fileName; cbn [locateFile].
  - auto with reads.
  - reads_only_tac; try apply IH.
Qed.

#[export] Hint Resolve reads_only_readJsonFile reads_only_locateFile : reads.

Lemma reads_only_readJSLintFile {S} H fs fuel : forall file extendedFrom,
  reads_only (@readJSLintFile H fs S fuel file extendedFrom).
Proof.
  induction fuel as [|n IH]; intros file extendedFrom; cbn [readJSLintFile].
  - auto with reads.
  - unfold get_prop, path_resolve_value, mergeWith, showErrorMessage.
    reads_only_tac; try apply IH.
Qed.

#[export] Hint Resolve reads_only_readJSLintFile : reads.

Lemma reads_only_readOptions H fs fuel fsPath :
  reads_only (readOptions H fs fuel fsPath).
Proof.
  unfold readOptions, readOptions_near, readOptions_package, readOptions_conf,
    readOptions_home, existsSync_value, get_prop.
  reads_only_tac.
Qed.

(** ** The matcher and the cache of parse-gitignore *)

Lemma with_gitignoreCache_same this : with_gitignoreCache (gitignoreCache this) this = this.
Proof. destruct this. reflexivity. Qed.

(** One call of the parse-gitignore module. *)
Lemma processIgnoreFile_eq H fs path this :
  processIgnoreFile H fs path this
  = if on_disk fs path then
      match gitignoreCache this !! path with
      | Some patterns => (Ok patterns, this, [EvExists path])
      | None =>
          match fs path with
          | Some (File text) =>
              (Ok (parse_gitignore H text),
               with_gitignoreCache
                 (<[path := parse_gitignore H text]> (gitignoreCache this)) this,
               [EvExists path; EvRead path])
          | _ => (Throw IOError, this, [EvExists path; EvRead path])
          end
      end
    else (Ok [], this, [EvExists path]).
Proof.
  unfold processIgnoreFile, existsSync, on_disk.
  unfold bind at 1. unfold bind at 1. unfold emit at 1, ret at 1. cbv beta iota zeta.
  destruct (bool_decide (is_Some (fs path))); [|reflexivity].
  unfold bind at 1. unfold get at 1. cbv beta iota zeta.
  destruct (gitignoreCache this !! path) as [patterns|]; [reflexivity|].
  unfold readFileSync, gitignore_store, bind, emit, get, put, ret, throw.
  destruct (fs path) as [[text|]|]; reflexivity.
Qed.

Lemma remembers_processIgnoreFile H fs path :
  remembers_patterns_only (processIgnoreFile H fs path).
Proof.
  intros this. rewrite processIgnoreFile_eq.
  destruct (on_disk fs path);
    [|split; [exists (gitignoreCache this); symmetry; apply with_gitignoreCache_same
             |reflexivity]].
  destruct (gitignoreCache this !! path) as [patterns|];
    [split; [exists (gitignoreCache this); symmetry; apply with_gitignoreCache_same
            |reflexivity]|].
  destruct (fs path) as [[text|]|]; cbn.
  - split; [eexists; reflexivity|]. intros Hn. exfalso. eapply Hn. reflexivity.
  - split; [exists (gitignoreCache this); symmetry; apply with_gitignoreCache_same
           |reflexivity].
  - split; [exists (gitignoreCache this); symmetry; apply with_gitignoreCache_same
           |reflexivity].
Qed.

Lemma remembers_ret {A} (a : A) : remembers_patterns_only (ret a).
Proof.
  intros this. split; [|reflexivity].
  exists (gitignoreCache this). symmetry. apply with_gitignoreCache_same.
Qed.

(** After a computation that only reads, and before a [ret]. *)
Lemma remembers_bind_reads {A B} (m : M FileMatcher A) (f : A -> M FileMatcher B) :
  reads_only m -> (forall a, remembers_patterns_only (f a)) ->
  remembers_patterns_only (bind m f).
Proof.
  intros Hm Hf this. specialize (Hm this). unfold bind, state_of, outcome_of in *.
  destruct (m this) as [[[a|e| |] s'] t]; cbn in Hm; subst s'; cbn;
    try (split; [exists (gitignoreCache this); symmetry; apply with_gitignoreCache_same
                |reflexivity]).
  specialize (Hf a this). unfold state_of, outcome_of in Hf.
  destruct (f a this) as [[r s''] t']. exact Hf.
Qed.

Lemma remembers_bind_ret {A B} (m : M FileMatcher A) (g : A -> B) :
  remembers_patterns_only m ->
  remembers_patterns_only (let* a := m in ret (g a)).
Proof.
  intros Hm this. specialize (Hm this). unfold bind, ret, state_of, outcome_of in *.
  destruct (m this) as [[[a|e| |] s'] t]; cbn in *.
  - destruct Hm as [Hc _]. split; [exact Hc|]. intros Hn. exfalso. eapply Hn. reflexivity.
  - destruct Hm as [Hc Hs]. split; [exact Hc|]. intros _. apply Hs. discriminate.
  - destruct Hm as [Hc Hs]. split; [exact Hc|]. intros _. apply Hs. discriminate.
  - destruct Hm as [Hc Hs]. split; [exact Hc|]. intros _. apply Hs. discriminate.
Qed.

Lemma remembers_shouldBeExcluded H fs fuel fsPath root :
  remembers_patterns_only (shouldBeExcluded H fs fuel fsPath root).
Proof.
  unfold shouldBeExcluded.
  apply remembers_bind_reads; [reads_only_tac|intros this].
  apply remembers_bind_reads; [reads_only_tac|intros explicit].
  destruct explicit.
  - apply remembers_bind_ret, remembers_processIgnoreFile.
  - apply remembers_bind_reads; [reads_only_tac|intros [ignoreFile|]].
    + apply remembers_bind_ret, remembers_processIgnoreFile.
    + apply remembers_ret.
Qed.

(** ** Looking for a file from a directory upwards *)

Lemma locateFile_unfold {S} H fs n directory fileName (s : S) :
  locateFile H fs (Datatypes.S n) directory fileName s
  = if on_disk fs (path_join H directory fileName)
    then (Ok (Some (path_join H directory fileName)), s,
          [EvExists (path_join H directory fileName)])
    else if bool_decide (path_dirname H directory = directory)
    then (Ok None, s, [EvExists (path_join H directory fileName)])
    else let '(r, s', t) := locateFile H fs n (path_dirname H directory) fileName s in
         (r, s', EvExists (path_join H directory fileName) :: t).
Proof.
  cbn [locateFile]. unfold existsSync, on_disk. unfold bind, emit, ret.
  cbv beta iota zeta.
  destruct (bool_decide (is_Some (fs (path_join H directory fileName))));
    [reflexivity|].
  destruct (bool_decide (path_dirname H directory = directory)); [reflexivity|].
  destruct (locateFile H fs n (path_dirname H directory) fileName s) as [[r s'] t].
  reflexivity.
Qed.

Lemma locateFile_finds {S} H fs : forall fuel directory fileName (s : S) k,
  nearest_at H fs directory fileName k -> (k < fuel)%nat ->
  locateFile H fs fuel directory fileName s
  = (Ok (Some (path_join H (ancestor H k directory) fileName)), s,
     probes H (Datatypes.S k) directory fileName).
Proof.
  induction fuel as [|n IH]; intros directory fileName s k [Hon Hbelow] Hk; [lia|].
  rewrite locateFile_unfold. destruct k as [|k].
  - cbn [ancestor] in Hon. rewrite Hon. reflexivity.
  - destruct (Hbelow 0%nat ltac:(lia)) as [Hoff Hroot]. cbn [ancestor] in Hoff, Hroot.
    rewrite Hoff. rewrite bool_decide_eq_false_2 by exact Hroot.
    rewrite (IH (path_dirname H directory) fileName s k); [reflexivity| |lia].
    split; [exact Hon|]. intros j Hj. apply (Hbelow (Datatypes.S j)). lia.
Qed.

Lemma locateFile_misses {S} H fs : forall fuel directory fileName (s : S) k,
  none_up_to H fs directory fileName k -> (k < fuel)%nat ->
  exists j, (j <= k)%nat
            /\ locateFile H fs fuel directory fileName s
               = (Ok None, s, probes H (Datatypes.S j) directory fileName).
Proof.
  induction fuel as [|n IH]; intros directory fileName s k [Hroot Hoff] Hk; [lia|].
  rewrite locateFile_unfold.
  pose proof (Hoff 0%nat ltac:(lia)) as Hhere. cbn [ancestor] in Hhere. rewrite Hhere.
  destruct (bool_decide (path_dirname H directory = directory)) eqn:Hd.
  - exists 0%nat. split; [lia|reflexivity].
  - destruct k as [|k]; [apply bool_decide_eq_false in Hd; contradiction|].
    destruct (IH (path_dirname H directory) fileName s k) as (j & Hj & Heq); [|lia|].
    + split; [exact Hroot|]. intros i Hi. apply (Hoff (Datatypes.S i)). lia.
    + exists (Datatypes.S j). split; [lia|]. rewrite Heq. reflexivity.
Qed.

(** ** The two caches *)

(** A call of [getOptions] that finds a truthy entry returns it at once. *)
Lemma getOptions_hit H fs fuel fsPath this v :
  optionsCache this !! fsPath = Some v -> truthy v = true ->
  getOptions H fs fuel fsPath this = (Ok v, this, []).
Proof.
  intros Hc Hv. unfold getOptions, bind, get. rewrite Hc. cbn [from_option]; unfold Datatypes.id.
  rewrite Hv. reflexivity.
Qed.

(** Any other call runs [readOptions] and stores what it returns. *)
Lemma getOptions_miss H fs fuel fsPath this :
  truthy (default VUndef (optionsCache this !! fsPath)) = false ->
  getOptions H fs fuel fsPath this
  = match readOptions H fs fuel fsPath this with
    | (Ok result, _, t) =>
        (Ok result,
         with_optionsCache (<[fsPath := result]> (optionsCache this)) this, t)
    | other => other
    end.
Proof.
  intros Hc. unfold getOptions. unfold bind at 1. unfold get at 1.
  rewrite Hc. unfold bind.
  pose proof (reads_only_readOptions H fs fuel fsPath this) as Hs.
  unfold state_of in Hs.
  destruct (readOptions H fs fuel fsPath this) as [[[r|e| |] s'] t];
    simpl in Hs; subst s'; try reflexivity.
  unfold cache_store, bind, get, put, ret, with_optionsCache. cbn.
  rewrite !app_nil_r. reflexivity.
Qed.

Lemma excludes_hit H fs fuel c fsPath root this verdict :
  excludeCache this !! (c :: fsPath) = Some verdict ->
  excludes H fs fuel (Some (c :: fsPath)) root this = (Ok verdict, this, []).
Proof.
  intros Hc. unfold excludes.
  replace (truthy_str (Some (c :: fsPath))) with true by reflexivity.
  cbn [from_option]; unfold Datatypes.id. unfold bind, get. rewrite Hc. reflexivity.
Qed.

Lemma excludes_miss H fs fuel c fsPath root this :
  excludeCache this !! (c :: fsPath) = None ->
  excludes H fs fuel (Some (c :: fsPath)) root this
  = match shouldBeExcluded H fs fuel (c :: fsPath) root this with
    | (Ok verdict, matcher, t) =>
        (Ok verdict,
         with_excludeCache (<[c :: fsPath := verdict]> (excludeCache matcher)) matcher, t)
    | other => other
    end.
Proof.
  intros Hc. unfold excludes.
  replace (truthy_str (Some (c :: fsPath))) with true by reflexivity.
  cbn [from_option]; unfold Datatypes.id. unfold bind at 1. unfold get at 1. rewrite Hc. unfold bind.
  destruct (shouldBeExcluded H fs fuel (c :: fsPath) root this) as [[[r|e| |] s'] t];
    try reflexivity.
  unfold exclude_store, bind, get, put, ret, with_excludeCache. cbn.
  rewrite !app_nil_r. reflexivity.
Qed.

(** When no ignore file is configured, or the configured one is not there,
    the nearest ignore file decides; its patterns are those the module
    remembers for it or, the first time, those of its text. *)
Lemma shouldBeExcluded_located H fs fuel fsPath root this k :
  ignore_config fs this = false ->
  nearest_at H fs fsPath JSLINTIGNORE k -> (k < fuel)%nat ->
  let ignoreFile := path_join H (ancestor H k fsPath) JSLINTIGNORE in
  let decides patterns :=
    FileMatcher_match H (Some patterns) fsPath (Some (folderOf ignoreFile)) in
  (forall patterns,
     gitignoreCache this !! ignoreFile = Some patterns ->
     outcome_of (shouldBeExcluded H fs fuel fsPath root this) = Ok (decides patterns)
     /\ state_of (shouldBeExcluded H fs fuel fsPath root this) = this
     /\ ~ In (EvRead ignoreFile) (trace_of (shouldBeExcluded H fs fuel fsPath root this)))
  /\ (forall text,
        gitignoreCache this !! ignoreFile = None ->
        fs ignoreFile = Some (File text) ->
        outcome_of (shouldBeExcluded H fs fuel fsPath root this)
        = Ok (decides (parse_gitignore H text))
        /\ state_of (shouldBeExcluded H fs fuel fsPath root this)
           = with_gitignoreCache
               (<[ignoreFile := parse_gitignore H text]> (gitignoreCache this)) this
        /\ In (EvRead ignoreFile) (trace_of (shouldBeExcluded H fs fuel fsPath root this)))
  /\ (gitignoreCache this !! ignoreFile = None ->
      fs ignoreFile = Some Directory ->
      outcome_of (shouldBeExcluded H fs fuel fsPath root this) = Throw IOError
      /\ state_of (shouldBeExcluded H fs fuel fsPath root this) = this).
Proof.
  intros Hi Hnear Hk ignoreFile decides.
  assert (Hon : on_disk fs ignoreFile = true) by exact (proj1 Hnear).
  assert (Hprobes : forall n d, ~ In (EvRead ignoreFile) (probes H n d JSLINTIGNORE)).
  { induction n as [|n IH]; intros d; cbn [probes In]; [tauto|].
    intros [E|Hin]; [discriminate E|]. exact (IH _ Hin). }
  assert (Heq : shouldBeExcluded H fs fuel fsPath root this
                = let '(r, s, t) := processIgnoreFile H fs ignoreFile this in
                  (match r with
                   | Ok patterns => Ok (decides patterns)
                   | Throw e => Throw e
                   | OutOfFuel => OutOfFuel
                   | Unmodelled => Unmodelled
                   end, s,
                   (if truthy_str (fm_configPath this)
                    then [EvExists (default [] (fm_configPath this))] else [])
                   ++ probes H (Datatypes.S k) fsPath JSLINTIGNORE ++ t)).
  { unfold shouldBeExcluded. unfold bind at 1. unfold get at 1. cbv beta iota zeta.
    unfold ignore_config in Hi. unfold bind at 1.
    destruct (truthy_str (fm_configPath this)).
    - unfold existsSync, bind at 1, emit at 1, ret at 1. cbv beta iota zeta.
      cbn [andb] in Hi. unfold on_disk in Hi. rewrite Hi. cbv beta iota zeta.
      unfold bind at 1. rewrite (locateFile_finds H fs fuel fsPath JSLINTIGNORE this k Hnear Hk).
      cbv beta iota zeta. fold ignoreFile. unfold bind, ret.
      destruct (processIgnoreFile H fs ignoreFile this) as [[[patterns|e| |] s'] t];
        cbn -[probes]; rewrite ?app_nil_r; reflexivity.
    - unfold ret at 1. cbv beta iota zeta.
      unfold bind at 1. rewrite (locateFile_finds H fs fuel fsPath JSLINTIGNORE this k Hnear Hk).
      cbv beta iota zeta. fold ignoreFile. unfold bind, ret.
      destruct (processIgnoreFile H fs ignoreFile this) as [[[patterns|e| |] s'] t];
        cbn -[probes]; rewrite ?app_nil_r; reflexivity. }
  rewrite Heq, processIgnoreFile_eq, Hon.
  assert (Hpre : ~ In (EvRead ignoreFile)
                     (if truthy_str (fm_configPath this)
                      then [EvExists (default [] (fm_configPath this))] else [])).
  { destruct (truthy_str (fm_configPath this)); cbn; [|tauto].
    intros [E|[]]. discriminate E. }
  split; [|split].
  - intros patterns Hc. rewrite Hc. split; [reflexivity|]. split; [reflexivity|].
    unfold trace_of. cbn [snd]. rewrite !in_app_iff. intros [Hin|[Hin|Hin]].
    + exact (Hpre Hin).
    + exact (Hprobes _ _ Hin).
    + destruct Hin as [E|[]]. discriminate E.
  - intros text Hc Ht. rewrite Hc, Ht. split; [reflexivity|]. split; [reflexivity|].
    unfold trace_of. cbn [snd]. rewrite !in_app_iff. right. right. right. left. reflexivity.
  - intros Hc Hd. rewrite Hc, Hd. split; reflexivity.
Qed.

(** C2. [configure] and [clear] leave both caches of the two objects
    empty, whatever they held, so the first [getOptions] (or [excludes])
    after either of them runs the resolution again and returns its result:
    nothing cached in the object can be returned. For [getOptions] the
    resolution reads the configuration files of that moment. For
    [excludes] it does not always: neither call empties the cache of
    parse-gitignore, so when the nearest ignore file was parsed before, was
    rewritten since, and the matcher's cache is cleared, the next verdict
    is still that of the old patterns and the file is not read. *)
Theorem caches_discarded :
  (forall path options this,
     optionsCache (OptionsResolver_configure path options this) = ∅)
  /\ (forall this, optionsCache (OptionsResolver_clear this) = ∅)
  /\ (forall path exclude this,
        excludeCache (FileMatcher_configure path exclude this) = ∅
        /\ gitignoreCache (FileMatcher_configure path exclude this) = gitignoreCache this)
  /\ (forall this,
        excludeCache (FileMatcher_clear this) = ∅
        /\ gitignoreCache (FileMatcher_clear this) = gitignoreCache this)
  /\ (forall H fs fuel fsPath this cache,
        getOptions H fs fuel fsPath (OptionsResolver_clear (with_optionsCache cache this))
        = match readOptions H fs fuel fsPath (OptionsResolver_clear this) with
          | (Ok result, _, t) =>
              (Ok result, with_optionsCache {[fsPath := result]} this, t)
          | other => other
          end)
  /\ (forall H fs fuel fsPath path options this,
        getOptions H fs fuel fsPath (OptionsResolver_configure path options this)
        = match readOptions H fs fuel fsPath
                  (OptionsResolver_configure path options OptionsResolver_new) with
          | (Ok result, _, t) =>
              (Ok result,
               with_optionsCache {[fsPath := result]}
                 (OptionsResolver_configure path options OptionsResolver_new), t)
          | other => other
          end)
  /\ (forall H fs fuel c fsPath root this cache,
        excludes H fs fuel (Some (c :: fsPath)) root
          (FileMatcher_clear (with_excludeCache cache this))
        = match shouldBeExcluded H fs fuel (c :: fsPath) root (FileMatcher_clear this) with
          | (Ok verdict, matcher, t) =>
              (Ok verdict, with_excludeCache {[c :: fsPath := verdict]} matcher, t)
          | other => other
          end)
  /\ (forall H fs fuel c fsPath root path exclude this cache,
        excludes H fs fuel (Some (c :: fsPath)) root
          (FileMatcher_configure path exclude (with_excludeCache cache this))
        = match shouldBeExcluded H fs fuel (c :: fsPath) root
                  (FileMatcher_configure path exclude this) with
          | (Ok verdict, matcher, t) =>
              (Ok verdict, with_excludeCache {[c :: fsPath := verdict]} matcher, t)
          | other => other
          end)
  /\ (forall H fs fs' fuel fuel' c fsPath root root' this k text,
        ignore_config fs this = false -> ignore_config fs' this = false ->
        excludeCache this !! (c :: fsPath) = None ->
        nearest_at H fs (c :: fsPath) JSLINTIGNORE k -> (k < fuel)%nat ->
        nearest_at H fs' (c :: fsPath) JSLINTIGNORE k -> (k < fuel')%nat ->
        let ignoreFile := path_join H (ancestor H k (c :: fsPath)) JSLINTIGNORE in
        gitignoreCache this !! ignoreFile = None ->
        fs ignoreFile = Some (File text) ->
        let first := excludes H fs fuel (Some (c :: fsPath)) root this in
        let second :=
          excludes H fs' fuel' (Some (c :: fsPath)) root'
            (FileMatcher_clear (state_of first)) in
        outcome_of first
        = Ok (FileMatcher_match H (Some (parse_gitignore H text)) (c :: fsPath)
                (Some (folderOf ignoreFile)))
        /\ outcome_of second = outcome_of first
        /\ ~ In (EvRead ignoreFile) (trace_of second)).
Proof.
  assert (Hfresh : forall H fs fuel c fsPath root this,
             excludeCache this = ∅ ->
             excludes H fs fuel (Some (c :: fsPath)) root this
             = match shouldBeExcluded H fs fuel (c :: fsPath) root this with
               | (Ok verdict, matcher, t) =>
                   (Ok verdict, with_excludeCache {[c :: fsPath := verdict]} matcher, t)
               | other => other
               end).
  { intros H fs fuel c fsPath root this He.
    rewrite excludes_miss by (rewrite He; apply lookup_empty).
    destruct (remembers_shouldBeExcluded H fs fuel (c :: fsPath) root this) as [[g Hg] _].
    unfold state_of in Hg.
    destruct (shouldBeExcluded H fs fuel (c :: fsPath) root this) as [[[r|e| |] s'] t];
      try reflexivity.
    cbn in Hg. subst s'. cbn [with_gitignoreCache excludeCache]. rewrite He, insert_empty.
    reflexivity. }
  split; [intros; reflexivity|]. split; [intros; reflexivity|].
  split; [intros; split; reflexivity|]. split; [intros; split; reflexivity|].
  split; [|split; [|split; [|split]]].
  - intros H fs fuel fsPath this cache.
    change (OptionsResolver_clear (with_optionsCache cache this))
      with (OptionsResolver_clear this).
    rewrite getOptions_miss by (cbn; rewrite lookup_empty; reflexivity).
    destruct (readOptions H fs fuel fsPath (OptionsResolver_clear this))
      as [[[r|e| |] s'] t];
      first [reflexivity | cbn; rewrite insert_empty; reflexivity].
  - intros H fs fuel fsPath path options this.
    change (OptionsResolver_configure path options this)
      with (OptionsResolver_configure path options OptionsResolver_new).
    rewrite getOptions_miss by (cbn; rewrite lookup_empty; reflexivity).
    destruct (readOptions H fs fuel fsPath
                (OptionsResolver_configure path options OptionsResolver_new))
      as [[[r|e| |] s'] t];
      first [reflexivity | cbn; rewrite insert_empty; reflexivity].
  - intros H fs fuel c fsPath root this cache.
    change (FileMatcher_clear (with_excludeCache cache this))
      with (FileMatcher_clear this).
    apply Hfresh. reflexivity.
  - intros H fs fuel c fsPath root path exclude this cache.
    change (FileMatcher_configure path exclude (with_excludeCache cache this))
      with (FileMatcher_configure path exclude this).
    apply Hfresh. reflexivity.
  - intros H fs fs' fuel fuel' c fsPath root root' this k text
      Hi Hi' Hx Hnear Hk Hnear' Hk' ignoreFile Hg Ht first second.
    destruct (shouldBeExcluded_located H fs fuel (c :: fsPath) root this k Hi Hnear Hk)
      as (_ & Hread & _).
    destruct (Hread text Hg Ht) as (Ho & Hs & _). fold ignoreFile in Ho, Hs.
    assert (Hfirst : first
                     = (Ok (FileMatcher_match H (Some (parse_gitignore H text)) (c :: fsPath)
                              (Some (folderOf ignoreFile))),
                        with_excludeCache
                          (<[c :: fsPath :=
                               FileMatcher_match H (Some (parse_gitignore H text))
                                 (c :: fsPath) (Some (folderOf ignoreFile))]>
                             (excludeCache this))
                          (with_gitignoreCache
                             (<[ignoreFile := parse_gitignore H text]> (gitignoreCache this))
                             this),
                        trace_of (shouldBeExcluded H fs fuel (c :: fsPath) root this))).
    { unfold first. rewrite excludes_miss by exact Hx.
      unfold outcome_of, state_of, trace_of in *.
      destruct (shouldBeExcluded H fs fuel (c :: fsPath) root this) as [[o s'] t].
      cbn in Ho, Hs. subst o s'. reflexivity. }
    split; [rewrite Hfirst; reflexivity|].
    set (cleared := FileMatcher_clear (state_of first)).
    assert (Hc : gitignoreCache cleared !! ignoreFile = Some (parse_gitignore H text)).
    { unfold cleared. rewrite Hfirst. cbn. apply lookup_insert_eq. }
    assert (Hic : ignore_config fs' cleared = false).
    { unfold cleared. rewrite Hfirst. exact Hi'. }
    destruct (shouldBeExcluded_located H fs' fuel' (c :: fsPath) root' cleared k
                Hic Hnear' Hk') as (Hhit & _).
    destruct (Hhit _ Hc) as (Ho' & Hs' & Hn'). fold ignoreFile in Ho', Hn'.
    assert (Hsecond : outcome_of second
                      = Ok (FileMatcher_match H (Some (parse_gitignore H text)) (c :: fsPath)
                              (Some (folderOf ignoreFile)))
                        /\ trace_of second
                           = trace_of (shouldBeExcluded H fs' fuel' (c :: fsPath) root'
                                         cleared)).
    { unfold second. fold cleared. rewrite excludes_miss by reflexivity.
      unfold outcome_of, trace_of in *.
      destruct (shouldBeExcluded H fs' fuel' (c :: fsPath) root' cleared) as [[o s'] t].
      cbn in Ho'. subst o. split; reflexivity. }
    destruct Hsecond as [Hso Hst]. split.
    + rewrite Hso, Hfirst. reflexivity.
    + rewrite Hst. exact Hn'.
Qed.

(** The failing input: /proj/.jslintignore holds build/** when
    /proj/build/out.js is first asked about and src/** after it was
    rewritten. The verdict after [clear] is still that of build/**; a
    matcher that has not parsed the file says what the disk says. *)
Lemma caches_discarded_witness :
  let H := Posix.host None in
  let before := Posix.files [(js "/proj/.jslintignore", js "build/**")] in
  let after := Posix.files [(js "/proj/.jslintignore", js "src/**")] in
  let out_js := Some (js "/proj/build/out.js") in
  let first := excludes H before 8 out_js (Some (js "/proj")) FileMatcher_new in
  let second :=
    excludes H after 8 out_js (Some (js "/proj")) (FileMatcher_clear (state_of first)) in
  outcome_of first = Ok true
  /\ outcome_of second = Ok true
  /\ ~ In (EvRead (js "/proj/.jslintignore")) (trace_of second)
  /\ outcome_of (excludes H after 8 out_js (Some (js "/proj")) FileMatcher_new) = Ok false.
Proof.
  intros H before after out_js first second.
  assert (Hnear : forall text,
             nearest_at H (Posix.files [(js "/proj/.jslintignore", text)])
               (js "/proj/build/out.js") JSLINTIGNORE 2).
  { intros text. split; [reflexivity|].
    intros [|[|j]] Hj; [split; [reflexivity|discriminate]..|lia]. }
  destruct caches_discarded as (_ & _ & _ & _ & _ & _ & _ & _ & Hstale).
  destruct (Hstale H before after 8%nat 8%nat 47 (js "proj/build/out.js")
              (Some (js "/proj")) (Some (js "/proj")) FileMatcher_new 2%nat
              (js "build/**") eq_refl eq_refl eq_refl (Hnear _) ltac:(lia)
              (Hnear _) ltac:(lia) eq_refl eq_refl) as (H1 & H2 & H3).
  split; [exact H1|]. split; [exact (eq_trans H2 H1)|]. split; [exact H3|].
  vm_compute. reflexivity.
Defined.

Lemma truthy_cached (cache : gmap jsstring value) fsPath :
  truthy (default VUndef (cache !! fsPath)) = true ->
  exists v, cache !! fsPath = Some v /\ truthy v = true.
Proof.
  destruct (cache !! fsPath) as [v|]; [|discriminate].
  intros Hv. exists v. split; [reflexivity|exact Hv].
Qed.

Lemma getOptions_keeps H fs fuel q this fsPath v :
  optionsCache this !! fsPath = Some v -> truthy v = true ->
  optionsCache (state_of (getOptions H fs fuel q this)) !! fsPath = Some v.
Proof.
  intros Hc Hv.
  destruct (truthy (default VUndef (optionsCache this !! q))) eqn:Hq.
  - apply truthy_cached in Hq as (w & Hw & Htw).
    rewrite (getOptions_hit _ _ _ _ _ _ Hw Htw). exact Hc.
  - rewrite getOptions_miss by exact Hq.
    pose proof (reads_only_readOptions H fs fuel q this) as Hs. unfold state_of in Hs.
    destruct (readOptions H fs fuel q this) as [[[r|e| |] s'] t];
      simpl in Hs; subst s'; try exact Hc.
    cbn. rewrite lookup_insert_ne; [exact Hc|].
    intros ->. rewrite Hc in Hq. cbn [from_option] in Hq. unfold Datatypes.id in Hq.
    congruence.
Qed.

Lemma after_getOptions_keeps H queries : forall this fsPath v,
  optionsCache this !! fsPath = Some v -> truthy v = true ->
  optionsCache (after_getOptions H queries this) !! fsPath = Some v.
Proof.
  induction queries as [|q queries IH]; intros this fsPath v Hc Hv; [exact Hc|].
  cbn [after_getOptions]. apply IH; [|exact Hv]. apply getOptions_keeps; assumption.
Qed.

Lemma excludes_keeps H fs fuel q root this fsPath v :
  excludeCache this !! fsPath = Some v ->
  excludeCache (state_of (excludes H fs fuel q root this)) !! fsPath = Some v.
Proof.
  intros Hc. destruct q as [[|c q]|]; try exact Hc.
  destruct (excludeCache this !! (c :: q)) as [w|] eqn:Hq.
  - rewrite (excludes_hit _ _ _ _ _ _ _ _ Hq). exact Hc.
  - rewrite excludes_miss by exact Hq.
    destruct (remembers_shouldBeExcluded H fs fuel (c :: q) root this) as [[g Hg] _].
    unfold state_of in Hg.
    destruct (shouldBeExcluded H fs fuel (c :: q) root this) as [[[r|e| |] s'] t];
      simpl in Hg; subst s'; try exact Hc.
    cbn. rewrite lookup_insert_ne; [exact Hc|]. intros E. subst fsPath. congruence.
Qed.

Lemma after_excludes_keeps H queries : forall this fsPath v,
  excludeCache this !! fsPath = Some v ->
  excludeCache (after_excludes H queries this) !! fsPath = Some v.
Proof.
  induction queries as [|q queries IH]; intros this fsPath v Hc; [exact Hc|].
  cbn [after_excludes]. apply IH. apply excludes_keeps. exact Hc.
Qed.

(** C8, as stated, fails for an undefined result: with no configuration
    anywhere, the second call probes the file system again. *)
Lemma memoized_for_every_value_counterexample :
  ~ memoized_for_every_value (Posix.host None)
      (OptionsResolver_configure None VUndef OptionsResolver_new) (js "/a.js").
Proof.
  intros Hm.
  specialize (Hm (Posix.files []) 4%nat VUndef eq_refl (Posix.files []) 4%nat).
  apply (f_equal trace_of) in Hm. vm_compute in Hm. discriminate Hm.
Qed.

(** C8, amended. Within a configuration epoch, once [getOptions] has
    returned a truthy value for a path (any object, the empty object
    included), every later call for that path returns that value without
    running the resolution and without touching the file system, whatever
    calls for other paths come in between and whatever the disk holds by
    then. A falsy result (undefined, null) is not served from the cache:
    the next call runs the resolution again. *)
Theorem getOptions_memoized :
  (forall H fs fuel fsPath this result,
     outcome_of (getOptions H fs fuel fsPath this) = Ok result ->
     truthy result = true ->
     forall queries fs' fuel',
       let this' :=
         after_getOptions H queries (state_of (getOptions H fs fuel fsPath this)) in
       getOptions H fs' fuel' fsPath this' = (Ok result, this', []))
  /\ (forall H fs fuel fsPath this result,
        outcome_of (getOptions H fs fuel fsPath this) = Ok result ->
        truthy result = false ->
        forall fs' fuel',
          let this' := state_of (getOptions H fs fuel fsPath this) in
          getOptions H fs' fuel' fsPath this'
          = match readOptions H fs' fuel' fsPath this' with
            | (Ok result', _, t) =>
                (Ok result',
                 with_optionsCache (<[fsPath := result']> (optionsCache this')) this', t)
            | other => other
            end).
Proof.
  assert (Hfirst : forall H fs fuel fsPath this result,
             outcome_of (getOptions H fs fuel fsPath this) = Ok result ->
             optionsCache (state_of (getOptions H fs fuel fsPath this)) !! fsPath
             = Some result
             \/ (truthy result = true /\
                 truthy (default VUndef (optionsCache this !! fsPath)) = true)).
  { intros H fs fuel fsPath this result.
    destruct (truthy (default VUndef (optionsCache this !! fsPath))) eqn:Hq.
    - apply truthy_cached in Hq as (w & Hw & Htw).
      rewrite (getOptions_hit _ _ _ _ _ _ Hw Htw). intros [= <-]. left. exact Hw.
    - rewrite getOptions_miss by exact Hq.
      destruct (readOptions H fs fuel fsPath this) as [[[r|e| |] s'] t]; try discriminate.
      intros [= <-]. left. cbn. apply lookup_insert_eq. }
  split.
  - intros H fs fuel fsPath this result Hr Hv queries fs' fuel' this'.
    apply getOptions_hit; [|exact Hv]. apply after_getOptions_keeps; [|exact Hv].
    destruct (Hfirst _ _ _ _ _ _ Hr) as [Hc|[_ Hq]]; [exact Hc|].
    apply truthy_cached in Hq as (w & Hw & Htw).
    rewrite (getOptions_hit _ _ _ _ _ _ Hw Htw) in Hr |- *.
    injection Hr as <-. exact Hw.
  - intros H fs fuel fsPath this result Hr Hv fs' fuel' this'.
    apply getOptions_miss.
    destruct (Hfirst _ _ _ _ _ _ Hr) as [Hc|[Hv' _]]; [|congruence].
    subst this'. rewrite Hc. exact Hv.
Qed.

(** An empty configuration object is memoized: after the file is gone, a
    later call still returns it and does not look at the disk. *)
Lemma getOptions_memoized_witness :
  let this := OptionsResolver_configure None VUndef OptionsResolver_new in
  let other := {| q_fs := Posix.files []; q_fuel := 8; q_path := js "/tmp/b.js" |} in
  let this' :=
    after_getOptions (Posix.host None) [other]
      (state_of (getOptions (Posix.host None) empty_conf 8 (js "/proj/a.js") this)) in
  getOptions (Posix.host None) (Posix.files []) 8 (js "/proj/a.js") this'
  = (Ok (VObj []), this', []).
Proof.
  intros this other this'.
  exact (proj1 getOptions_memoized (Posix.host None) empty_conf 8%nat (js "/proj/a.js")
           this (VObj []) eq_refl eq_refl [other] (Posix.files []) 8%nat).
Defined.

(** C10. [excludes] memoizes its verdict under the path alone: once it has
    returned a verdict for a non-empty path, every later call for that path
    returns the same verdict, whatever root it is given, whatever the disk
    holds by then and whatever calls come in between, and it neither
    matches patterns nor touches the file system. Only [configure] and
    [clear], which empty the cache, end this. *)
Theorem excludes_memoized H fs fuel c fsPath root this verdict :
  outcome_of (excludes H fs fuel (Some (c :: fsPath)) root this) = Ok verdict ->
  forall queries fs' fuel' root',
    let this' :=
      after_excludes H queries
        (state_of (excludes H fs fuel (Some (c :: fsPath)) root this)) in
    excludes H fs' fuel' (Some (c :: fsPath)) root' this' = (Ok verdict, this', []).
Proof.
  intros Hr queries fs' fuel' root' this'.
  apply excludes_hit. apply after_excludes_keeps.
  destruct (excludeCache this !! (c :: fsPath)) as [w|] eqn:Hq.
  - rewrite (excludes_hit _ _ _ _ _ _ _ _ Hq) in Hr |- *.
    injection Hr as <-. exact Hq.
  - rewrite excludes_miss in Hr |- * by exact Hq.
    destruct (shouldBeExcluded H fs fuel (c :: fsPath) root this) as [[[r|e| |] s'] t];
      try discriminate.
    injection Hr as <-. cbn. apply lookup_insert_eq.
Qed.

(** /proj/build/out.js is excluded under root /proj; asked again under root
    /proj/build, where build/** no longer matches the relative path, and
    after an ignore file has appeared, the verdict is the cached one. *)
Lemma excludes_memoized_witness :
  let this := FileMatcher_configure None build_patterns FileMatcher_new in
  let later := Posix.files [(js "/proj/.jslintignore", js "nothing")] in
  let other := {| x_fs := later; x_fuel := 8; x_path := Some (js "/proj/src/a.js");
                  x_root := Some (js "/proj") |} in
  let this' :=
    after_excludes (Posix.host None) [other]
      (state_of (excludes (Posix.host None) (Posix.files []) 8
                   (Some (js "/proj/build/out.js")) (Some (js "/proj")) this)) in
  excludes (Posix.host None) later 8 (Some (js "/proj/build/out.js"))
    (Some (js "/proj/build")) this'
  = (Ok true, this', [])
  /\ outcome_of (excludes (Posix.host None) later 8 (Some (js "/proj/build/out.js"))
                   (Some (js "/proj/build")) this)
     = Ok false.
Proof.
  intros this later other this'. split.
  - exact (excludes_memoized (Posix.host None) (Posix.files []) 8%nat 47
             (js "proj/build/out.js") (Some (js "/proj")) this true eq_refl
             [other] later 8%nat (Some (js "/proj/build"))).
  - vm_compute. reflexivity.
Defined.

(** ** What a computation may emit *)

Section Emits.

Context {S : Type} (P : event -> Prop).

Lemma emits_only_ret {A} (a : A) : emits_only P (@ret S A a).
Proof. intros s. constructor. Qed.

Lemma emits_only_get : emits_only P (@get S).
Proof. intros s. constructor. Qed.

Lemma emits_only_put s : emits_only P (@put S s).
Proof. intros s'. constructor. Qed.

Lemma emits_only_throw {A} e : emits_only P (@throw S A e).
Proof. intros s. constructor. Qed.

Lemma emits_only_out_of_fuel {A} : emits_only P (@out_of_fuel S A).
Proof. intros s. constructor. Qed.

Lemma emits_only_unmodelled {A} : emits_only P (@unmodelled S A).
Proof. intros s. constructor. Qed.

Lemma emits_only_emit e : P e -> emits_only P (@emit S e).
Proof. intros He s. repeat constructor. exact He. Qed.

Lemma emits_only_bind {A B} (m : M S A) (f : A -> M S B) :
  emits_only P m -> (forall a, emits_only P (f a)) -> emits_only P (bind m f).
Proof.
  intros Hm Hf s. unfold bind. specialize (Hm s). unfold trace_of in *.
  destruct (m s) as [[[a|e| |] s'] t]; simpl in *; try exact Hm.
  specialize (Hf a s'). destruct (f a s') as [[r s''] t']. simpl in *.
  apply Forall_app. split; assumption.
Qed.

Lemma emits_only_try_catch {A} (m : M S A) (h : exn -> M S A) :
  emits_only P m -> (forall e, emits_only P (h e)) -> emits_only P (try_catch m h).
Proof.
  intros Hm Hh s. unfold try_catch. specialize (Hm s). unfold trace_of in *.
  destruct (m s) as [[[a|e| |] s'] t]; simpl in *; try exact Hm.
  specialize (Hh e s'). destruct (h e s') as [[r s''] t']. simpl in *.
  apply Forall_app. split; assumption.
Qed.

End Emits.

Lemma emits_only_zoom {S T A} P (proj : S -> T) (upd : T -> S -> S) (m : M T A) :
  emits_only P m -> emits_only P (zoom proj upd m).
Proof.
  intros Hm s. unfold zoom. specialize (Hm (proj s)). unfold trace_of in *.
  destruct (m (proj s)) as [[r t'] tr]. exact Hm.
Qed.

Create HintDb emits discriminated.
#[export] Hint Resolve emits_only_ret emits_only_get emits_only_put emits_only_throw
  emits_only_out_of_fuel emits_only_unmodelled : emits.

Ltac emits_only_step :=
  match goal with
  | |- emits_only _ (bind _ _) => apply emits_only_bind; [|intro]
  | |- emits_only _ (try_catch _ _) => apply emits_only_try_catch; [|intro]
  | |- emits_only _ (zoom _ _ _) => apply emits_only_zoom
  | |- emits_only _ (emit _) => apply emits_only_emit; exact I
  | |- emits_only _ (if ?b then _ else _) => destruct b
  | |- emits_only _ (match ?x with _ => _ end) => destruct x
  | |- emits_only _ _ => solve [auto with emits]
  end.

Ltac emits_only_tac := repeat emits_only_step.

Lemma quiet_locateFile {S} H fs fuel : forall directory fileName,
  emits_only not_send (@locateFile H fs S fuel directory fileName).
Proof.
  induction fuel as [|n IH]; intros directory fileName; cbn [locateFile].
  - auto with emits.
  - unfold existsSync. emits_only_tac; try apply IH.
Qed.

Lemma quiet_readJsonFile {S} H fs file extendedFrom :
  emits_only not_send (@readJsonFile H fs S file extendedFrom).
Proof. unfold readJsonFile, readFileSync, showErrorMessage. emits_only_tac. Qed.

#[export] Hint Resolve quiet_locateFile quiet_readJsonFile : emits.

Lemma quiet_readJSLintFile {S} H fs fuel : forall file extendedFrom,
  emits_only not_send (@readJSLintFile H fs S fuel file extendedFrom).
Proof.
  induction fuel as [|n IH]; intros file extendedFrom; cbn [readJSLintFile].
  - auto with emits.
  - unfold get_prop, path_resolve_value, mergeWith, showErrorMessage, existsSync.
    emits_only_tac; try apply IH.
Qed.

#[export] Hint Resolve quiet_readJSLintFile : emits.

Lemma quiet_getOptions H fs fuel fsPath :
  emits_only not_send (getOptions H fs fuel fsPath).
Proof.
  unfold getOptions, cache_store, readOptions, readOptions_near, readOptions_package,
    readOptions_conf, readOptions_home, existsSync_value, existsSync, get_prop.
  emits_only_tac.
Qed.

Lemma quiet_excludes H fs fuel fsPath root :
  emits_only not_send (excludes H fs fuel fsPath root).
Proof.
  unfold excludes, exclude_store, shouldBeExcluded, processIgnoreFile, gitignore_store,
    readFileSync, existsSync.
  emits_only_tac.
Qed.

#[export] Hint Resolve quiet_getOptions quiet_excludes : emits.

Lemma quiet_lintContent H fs fuel content fsPath :
  emits_only not_send (lintContent H fs fuel content fsPath).
Proof. unfold lintContent, showErrorMessage. emits_only_tac. Qed.

(** ** An engine without [data()] *)

Lemma lintContent_unsupported H fs fuel content fsPath this :
  data_supported (lib this) = false ->
  lintContent H fs fuel content fsPath this
  = match getOptions H fs fuel fsPath (options this) with
    | (Ok cached, o, t) =>
        (Throw TypeError, set_options o this,
         t ++ [EvLint content (or_empty cached)
                      (or_empty (prop (or_empty cached) (js "globals")));
               EvShowError (Text NO_DATA_MESSAGE)])
    | (Throw e, o, t) => (Throw e, set_options o this, t)
    | (OutOfFuel, o, t) => (OutOfFuel, set_options o this, t)
    | (Unmodelled, o, t) => (Unmodelled, set_options o this, t)
    end.
Proof.
  intros Hd. unfold lintContent, bind, get, zoom.
  destruct (getOptions H fs fuel fsPath (options this)) as [[[cached|e| |] o] t];
    try reflexivity.
  unfold try_catch. rewrite Hd. cbn -[js NO_DATA_MESSAGE]. reflexivity.
Qed.

(** [validate], case by case. *)
Lemma validate_eq H fs fuel document this :
  validate H fs fuel document this
  = match excludes H fs fuel (lookup_path H document this) (workspaceRoot this)
            (fileMatcher this) with
    | (Ok true, fm, t1) =>
        (Ok tt, set_fileMatcher fm this, t1 ++ [EvSend (uri document) []])
    | (Ok false, fm, t1) =>
        match lintContent H fs fuel (getText document)
                (default [] (lookup_path H document this))
                (set_fileMatcher fm this) with
        | (Ok errors, this', t2) =>
            (Ok tt, this',
             t1 ++ t2 ++ [EvSend (uri document) (map makeDiagnostic errors)])
        | (Throw e, this', t2) => (Throw e, this', t1 ++ t2)
        | (OutOfFuel, this', t2) => (OutOfFuel, this', t1 ++ t2)
        | (Unmodelled, this', t2) => (Unmodelled, this', t1 ++ t2)
        end
    | (Throw e, fm, t1) => (Throw e, set_fileMatcher fm this, t1)
    | (OutOfFuel, fm, t1) => (OutOfFuel, set_fileMatcher fm this, t1)
    | (Unmodelled, fm, t1) => (Unmodelled, set_fileMatcher fm this, t1)
    end.
Proof.
  unfold validate, bind, get, zoom, sendDiagnostics, emit, ret. cbv beta.
  destruct (excludes H fs fuel (lookup_path H document this) (workspaceRoot this)
              (fileMatcher this)) as [[[[|]|e| |] fm] t1]; try reflexivity.
  cbn [negb].
  destruct (lintContent H fs fuel (getText document)
              (default [] (lookup_path H document this))
              (set_fileMatcher fm this)) as [[[errors|e| |] this'] t2];
    cbn; rewrite ?app_nil_r; reflexivity.
Qed.

(** C1. The claim does not hold of the code: when [JSLINT.data()] cannot be
    called, [lintContent] shows the warning and then reads [warnings] of the
    undefined result, so it throws instead of returning an empty list;
    [validate] lets the exception through and publishes nothing for the
    document, and [validateSingle] turns it into a second message. *)
Theorem data_unsupported_throws H fs fuel document this :
  data_supported (lib this) = false ->
  (forall content fsPath,
     (forall findings,
        outcome_of (lintContent H fs fuel content fsPath this) <> Ok findings)
     /\ (forall cached,
           outcome_of (getOptions H fs fuel fsPath (options this)) = Ok cached ->
           outcome_of (lintContent H fs fuel content fsPath this) = Throw TypeError
           /\ In (EvShowError (Text NO_DATA_MESSAGE))
                (trace_of (lintContent H fs fuel content fsPath this))))
  /\ (outcome_of (excludes H fs fuel (lookup_path H document this)
                    (workspaceRoot this) (fileMatcher this)) = Ok false ->
      outcome_of (validate H fs fuel document this) <> Ok tt
      /\ Forall not_send (trace_of (validate H fs fuel document this))
      /\ Forall not_send (trace_of (validateSingle H fs fuel document this))).
Proof.
  intros Hd. split.
  - intros content fsPath. rewrite (lintContent_unsupported _ _ _ _ _ _ Hd).
    destruct (getOptions H fs fuel fsPath (options this)) as [[[cached|e| |] o] t];
      (split; [intros findings; discriminate|]); intros c Hc; try discriminate Hc.
    split; [reflexivity|]. unfold trace_of. cbn -[js NO_DATA_MESSAGE].
    apply in_or_app. right. right. left. reflexivity.
  - intros Hex.
    assert (Hv : outcome_of (validate H fs fuel document this) <> Ok tt
                 /\ Forall not_send (trace_of (validate H fs fuel document this))).
    { rewrite validate_eq.
      pose proof (quiet_excludes H fs fuel (lookup_path H document this)
                    (workspaceRoot this) (fileMatcher this)) as Hq.
      destruct (excludes H fs fuel (lookup_path H document this) (workspaceRoot this)
                  (fileMatcher this)) as [[ex fm] t1].
      unfold outcome_of in Hex. unfold trace_of in Hq. cbn in Hex, Hq. subst ex.
      pose proof (quiet_lintContent H fs fuel (getText document)
                    (default [] (lookup_path H document this))
                    (set_fileMatcher fm this)) as Hl.
      assert (Hn : forall findings,
                 outcome_of (lintContent H fs fuel (getText document)
                               (default [] (lookup_path H document this))
                               (set_fileMatcher fm this)) <> Ok findings).
      { intros findings. rewrite lintContent_unsupported by exact Hd.
        destruct (getOptions H fs fuel (default [] (lookup_path H document this))
                    (options (set_fileMatcher fm this))) as [[[cached|e| |] o] t];
          discriminate. }
      destruct (lintContent H fs fuel (getText document)
                  (default [] (lookup_path H document this))
                  (set_fileMatcher fm this)) as [[[findings|e| |] s2] t2];
        [exfalso; apply (Hn findings); reflexivity|..];
        (split; [discriminate|]); unfold trace_of in *; cbn in *;
        apply Forall_app; split; assumption. }
    destruct Hv as [Hv1 Hv2]. split; [exact Hv1|]. split; [exact Hv2|].
    unfold validateSingle, try_catch. unfold trace_of in *.
    destruct (validate H fs fuel document this) as [[[[]|e| |] s'] t];
      cbn in *; try exact Hv2.
    apply Forall_app. split; [exact Hv2|]. repeat constructor.
Qed.

Lemma data_unsupported_throws_witness :
  outcome_of (lintContent (Posix.host None) (Posix.files []) 8 (js "x = 1")
                (js "/proj/src/a.js") old_linter) = Throw TypeError
  /\ outcome_of (validate (Posix.host None) (Posix.files []) 8 a_js old_linter) <> Ok tt
  /\ Forall not_send
       (trace_of (validateSingle (Posix.host None) (Posix.files []) 8 a_js old_linter)).
Proof.
  destruct (data_unsupported_throws (Posix.host None) (Posix.files []) 8%nat a_js
              old_linter eq_refl) as [Hl Hv].
  split.
  - exact (proj1 (proj2 (Hl (js "x = 1") (js "/proj/src/a.js")) (VObj []) eq_refl)).
  - destruct (Hv eq_refl) as (H1 & _ & H3). split; assumption.
Defined.

(** ** Configuration files and [extends] *)

(** [readJsonFile] always returns: the parsed content, or the empty object
    after a message. *)
Lemma readJsonFile_eq {S} H fs file extendedFrom (s : S) :
  readJsonFile H fs file extendedFrom s
  = match parsed H fs file with
    | Some v => (Ok v, s, [EvRead file])
    | None => (Ok (VObj []), s, [EvRead file; load_error file extendedFrom])
    end.
Proof.
  unfold readJsonFile, parsed, try_catch, bind, readFileSync, emit, load_error.
  destruct (fs file) as [[text|]|]; try reflexivity.
  cbn -[js]. destruct (JSON_parse H (stripComments text)); reflexivity.
Qed.

Lemma readJsonFile_outcome {S} H fs file extendedFrom (s : S) v :
  parsed H fs file = Some v ->
  outcome_of (readJsonFile H fs file extendedFrom s) = Ok v.
Proof. intros Hp. rewrite readJsonFile_eq, Hp. reflexivity. Qed.

Lemma obj_get_set k k' v o :
  obj_get k (obj_set k' v o) = if bool_decide (k' = k) then Some v else obj_get k o.
Proof.
  induction o as [|[k0 v0] o IH]; cbn [obj_set obj_get].
  - reflexivity.
  - destruct (bool_decide (k0 = k')) eqn:E0; cbn [obj_get].
    + apply bool_decide_eq_true in E0. subst k0.
      destruct (bool_decide (k' = k)); reflexivity.
    + destruct (bool_decide (k0 = k)) eqn:E1.
      * apply bool_decide_eq_true in E1. subst k0.
        apply bool_decide_eq_false in E0.
        rewrite bool_decide_eq_false_2 by congruence. reflexivity.
      * exact IH.
Qed.

Lemma obj_get_absent k o : ~ In k (map fst o) -> obj_get k o = None.
Proof.
  induction o as [|[k0 v0] o IH]; [reflexivity|]. cbn [map fst In obj_get].
  intros Hn. rewrite bool_decide_eq_false_2 by tauto. apply IH. tauto.
Qed.


Lemma obj_get_delete_ne k k' o : k <> k' -> obj_get k (obj_delete k' o) = obj_get k o.
Proof.
  intros Hne. unfold obj_delete. induction o as [|[k0 v0] o IH]; [reflexivity|].
  rewrite filter_cons. cbn [fst obj_get].
  destruct (decide (k0 <> k')) as [Hk|Hk].
  - cbn [obj_get]. rewrite IH. reflexivity.
  - rewrite IH. rewrite bool_decide_eq_false_2; [reflexivity|].
    intros ->. apply Hk. congruence.
Qed.

(** The result of a merge, property by property. *)
Lemma baseMerge_get content : forall base k,
  NoDup (map fst content) -> k <> PROTO ->
  obj_get k (baseMerge content base)
  = match obj_get k content with
    | Some v => Some (merge_value (obj_get k base) v)
    | None => obj_get k base
    end.
Proof.
  induction content as [|[k0 v0] content IH]; intros base k Hnd Hk; [reflexivity|].
  cbn [baseMerge obj_get map fst] in *. apply NoDup_cons in Hnd as [Hk0 Hnd].
  rewrite IH by assumption.
  destruct (bool_decide (k0 = PROTO) && is_composite v0) eqn:Hskip.
  - apply andb_true_iff in Hskip as [Hp _]. apply bool_decide_eq_true in Hp.
    rewrite bool_decide_eq_false_2 by congruence. reflexivity.
  - rewrite obj_get_set. destruct (bool_decide (k0 = k)) eqn:E; [|reflexivity].
    apply bool_decide_eq_true in E. subst k0.
    rewrite obj_get_absent by (intros Hin; apply Hk0; apply list_elem_of_In; exact Hin).
    unfold safeGet. rewrite bool_decide_eq_false_2 by exact Hk. reflexivity.
Qed.

Lemma baseMerge_get_absent content : forall base k,
  k <> PROTO -> obj_get k content = None ->
  obj_get k (baseMerge content base) = obj_get k base.
Proof.
  induction content as [|[k0 v0] content IH]; intros base k Hp; [reflexivity|].
  cbn [obj_get baseMerge]. destruct (bool_decide (k0 = k)) eqn:E; [discriminate|].
  intros Hk. rewrite (IH _ _ Hp Hk).
  destruct (bool_decide (k0 = PROTO) && is_composite v0); [reflexivity|].
  rewrite obj_get_set, E. reflexivity.
Qed.

Lemma baseMerge_defined content : forall base k,
  k <> PROTO ->
  is_Some (obj_get k (baseMerge content base))
  <-> is_Some (obj_get k content) \/ is_Some (obj_get k base).
Proof.
  induction content as [|[k0 v0] content IH]; intros base k Hp.
  - cbn. split; [tauto|]. intros [[? [=]]|Hb]. exact Hb.
  - cbn [baseMerge obj_get]. rewrite IH by exact Hp.
    destruct (bool_decide (k0 = PROTO) && is_composite v0) eqn:Hskip.
    + apply andb_true_iff in Hskip as [Hk0 _]. apply bool_decide_eq_true in Hk0.
      rewrite (bool_decide_eq_false_2 (k0 = k)) by congruence. reflexivity.
    + rewrite obj_get_set. destruct (bool_decide (k0 = k)); [|tauto].
      split; intros _; [left|right]; eexists; reflexivity.
Qed.



(** A content either has a non-empty string under [extends] or not. *)
Lemma classic_extends (content : value) :
  (exists c e, content = VObj c /\ obj_get (js "extends") c = Some (VStr e) /\ e <> [])
  \/ (forall c e, content = VObj c -> obj_get (js "extends") c = Some (VStr e) -> e = []).
Proof.
  destruct content as [| |b|z|str|l|c]; try (right; intros; discriminate).
  destruct (obj_get (js "extends") c) as [[| |b|z|[|a e]|l|c']|] eqn:Hx;
    try (right; intros c0 e0 [= <-] He0; rewrite Hx in He0; congruence).
  left. exists c, (a :: e). repeat split; [exact Hx|discriminate].
Qed.

(** One call of [readJSLintFile] on a file whose content has a non-empty
    string under [extends]. *)
Lemma readJSLintFile_extends_step {S} H fs n file extendedFrom (s : S) c e :
  outcome_of (readJsonFile H fs file extendedFrom s) = Ok (VObj c) ->
  obj_get (js "extends") c = Some (VStr e) -> e <> [] ->
  readJSLintFile H fs (Datatypes.S n) file extendedFrom s
  = let baseFile := path_resolve H (path_dirname H file) e in
    let t0 := trace_of (readJsonFile H fs file extendedFrom s) in
    match fs baseFile with
    | Some _ =>
        match readJSLintFile H fs n baseFile (Some file) s with
        | (Ok (VObj b), s', t1) =>
            (Ok (VObj (obj_delete (js "extends") (baseMerge c b))), s',
             t0 ++ EvExists baseFile :: t1)
        | (Ok _, s', t1) => (Unmodelled, s', t0 ++ EvExists baseFile :: t1)
        | (Throw x, s', t1) => (Throw x, s', t0 ++ EvExists baseFile :: t1)
        | (OutOfFuel, s', t1) => (OutOfFuel, s', t0 ++ EvExists baseFile :: t1)
        | (Unmodelled, s', t1) => (Unmodelled, s', t0 ++ EvExists baseFile :: t1)
        end
    | None =>
        (Ok (VObj (obj_delete (js "extends") c)), s,
         t0 ++ [EvExists baseFile; missing_base baseFile file])
    end.
Proof.
  intros Hc He Hne. cbn [readJSLintFile]. unfold bind at 1.
  pose proof (reads_only_readJsonFile H fs file extendedFrom s) as Hs.
  unfold outcome_of, state_of, trace_of in *.
  destruct (readJsonFile H fs file extendedFrom s) as [[o s0] t0].
  cbn in Hc, Hs. subst o s0. cbv zeta.
  unfold get_prop, prop. rewrite He. cbn [from_option]. unfold Datatypes.id.
  unfold bind at 1. unfold ret at 1.
  replace (truthy (VStr e)) with true
    by (cbn; rewrite bool_decide_eq_false_2 by exact Hne; reflexivity).
  unfold path_resolve_value. unfold bind at 1. unfold ret at 1.
  unfold bind at 1. unfold existsSync, bind at 1, emit, ret at 1.
  destruct (fs (path_resolve H (path_dirname H file) e)) as [nd|].
  - replace (bool_decide (is_Some (Some nd))) with true by reflexivity.
    unfold bind.
    destruct (readJSLintFile H fs n (path_resolve H (path_dirname H file) e) (Some file) s)
      as [[[[]|x| |] s'] t1]; cbn -[js]; rewrite ?app_nil_r; reflexivity.
  - replace (bool_decide (is_Some (@None node))) with false by reflexivity.
    cbn -[js]. reflexivity.
Qed.

(** Every other call does not recurse: its result does not depend on the
    fuel left. *)
Lemma readJSLintFile_no_step {S} H fs n m file extendedFrom (s : S) content :
  outcome_of (readJsonFile H fs file extendedFrom s) = Ok content ->
  (forall c e, content = VObj c -> obj_get (js "extends") c = Some (VStr e) -> e = []) ->
  readJSLintFile H fs (Datatypes.S n) file extendedFrom s
  = readJSLintFile H fs (Datatypes.S m) file extendedFrom s.
Proof.
  intros Hc Hno.
  enough (Hex : exists r, forall k,
             readJSLintFile H fs (Datatypes.S k) file extendedFrom s = r)
    by (destruct Hex as [r Hr]; rewrite (Hr n), (Hr m); reflexivity).
  unfold outcome_of in Hc.
  destruct (readJsonFile H fs file extendedFrom s) as [[o s0] t0] eqn:Er.
  cbn in Hc. subst o.
  assert (Hleaf : forall x,
             prop content (js "extends") = x ->
             content <> VUndef -> content <> VNull ->
             (truthy x = false \/ forall e, x <> VStr e) ->
             exists r, forall k,
               readJSLintFile H fs (Datatypes.S k) file extendedFrom s = r).
  { intros x Hx Hu Hn Hcase.
    assert (Hg : forall T, @get_prop T content (js "extends") = ret x).
    { intros T. unfold get_prop. rewrite Hx. destruct content; congruence. }
    destruct (truthy x) eqn:Ht.
    - destruct Hcase as [?|Hstr]; [discriminate|].
      exists (Throw TypeError, s0, t0). intros k.
      cbn [readJSLintFile]. unfold bind at 1. rewrite Er, Hg.
      unfold bind at 1. unfold ret at 1. rewrite Ht.
      destruct x; try (cbn; rewrite ?app_nil_r; reflexivity).
      exfalso. eapply Hstr. reflexivity.
    - exists (Ok content, s0, t0). intros k.
      cbn [readJSLintFile]. unfold bind at 1. rewrite Er, Hg.
      unfold bind at 1. unfold ret at 1. rewrite Ht. cbn. rewrite ?app_nil_r.
      reflexivity. }
  destruct content as [| |b|z|str|l|c].
  1-2: exists (Throw TypeError, s0, t0); intros k; cbn [readJSLintFile];
    unfold bind at 1; rewrite Er; cbn; rewrite ?app_nil_r; reflexivity.
  1-4: apply (Hleaf VUndef); [reflexivity|discriminate|discriminate|left; reflexivity].
  apply (Hleaf (prop (VObj c) (js "extends"))); [reflexivity|discriminate|discriminate|].
  unfold prop. destruct (obj_get (js "extends") c) as [x|] eqn:Hx; [|left; reflexivity].
  cbn [from_option]. unfold Datatypes.id.
  destruct x as [| |b|z|e|l|c']; try (right; discriminate).
  left. rewrite (Hno c e eq_refl Hx). reflexivity.
Qed.

(** Enough fuel gives the result: once a call returns, throws or leaves the
    model, more fuel changes nothing. *)
Lemma readJSLintFile_fuel {S} H fs n : forall m file extendedFrom (s : S),
  outcome_of (readJSLintFile H fs n file extendedFrom s) <> OutOfFuel ->
  (n <= m)%nat ->
  readJSLintFile H fs m file extendedFrom s = readJSLintFile H fs n file extendedFrom s.
Proof.
  induction n as [|n IH]; intros m file extendedFrom s Hout Hle.
  - exfalso. apply Hout. reflexivity.
  - destruct m as [|m]; [lia|].
    pose proof (readJsonFile_eq H fs file extendedFrom s) as Hr.
    assert (Hc : exists content,
               outcome_of (readJsonFile H fs file extendedFrom s) = Ok content).
    { rewrite Hr. destruct (parsed H fs file); eexists; reflexivity. }
    destruct Hc as [content Hc].
    destruct (classic_extends content) as [(c & e & -> & He & Hne)|Hno].
    + rewrite (readJSLintFile_extends_step H fs n _ _ _ _ _ Hc He Hne) in Hout |- *.
      rewrite (readJSLintFile_extends_step H fs m _ _ _ _ _ Hc He Hne). cbv zeta in *.
      destruct (fs (path_resolve H (path_dirname H file) e)); [|reflexivity].
      rewrite (IH m); [reflexivity| |lia].
      intros Hrec. apply Hout. unfold outcome_of in *.
      destruct (readJSLintFile H fs n (path_resolve H (path_dirname H file) e)
                  (Some file) s) as [[[[]|x| |] s'] t1]; cbn in Hrec |- *;
        try discriminate Hrec; reflexivity.
    + apply (readJSLintFile_no_step _ _ _ _ _ _ _ _ Hc Hno).
Qed.





(** ** The order of the configuration sources *)

Lemma bind_outcome {S A B} (m : M S A) (f : A -> M S B) s a :
  reads_only m -> outcome_of (m s) = Ok a ->
  outcome_of (bind m f s) = outcome_of (f a s).
Proof.
  intros Hm Ha. unfold bind. specialize (Hm s). unfold outcome_of, state_of in *.
  destruct (m s) as [[o s'] t]. cbn in *. subst.
  destruct (f a s) as [[r s''] t']. reflexivity.
Qed.

Lemma bind_outcome_throw {S A B} (m : M S A) (f : A -> M S B) s e :
  outcome_of (m s) = Throw e -> outcome_of (bind m f s) = Throw e.
Proof.
  unfold bind, outcome_of. destruct (m s) as [[[a|e'| |] s'] t]; cbn; congruence.
Qed.

Lemma readOptions_unfold H fs fuel fsPath this :
  outcome_of (readOptions H fs fuel fsPath this)
  = if explicit_config fs this
    then outcome_of (readJsonFile H fs (default [] (configPath this)) None this)
    else if legacy_config fs this
    then outcome_of (readJsonFile H fs (string_of (legacy_path this)) None this)
    else outcome_of
           ((let* near :=
               (if nonempty fsPath then readOptions_near H fs fuel fsPath else ret None) in
             match near with
             | Some c => ret c
             | None => readOptions_home H fs fuel (jslintOptions this)
             end) this).
Proof.
  unfold readOptions.
  rewrite (bind_outcome get _ this this); [|reads_only_tac|reflexivity].
  rewrite (bind_outcome _ _ this (explicit_config fs this));
    [|reads_only_tac|unfold explicit_config; destruct (truthy_str (configPath this)); reflexivity].
  destruct (explicit_config fs this); [reflexivity|].
  rewrite (bind_outcome _ _ this (legacy_config fs this)).
  - fold (legacy_path this). destruct (legacy_config fs this); reflexivity.
  - unfold existsSync_value. reads_only_tac.
  - unfold legacy_config. fold (legacy_path this).
    destruct (truthy (jslintOptions this) && truthy (legacy_path this)); [|reflexivity].
    destruct (legacy_path this); reflexivity.
Qed.

Lemma readOptions_home_unfold {S} H fs fuel options (s : S) :
  outcome_of (readOptions_home H fs fuel options s)
  = if home_config H fs
    then outcome_of (readJSLintFile H fs fuel
                       (path_join H (default [] (user_home H)) JSLINTRC) None s)
    else Ok options.
Proof.
  unfold readOptions_home, home_config.
  destruct (truthy_str (user_home H)); [|reflexivity]. cbn [andb].
  rewrite (bind_outcome _ _ s (on_disk fs (path_join H (default [] (user_home H)) JSLINTRC)));
    [|reads_only_tac|reflexivity].
  destruct (on_disk fs _); reflexivity.
Qed.

Lemma locateFile_step {S} H fs n directory fileName (s : S) :
  outcome_of (locateFile H fs (Datatypes.S n) directory fileName s)
  = if on_disk fs (path_join H directory fileName)
    then Ok (Some (path_join H directory fileName))
    else if bool_decide (path_dirname H directory = directory) then Ok None
    else outcome_of (locateFile H fs n (path_dirname H directory) fileName s).
Proof.
  cbn [locateFile].
  rewrite (bind_outcome _ _ s (on_disk fs (path_join H directory fileName)));
    [|reads_only_tac|reflexivity].
  destruct (on_disk fs _); [reflexivity|].
  destruct (bool_decide _); reflexivity.
Qed.

(** [locateFile] returns the file in the nearest directory, from
    [directory] upwards, that has one. *)
Lemma locateFile_nearest {S} H fs fuel : forall directory fileName (s : S) location,
  outcome_of (locateFile H fs fuel directory fileName s) = Ok (Some location) ->
  exists k,
    location = path_join H (ancestor H k directory) fileName
    /\ on_disk fs location = true
    /\ forall j, (j < k)%nat ->
         on_disk fs (path_join H (ancestor H j directory) fileName) = false.
Proof.
  induction fuel as [|n IH]; intros directory fileName s location; [discriminate|].
  rewrite locateFile_step.
  destruct (on_disk fs (path_join H directory fileName)) eqn:Hd.
  - intros [= <-]. exists 0%nat. repeat split; [exact Hd|]. intros j Hj. lia.
  - destruct (bool_decide _); [discriminate|].
    intros Hrec. apply IH in Hrec as (k & Hloc & Hon & Hbelow).
    exists (Datatypes.S k). repeat split; [exact Hloc|exact Hon|].
    intros [|j] Hj; [exact Hd|]. apply Hbelow. lia.
Qed.

(** The walk ends when the root is within reach of the fuel. *)
Lemma locateFile_returns {S} H fs fuel : forall directory fileName (s : S) k,
  (k < fuel)%nat ->
  path_dirname H (ancestor H k directory) = ancestor H k directory ->
  exists r, outcome_of (locateFile H fs fuel directory fileName s) = Ok r.
Proof.
  induction fuel as [|n IH]; intros directory fileName s k Hk Hroot; [lia|].
  rewrite locateFile_step.
  destruct (on_disk fs _); [eexists; reflexivity|].
  destruct (bool_decide _) eqn:Hd; [eexists; reflexivity|].
  destruct k as [|k].
  - apply bool_decide_eq_false in Hd. contradiction.
  - apply (IH _ _ _ k); [lia|exact Hroot].
Qed.

Lemma readOptions_package_none {S} H fs fuel fsPath (s : S) :
  (outcome_of (locateFile H fs fuel fsPath (js "package.json") s) = Ok None ->
   outcome_of (readOptions_package H fs fuel fsPath s) = Ok None)
  /\ (forall packageFile content,
        outcome_of (locateFile H fs fuel fsPath (js "package.json") s)
        = Ok (Some packageFile) ->
        outcome_of (readJsonFile H fs packageFile None s) = Ok content ->
        content <> VNull -> content <> VUndef ->
        truthy (prop content (js "jslintConfig")) = false ->
        outcome_of (readOptions_package H fs fuel fsPath s) = Ok None).
Proof.
  split.
  - intros Hl. unfold readOptions_package.
    rewrite (bind_outcome _ _ s None); [reflexivity|reads_only_tac|exact Hl].
  - intros packageFile content Hl Hr Hn Hu Ht. unfold readOptions_package.
    rewrite (bind_outcome _ _ s (Some packageFile)); [|reads_only_tac|exact Hl].
    rewrite (bind_outcome _ _ s content); [|reads_only_tac|exact Hr].
    rewrite (bind_outcome _ _ s (prop content (js "jslintConfig")));
      [rewrite Ht; reflexivity|unfold get_prop; reads_only_tac|].
    unfold get_prop. destruct content; try reflexivity; contradiction.
Qed.

Lemma readOptions_near_unfold {S} H fs fuel fsPath (s : S) :
  outcome_of (readOptions_near H fs fuel fsPath s)
  = match outcome_of (readOptions_package H fs fuel fsPath s) with
    | Ok (Some c) => Ok (Some c)
    | Ok None => outcome_of (readOptions_conf H fs fuel fsPath s)
    | Throw e => Throw e
    | OutOfFuel => OutOfFuel
    | Unmodelled => Unmodelled
    end.
Proof.
  unfold readOptions_near, bind.
  assert (Hs : reads_only (@readOptions_package H fs S fuel fsPath))
    by (unfold readOptions_package, get_prop; reads_only_tac).
  specialize (Hs s). unfold outcome_of, state_of in *.
  destruct (readOptions_package H fs fuel fsPath s) as [[[[c|]|e| |] s'] t];
    cbn in Hs |- *; subst s'; try reflexivity.
  destruct (readOptions_conf H fs fuel fsPath s) as [[r s''] t']. reflexivity.
Qed.

Lemma readOptions_conf_unfold {S} H fs fuel fsPath (s : S) :
  (forall configFile,
     outcome_of (locateFile H fs fuel fsPath JSLINTRC s) = Ok (Some configFile) ->
     outcome_of (readOptions_conf H fs fuel fsPath s)
     = match outcome_of (readJSLintFile H fs fuel configFile None s) with
       | Ok c => Ok (Some c)
       | Throw e => Throw e
       | OutOfFuel => OutOfFuel
       | Unmodelled => Unmodelled
       end)
  /\ (outcome_of (locateFile H fs fuel fsPath JSLINTRC s) = Ok None ->
      outcome_of (readOptions_conf H fs fuel fsPath s) = Ok None).
Proof.
  split.
  - intros configFile Hl. unfold readOptions_conf.
    rewrite (bind_outcome _ _ s (Some configFile)); [|reads_only_tac|exact Hl].
    unfold bind, outcome_of.
    destruct (readJSLintFile H fs fuel configFile None s) as [[[c|e| |] s'] t];
      reflexivity.
  - intros Hl. unfold readOptions_conf.
    rewrite (bind_outcome _ _ s None); [reflexivity|reads_only_tac|exact Hl].
Qed.

Lemma reads_only_readOptions_near {S} H fs fuel fsPath :
  reads_only (@readOptions_near H fs S fuel fsPath).
Proof.
  unfold readOptions_near, readOptions_package, readOptions_conf, get_prop.
  reads_only_tac.
Qed.

Lemma readOptions_after_near H fs fuel fsPath this near :
  outcome_of ((if nonempty fsPath then readOptions_near H fs fuel fsPath else ret None)
                this) = Ok near ->
  outcome_of
    ((let* near :=
        (if nonempty fsPath then readOptions_near H fs fuel fsPath else ret None) in
      match near with
      | Some c => ret c
      | None => readOptions_home H fs fuel (jslintOptions this)
      end) this)
  = match near with
    | Some c => Ok c
    | None => outcome_of (readOptions_home H fs fuel (jslintOptions this) this)
    end.
Proof.
  intros Hn. rewrite (bind_outcome _ _ this near); [|..|exact Hn].
  - destruct near; reflexivity.
  - unfold readOptions_near, readOptions_package, readOptions_conf, get_prop.
    reads_only_tac.
Qed.

(** C5, as stated, fails at source (3): the nearest directory whose
    package.json has the property is /proj, but [readOptions] stops at the
    nearest package.json, /proj/sub/package.json, finds no property in it
    and goes on to the next sources; here it returns the inline options. *)
Lemma package_source_as_stated_counterexample :
  ~ package_source_as_stated (Posix.host None) nested_fs 8 (js "/proj/sub/a.js")
      (OptionsResolver_configure None (VObj []) OptionsResolver_new).
Proof.
  intros Hs.
  specialize (Hs eq_refl eq_refl (VObj [(js "devel", VBool true)]) eq_refl).
  vm_compute in Hs. discriminate Hs.
Qed.

Lemma locateFile_found {S} H fs fuel directory fileName (s : S) k :
  nearest_at H fs directory fileName k -> (k < fuel)%nat ->
  outcome_of (locateFile H fs fuel directory fileName s)
  = Ok (Some (path_join H (ancestor H k directory) fileName)).
Proof. intros Hn Hk. rewrite (locateFile_finds H fs fuel _ _ s k Hn Hk). reflexivity. Qed.

Lemma locateFile_not_found {S} H fs fuel directory fileName (s : S) k :
  none_up_to H fs directory fileName k -> (k < fuel)%nat ->
  outcome_of (locateFile H fs fuel directory fileName s) = Ok None.
Proof.
  intros Hn Hk. destruct (locateFile_misses H fs fuel _ _ s k Hn Hk) as (j & _ & ->).
  reflexivity.
Qed.

Lemma readOptions_package_yields {S} H fs fuel fsPath (s : S) k content :
  nearest_at H fs fsPath (js "package.json") k -> (k < fuel)%nat ->
  parsed H fs (path_join H (ancestor H k fsPath) (js "package.json")) = Some content ->
  content <> VNull -> content <> VUndef ->
  truthy (prop content (js "jslintConfig")) = true ->
  outcome_of (readOptions_package H fs fuel fsPath s)
  = Ok (Some (prop content (js "jslintConfig"))).
Proof.
  intros Hnear Hk Hp Hn Hu Ht. unfold readOptions_package.
  rewrite (bind_outcome _ _ s (Some (path_join H (ancestor H k fsPath) (js "package.json"))));
    [|reads_only_tac|apply locateFile_found; assumption].
  rewrite (bind_outcome _ _ s content);
    [|reads_only_tac|apply readJsonFile_outcome; exact Hp].
  rewrite (bind_outcome _ _ s (prop content (js "jslintConfig")));
    [rewrite Ht; reflexivity|unfold get_prop; reads_only_tac|].
  unfold get_prop. destruct content; try reflexivity; contradiction.
Qed.

Lemma readOptions_package_null {S} H fs fuel fsPath (s : S) k :
  nearest_at H fs fsPath (js "package.json") k -> (k < fuel)%nat ->
  parsed H fs (path_join H (ancestor H k fsPath) (js "package.json")) = Some VNull ->
  outcome_of (readOptions_package H fs fuel fsPath s) = Throw TypeError.
Proof.
  intros Hnear Hk Hp. unfold readOptions_package.
  rewrite (bind_outcome _ _ s (Some (path_join H (ancestor H k fsPath) (js "package.json"))));
    [|reads_only_tac|apply locateFile_found; assumption].
  rewrite (bind_outcome _ _ s VNull);
    [|reads_only_tac|apply readJsonFile_outcome; exact Hp].
  apply bind_outcome_throw. reflexivity.
Qed.

Lemma readOptions_package_silent {S} H fs fuel fsPath (s : S) :
  package_silent H fs fuel fsPath ->
  outcome_of (readOptions_package H fs fuel fsPath s) = Ok None.
Proof.
  intros [(k & Hnone & Hk)|(k & Hnear & Hk & Hc)].
  - apply (proj1 (readOptions_package_none H fs fuel fsPath s)).
    apply (locateFile_not_found H fs fuel _ _ s k); assumption.
  - pose proof (locateFile_found H fs fuel _ _ s k Hnear Hk) as Hloc.
    pose proof (readJsonFile_eq H fs
                  (path_join H (ancestor H k fsPath) (js "package.json")) None s) as Hr.
    destruct (parsed H fs (path_join H (ancestor H k fsPath) (js "package.json")))
      as [content|].
    + destruct Hc as (Hn & Hu & Ht).
      apply (proj2 (readOptions_package_none H fs fuel fsPath s) _ content Hloc);
        [rewrite Hr; reflexivity|assumption..].
    + apply (proj2 (readOptions_package_none H fs fuel fsPath s) _ (VObj []) Hloc);
        [rewrite Hr; reflexivity|discriminate|discriminate|reflexivity].
Qed.

(** C5, amended. [readOptions] takes the first of these sources that
    applies: (1) the configured path, if it exists, read by [readJsonFile]
    alone (no [extends]); (2) the [config] path of the inline options, if it
    exists, likewise; (3) for a non-empty file path, the nearest
    package.json from the path upwards to the root, if its content has a
    truthy [jslintConfig], whose value is returned as it is -- a nearest
    package.json without it, or one that cannot be loaded, ends the search
    among package.json files, and one whose content is [null] makes the
    resolution throw; (4) the nearest jslint.conf from the path upwards,
    read by [readJSLintFile] (with [extends]); (5) jslint.conf in the home
    directory, read by [readJSLintFile]; (6) the inline options
    themselves. The walks upwards return when the root is within the bound
    on the loop. *)
Theorem readOptions_priority H fs fuel fsPath this :
  (explicit_config fs this = true ->
   outcome_of (readOptions H fs fuel fsPath this)
   = outcome_of (readJsonFile H fs (default [] (configPath this)) None this))
  /\ (explicit_config fs this = false -> legacy_config fs this = true ->
      outcome_of (readOptions H fs fuel fsPath this)
      = outcome_of (readJsonFile H fs (string_of (legacy_path this)) None this))
  /\ (explicit_config fs this = false -> legacy_config fs this = false ->
      nonempty fsPath = true ->
      forall k,
        nearest_at H fs fsPath (js "package.json") k -> (k < fuel)%nat ->
        let packageFile := path_join H (ancestor H k fsPath) (js "package.json") in
        (forall content,
           parsed H fs packageFile = Some content ->
           content <> VNull -> content <> VUndef ->
           truthy (prop content (js "jslintConfig")) = true ->
           outcome_of (readOptions H fs fuel fsPath this)
           = Ok (prop content (js "jslintConfig")))
        /\ (parsed H fs packageFile = Some VNull ->
            outcome_of (readOptions H fs fuel fsPath this) = Throw TypeError))
  /\ (explicit_config fs this = false -> legacy_config fs this = false ->
      nonempty fsPath = true ->
      package_silent H fs fuel fsPath ->
      forall k,
        nearest_at H fs fsPath JSLINTRC k -> (k < fuel)%nat ->
        outcome_of (readOptions H fs fuel fsPath this)
        = outcome_of (readJSLintFile H fs fuel
                        (path_join H (ancestor H k fsPath) JSLINTRC) None this))
  /\ (explicit_config fs this = false -> legacy_config fs this = false ->
      nonempty fsPath = false
      \/ (package_silent H fs fuel fsPath
          /\ exists k, none_up_to H fs fsPath JSLINTRC k /\ (k < fuel)%nat) ->
      outcome_of (readOptions H fs fuel fsPath this)
      = if home_config H fs
        then outcome_of (readJSLintFile H fs fuel
                           (path_join H (default [] (user_home H)) JSLINTRC) None this)
        else Ok (jslintOptions this))
  /\ (forall fileName k,
        (k < fuel)%nat ->
        path_dirname H (ancestor H k fsPath) = ancestor H k fsPath ->
        exists r, outcome_of (locateFile H fs fuel fsPath fileName this) = Ok r).
Proof.
  pose proof (readOptions_unfold H fs fuel fsPath this) as Hu.
  split; [intros He; rewrite Hu, He; reflexivity|].
  split; [intros He Hl; rewrite Hu, He, Hl; reflexivity|].
  split.
  { intros He Hl Hp k Hnear Hk packageFile. rewrite Hu, He, Hl. split.
    - intros content Hc Hn Hud Ht.
      rewrite (readOptions_after_near _ _ _ _ _ (Some (prop content (js "jslintConfig"))));
        [reflexivity|].
      rewrite Hp, readOptions_near_unfold.
      rewrite (readOptions_package_yields H fs fuel fsPath this k content); try assumption.
      reflexivity.
    - intros Hnull. apply bind_outcome_throw. rewrite Hp, readOptions_near_unfold.
      rewrite (readOptions_package_null H fs fuel fsPath this k); try assumption.
      reflexivity. }
  split.
  { intros He Hl Hp Hpk k Hnear Hk. rewrite Hu, He, Hl.
    pose proof (locateFile_found H fs fuel fsPath JSLINTRC this k Hnear Hk) as Hloc.
    remember (path_join H (ancestor H k fsPath) JSLINTRC) as configFile eqn:Hcf.
    clear Hcf.
    pose proof (proj1 (readOptions_conf_unfold H fs fuel fsPath this) _ Hloc) as Hconf.
    pose proof (readOptions_package_silent H fs fuel fsPath this Hpk) as Hsil.
    unfold outcome_of in *. unfold bind. rewrite Hp.
    pose proof (readOptions_near_unfold H fs fuel fsPath this) as Hnr.
    unfold outcome_of in Hnr. rewrite Hsil, Hconf in Hnr.
    pose proof (reads_only_readOptions_near H fs fuel fsPath this) as Hs.
    unfold state_of in Hs.
    destruct (readOptions_near H fs fuel fsPath this) as [[o s'] t].
    cbn in Hnr, Hs. subst o s'.
    destruct (readJSLintFile H fs fuel configFile None this) as [[[c|e| |] s1] t1];
      reflexivity. }
  split.
  { intros He Hl Hcase. rewrite Hu, He, Hl.
    rewrite (readOptions_after_near _ _ _ _ _ None).
    - apply readOptions_home_unfold.
    - destruct Hcase as [Hp|[Hpk (k & Hnone & Hk)]]; [rewrite Hp; reflexivity|].
      destruct (nonempty fsPath); [|reflexivity].
      rewrite readOptions_near_unfold, (readOptions_package_silent _ _ _ _ _ Hpk).
      apply (proj2 (readOptions_conf_unfold H fs fuel fsPath this)).
      apply (locateFile_not_found H fs fuel _ _ this k); assumption. }
  intros fileName k. apply locateFile_returns.
Qed.

(** The six sources, each on a small file system. *)
Lemma readOptions_priority_witness :
  outcome_of (readOptions (Posix.host None) sources_fs 8 (js "/proj/src/a.js")
                (OptionsResolver_configure (Some (js "/etc/explicit.conf")) legacy_options
                   OptionsResolver_new))
  = Ok (VObj [(js "explicit", VBool true); (js "extends", VStr (js "x"))])
  /\ outcome_of (readOptions (Posix.host None) sources_fs 8 (js "/proj/src/a.js")
                   (OptionsResolver_configure None legacy_options OptionsResolver_new))
     = Ok (VObj [(js "legacy", VBool true)])
  /\ outcome_of (readOptions (Posix.host None) sources_fs 8 (js "/proj/src/a.js")
                   (OptionsResolver_configure None (VObj []) OptionsResolver_new))
     = Ok (VObj [(js "devel", VBool true)])
  /\ outcome_of (readOptions (Posix.host None) conf_fs 8 (js "/proj/src/a.js")
                   (OptionsResolver_configure None (VObj []) OptionsResolver_new))
     = Ok (VObj [(js "near", VBool true)])
  /\ outcome_of (readOptions (Posix.host (Some (js "/home/u"))) sources_fs 8 (js "/tmp/a.js")
                   (OptionsResolver_configure None (VObj []) OptionsResolver_new))
     = Ok (VObj [(js "home", VBool true)])
  /\ outcome_of (readOptions (Posix.host None) sources_fs 8 (js "/tmp/a.js")
                   (OptionsResolver_configure None (VObj []) OptionsResolver_new))
     = Ok (VObj [])
  /\ (exists r, outcome_of (locateFile (Posix.host None) sources_fs 8 (js "/tmp/a.js")
                              JSLINTRC
                              (OptionsResolver_configure None (VObj []) OptionsResolver_new))
                 = Ok r).
Proof.
  assert (Hproj : forall fs name,
             on_disk fs (js "/proj/src/a.js/" ++ name) = false ->
             on_disk fs (js "/proj/src/" ++ name) = false ->
             on_disk fs (js "/proj/" ++ name) = true ->
             nearest_at (Posix.host None) fs (js "/proj/src/a.js") name 2).
  { intros fs name H0 H1 H2. split; [exact H2|].
    intros [|[|j]] Hj; [split; [exact H0|discriminate]
                       |split; [exact H1|discriminate]|lia]. }
  assert (Htmp : forall home fs name,
             on_disk fs (js "/tmp/a.js/" ++ name) = false ->
             on_disk fs (js "/tmp/" ++ name) = false ->
             on_disk fs (js "/" ++ name) = false ->
             none_up_to (Posix.host home) fs (js "/tmp/a.js") name 2).
  { intros home fs name H0 H1 H2. split; [reflexivity|].
    intros [|[|[|j]]] Hj; [exact H0|exact H1|exact H2|lia]. }
  split.
  { destruct (readOptions_priority (Posix.host None) sources_fs 8%nat
                (js "/proj/src/a.js")
                (OptionsResolver_configure (Some (js "/etc/explicit.conf"))
                   legacy_options OptionsResolver_new)) as (H1 & _).
    rewrite (H1 eq_refl). reflexivity. }
  split.
  { destruct (readOptions_priority (Posix.host None) sources_fs 8%nat
                (js "/proj/src/a.js")
                (OptionsResolver_configure None legacy_options OptionsResolver_new))
      as (_ & H2 & _).
    rewrite (H2 eq_refl eq_refl). reflexivity. }
  split.
  { destruct (readOptions_priority (Posix.host None) sources_fs 8%nat
                (js "/proj/src/a.js")
                (OptionsResolver_configure None (VObj []) OptionsResolver_new))
      as (_ & _ & H3 & _).
    exact (proj1 (H3 eq_refl eq_refl eq_refl 2%nat
                    (Hproj sources_fs (js "package.json") eq_refl eq_refl eq_refl) ltac:(lia))
             (VObj [(js "jslintConfig", VObj [(js "devel", VBool true)])])
             eq_refl ltac:(discriminate) ltac:(discriminate) eq_refl). }
  split.
  { destruct (readOptions_priority (Posix.host None) conf_fs 8%nat
                (js "/proj/src/a.js")
                (OptionsResolver_configure None (VObj []) OptionsResolver_new))
      as (_ & _ & _ & H4 & _).
    assert (Hsilent : package_silent (Posix.host None) conf_fs 8 (js "/proj/src/a.js")).
    { right. exists 2%nat.
      split; [exact (Hproj conf_fs (js "package.json") eq_refl eq_refl eq_refl)|].
      split; [lia|]. repeat split; discriminate. }
    rewrite (H4 eq_refl eq_refl eq_refl Hsilent 2%nat
               (Hproj conf_fs JSLINTRC eq_refl eq_refl eq_refl) ltac:(lia)).
    reflexivity. }
  split.
  { destruct (readOptions_priority (Posix.host (Some (js "/home/u"))) sources_fs 8%nat
                (js "/tmp/a.js")
                (OptionsResolver_configure None (VObj []) OptionsResolver_new))
      as (_ & _ & _ & _ & H5 & _).
    rewrite H5; [reflexivity..|]. right. split.
    - left. exists 2%nat.
      split; [exact (Htmp _ sources_fs (js "package.json") eq_refl eq_refl eq_refl)|lia].
    - exists 2%nat.
      split; [exact (Htmp _ sources_fs JSLINTRC eq_refl eq_refl eq_refl)|lia]. }
  split.
  { destruct (readOptions_priority (Posix.host None) sources_fs 8%nat (js "/tmp/a.js")
                (OptionsResolver_configure None (VObj []) OptionsResolver_new))
      as (_ & _ & _ & _ & H6 & _).
    rewrite H6; [reflexivity..|]. right. split.
    - left. exists 2%nat.
      split; [exact (Htmp _ sources_fs (js "package.json") eq_refl eq_refl eq_refl)|lia].
    - exists 2%nat.
      split; [exact (Htmp _ sources_fs JSLINTRC eq_refl eq_refl eq_refl)|lia]. }
  destruct (readOptions_priority (Posix.host None) sources_fs 8%nat (js "/tmp/a.js")
              (OptionsResolver_configure None (VObj []) OptionsResolver_new))
    as (_ & _ & _ & _ & _ & H7).
  exact (H7 JSLINTRC 2%nat ltac:(lia) eq_refl).
Defined.

(** * Further properties *)

(** ** Diagnostics, paths and patterns *)

(** X1. Whatever line and character the engine reports, the diagnostic lies
    in the document: no coordinate of its range is negative; its code is the
    warning's and its source tag is jsLint. *)
Theorem makeDiagnostic_in_document (problem : JSLintError) :
  (0 <= pos_line (range_start (range (makeDiagnostic problem))))%Z
  /\ (0 <= pos_character (range_start (range (makeDiagnostic problem))))%Z
  /\ (0 <= pos_line (range_end (range (makeDiagnostic problem))))%Z
  /\ (0 <= pos_character (range_end (range (makeDiagnostic problem))))%Z
  /\ diag_code (makeDiagnostic problem) = code problem
  /\ source (makeDiagnostic problem) = js "jsLint".
Proof.
  destruct problem as [c i l ch r]. cbn -[js].
  destruct (Z.leb_spec l 0), (Z.leb_spec ch 0); repeat split; lia.
Qed.

(** X2. [pickTrueKeys] keeps exactly the patterns whose value is the boolean
    [true]: a pattern set to false, to a string or to a number is dropped,
    and missing settings give no pattern; [configure] installs these
    patterns. In which order they are listed is immaterial: [match] depends
    only on which patterns are in the list. *)
Theorem pickTrueKeys_exactly_true :
  (forall o k, In k (pickTrueKeys (Some o)) <-> In (k, VBool true) o)
  /\ pickTrueKeys None = []
  /\ (forall path exclude this,
        defaultExcludePatterns (FileMatcher_configure path exclude this)
        = Some (pickTrueKeys exclude))
  /\ (forall H patterns patterns' path root,
        (forall k, In k patterns <-> In k patterns') ->
        FileMatcher_match H (Some patterns) path root
        = FileMatcher_match H (Some patterns') path root).
Proof.
  split; [|split; [reflexivity|split; [reflexivity|]]].
  - intros o k. unfold pickTrueKeys. rewrite in_map_iff. split.
    + intros ([k' v] & Hk & Hin). cbn in Hk. subst k'.
      apply List.filter_In in Hin as [Hin Hv]. cbn in Hv.
      destruct v as [| |[|]| | | |]; try discriminate. exact Hin.
    + intros Hin. exists (k, VBool true). split; [reflexivity|].
      apply List.filter_In. split; [exact Hin|reflexivity].
  - intros H patterns patterns' path root Hsame. unfold FileMatcher_match.
    apply eq_true_iff_eq. rewrite !existsb_exists. split.
    + intros (k & Hin & Hm). exists k. split; [apply Hsame; exact Hin|exact Hm].
    + intros (k & Hin & Hm). exists k. split; [apply Hsame; exact Hin|exact Hm].
Qed.

Lemma pickTrueKeys_exactly_true_witness :
  pickTrueKeys (Some [(js "build/**", VBool true); (js "lib/**", VBool false);
                      (js "tmp/**", VStr (js "true")); (js "*.min.js", VBool true)])
  = [js "build/**"; js "*.min.js"]
  /\ In (js "*.min.js")
        (pickTrueKeys (Some [(js "lib/**", VBool false); (js "*.min.js", VBool true)]))
  /\ FileMatcher_match (Posix.host None) (Some [js "build/**"; js "*.min.js"])
       (js "/proj/a.min.js") (Some (js "/proj"))
     = FileMatcher_match (Posix.host None) (Some [js "*.min.js"; js "build/**"])
         (js "/proj/a.min.js") (Some (js "/proj")).
Proof.
  destruct pickTrueKeys_exactly_true as (Hin & _ & _ & Horder).
  split; [reflexivity|]. split.
  - apply Hin. right. left. reflexivity.
  - apply Horder. intros k. cbn [In]. tauto.
Defined.

Lemma drop_is_suffix {A} n (l : list A) : exists pre, l = pre ++ drop n l /\ pre = take n l.
Proof. exists (take n l). split; [symmetry; apply take_drop|reflexivity]. Qed.

Lemma is_prefix_take folder fsPath :
  is_prefix folder fsPath = true -> take (List.length folder) fsPath = folder.
Proof.
  revert fsPath. induction folder as [|c folder IH]; intros [|d fsPath]; cbn;
    try reflexivity; try discriminate.
  intros Hp. apply andb_true_iff in Hp as [Hc Hp]. apply N.eqb_eq in Hc. subst d.
  f_equal. apply IH. exact Hp.
Qed.

(** X3. [relativeTo] only ever cuts a prefix: the result is the path itself,
    or the path without the root, or the path without the root and the
    slash after it; without a root, or with an empty root, the path is
    returned as it is, and the root itself is made relative to the empty
    string. *)
Theorem relativeTo_cuts_root :
  (forall fsPath folder,
     relativeTo fsPath folder = fsPath
     \/ exists root, folder = Some root
          /\ (fsPath = root ++ relativeTo fsPath folder
              \/ fsPath = root ++ slash :: relativeTo fsPath folder))
  /\ (forall fsPath, relativeTo fsPath None = fsPath
                     /\ relativeTo fsPath (Some []) = fsPath)
  /\ (forall root, relativeTo root (Some root) = []).
Proof.
  split; [|split].
  - intros fsPath [root|]; [|left; reflexivity]. unfold relativeTo.
    destruct (nonempty root && is_prefix root fsPath) eqn:Hp; [|left; reflexivity].
    right. exists root. split; [reflexivity|].
    apply andb_true_iff in Hp as [_ Hp]. apply is_prefix_take in Hp.
    destruct ((List.length root <? List.length fsPath)%nat
              && (nth (List.length root) fsPath 0 =? slash)) eqn:Hcut.
    + right. apply andb_true_iff in Hcut as [Hlen Hs].
      apply Nat.ltb_lt in Hlen. apply N.eqb_eq in Hs.
      rewrite <- (take_drop (List.length root) fsPath) at 1. rewrite Hp. f_equal.
      rewrite <- (take_drop 1 (drop (List.length root) fsPath)).
      rewrite drop_drop. f_equal.
      destruct (drop (List.length root) fsPath) as [|d rest] eqn:Hd.
      * apply (f_equal (@List.length _)) in Hd. rewrite length_drop in Hd.
        simpl in Hd. lia.
      * cbn. f_equal. rewrite <- Hs.
        rewrite <- (take_drop (List.length root) fsPath) at 1.
        rewrite app_nth2 by (rewrite length_take; lia).
        rewrite length_take, Hd.
        replace (List.length root - List.length root `min` List.length fsPath)%nat
          with 0%nat by lia.
        reflexivity.
    + left. rewrite <- (take_drop (List.length root) fsPath) at 1. rewrite Hp.
      reflexivity.
  - intros fsPath. split; reflexivity.
  - intros [|c root]; [reflexivity|].
    pose proof (relativeTo_no_separator c root [] eq_refl) as Hr.
    rewrite app_nil_r in Hr. exact Hr.
Qed.

Lemma lastIndexOf_slash_none s :
  lastIndexOf_slash s = None <-> ~ In slash s.
Proof.
  induction s as [|c s IH]; cbn [lastIndexOf_slash In]; [tauto|].
  destruct (lastIndexOf_slash s) as [i|].
  - split; [discriminate|]. intros Hn. exfalso.
    assert (Hs : ~ In slash s) by tauto. apply IH in Hs. discriminate.
  - destruct (N.eqb_spec c slash) as [->|Hc].
    + split; [discriminate|]. intros Hn. exfalso. apply Hn. left. reflexivity.
    + split; [|reflexivity]. intros _ [E|Hin]; [congruence|].
      apply (proj1 IH); [reflexivity|exact Hin].
Qed.

Lemma lastIndexOf_slash_app dir name :
  ~ In slash name ->
  lastIndexOf_slash (dir ++ slash :: name) = Some (List.length dir).
Proof.
  intros Hn. induction dir as [|c dir IH]; cbn [app lastIndexOf_slash List.length].
  - apply lastIndexOf_slash_none in Hn. rewrite Hn. reflexivity.
  - rewrite IH. reflexivity.
Qed.

(** X4. [folderOf] and [lastSegment] split a path at its last slash: for a
    name without a slash, the folder of dir/name is dir and its last segment
    is name; whenever the path has a slash the two parts and a slash give
    the path back, and the last segment never contains a slash; a path
    without a slash is its own folder and its own last segment. *)
Theorem folderOf_lastSegment :
  (forall dir name,
     ~ In slash name ->
     folderOf (dir ++ slash :: name) = dir
     /\ lastSegment (dir ++ slash :: name) = name)
  /\ (forall fsPath,
        In slash fsPath -> fsPath = folderOf fsPath ++ slash :: lastSegment fsPath)
  /\ (forall fsPath, ~ In slash (lastSegment fsPath))
  /\ (forall fsPath,
        ~ In slash fsPath -> folderOf fsPath = fsPath /\ lastSegment fsPath = fsPath).
Proof.
  assert (Hsplit : forall fsPath i,
             lastIndexOf_slash fsPath = Some i ->
             exists dir name, fsPath = dir ++ slash :: name /\ ~ In slash name
                              /\ i = List.length dir).
  { induction fsPath as [|c s IH]; intros i; cbn [lastIndexOf_slash]; [discriminate|].
    destruct (lastIndexOf_slash s) as [j|] eqn:Hj.
    - intros [= <-]. destruct (IH j eq_refl) as (dir & name & -> & Hn & ->).
      exists (c :: dir), name. repeat split; assumption.
    - destruct (N.eqb_spec c slash) as [->|Hc]; [|discriminate].
      intros [= <-]. exists [], s. repeat split.
      apply lastIndexOf_slash_none. exact Hj. }
  assert (Hparts : forall dir name,
             ~ In slash name ->
             folderOf (dir ++ slash :: name) = dir
             /\ lastSegment (dir ++ slash :: name) = name).
  { intros dir name Hn. unfold folderOf, lastSegment.
    rewrite (lastIndexOf_slash_app _ _ Hn). split.
    - apply take_app_length.
    - replace (dir ++ slash :: name) with ((dir ++ [slash]) ++ name)
        by (rewrite <- app_assoc; reflexivity).
      replace (S (List.length dir)) with (List.length (dir ++ [slash]))
        by (rewrite length_app; simpl; lia).
      apply drop_app_length. }
  split; [exact Hparts|]. split; [|split].
  - intros fsPath Hin.
    destruct (lastIndexOf_slash fsPath) as [i|] eqn:Hi.
    + destruct (Hsplit _ _ Hi) as (dir & name & -> & Hn & _).
      destruct (Hparts dir name Hn) as [-> ->]. reflexivity.
    + apply lastIndexOf_slash_none in Hi. contradiction.
  - intros fsPath.
    destruct (lastIndexOf_slash fsPath) as [i|] eqn:Hi.
    + destruct (Hsplit _ _ Hi) as (dir & name & -> & Hn & _).
      rewrite (proj2 (Hparts dir name Hn)). exact Hn.
    + unfold lastSegment. rewrite Hi. apply lastIndexOf_slash_none. exact Hi.
  - intros fsPath Hn. apply lastIndexOf_slash_none in Hn.
    unfold folderOf, lastSegment. rewrite Hn. split; reflexivity.
Qed.

Lemma folderOf_lastSegment_witness :
  folderOf (js "/proj/src" ++ slash :: js "jslint.conf") = js "/proj/src"
  /\ lastSegment (js "/proj/src" ++ slash :: js "jslint.conf") = js "jslint.conf"
  /\ js "/proj/.jslintignore"
     = folderOf (js "/proj/.jslintignore") ++ slash :: lastSegment (js "/proj/.jslintignore")
  /\ folderOf (js "jslint.conf") = js "jslint.conf".
Proof.
  destruct folderOf_lastSegment as (Hd & Hj & _ & Hn).
  assert (Hname : ~ In slash (js "jslint.conf")).
  { intros Hin. repeat (destruct Hin as [Hin|Hin]; [discriminate Hin|]). exact Hin. }
  split; [exact (proj1 (Hd (js "/proj/src") (js "jslint.conf") Hname))|].
  split; [exact (proj2 (Hd (js "/proj/src") (js "jslint.conf") Hname))|].
  split; [apply Hj; left; reflexivity|].
  exact (proj1 (Hn (js "jslint.conf") Hname)).
Defined.

(** ** Merging configurations *)

(** X5. [extends] loses no property: when the base of a file resolves to
    an object, a name other than [extends] and [__proto__] is defined in
    the result iff the child or the base defines it, and a property the
    child does not mention keeps the value the base has for it. *)
Theorem readJSLintFile_keeps_properties {S} H fs n m file extendedFrom (s : S) c e b :
  parsed H fs file = Some (VObj c) ->
  obj_get (js "extends") c = Some (VStr e) -> e <> [] ->
  fs (path_resolve H (path_dirname H file) e) <> None ->
  outcome_of (readJSLintFile H fs n (path_resolve H (path_dirname H file) e)
                (Some file) s) = Ok (VObj b) ->
  (n <= m)%nat ->
  exists r,
    outcome_of (readJSLintFile H fs (Datatypes.S m) file extendedFrom s) = Ok (VObj r)
    /\ forall k,
         k <> js "extends" -> k <> PROTO ->
         (is_Some (obj_get k r) <-> is_Some (obj_get k c) \/ is_Some (obj_get k b))
         /\ (obj_get k c = None -> obj_get k r = obj_get k b).
Proof.
  intros Hp He Hne Hex Hb Hle.
  exists (obj_delete (js "extends") (baseMerge c b)). split.
  - rewrite (readJSLintFile_extends_step H fs m _ _ _ _ _
               (readJsonFile_outcome _ _ _ _ _ _ Hp) He Hne). cbv zeta.
    destruct (fs (path_resolve H (path_dirname H file) e)) as [nd|]; [|contradiction].
    rewrite (readJSLintFile_fuel H fs n m); [|rewrite Hb; discriminate|exact Hle].
    unfold outcome_of in Hb |- *.
    destruct (readJSLintFile H fs n (path_resolve H (path_dirname H file) e)
                (Some file) s) as [[o s'] t1].
    cbn in Hb. subst o. reflexivity.
  - intros k Hk Hproto. rewrite obj_get_delete_ne by exact Hk. split.
    + apply baseMerge_defined. exact Hproto.
    + apply baseMerge_get_absent. exact Hproto.
Qed.

Lemma readJSLintFile_keeps_properties_witness :
  exists r,
    outcome_of (readJSLintFile (Posix.host None) extends_fs 2 (js "/proj/jslint.conf")
                  None tt) = Ok (VObj r)
    /\ obj_get (js "b") r = Some (VNum 1).
Proof.
  destruct (readJSLintFile_keeps_properties (Posix.host None) extends_fs 1%nat 1%nat
              (js "/proj/jslint.conf") None tt
              [(js "a", VArr [VNum 2]); (js "extends", VStr (js "parent"))]
              (js "parent") [(js "a", VArr [VNum 1]); (js "b", VNum 1)]
              eq_refl eq_refl ltac:(discriminate) ltac:(discriminate) eq_refl
              ltac:(lia)) as (r & Hr & Hk).
  exists r. split; [exact Hr|].
  rewrite (proj2 (Hk (js "b") ltac:(discriminate) ltac:(discriminate)) eq_refl).
  reflexivity.
Defined.

(** X6. A property that is an array in the base is never replaced by the
    child: in the merged object it is an array that starts with the base's
    elements, followed by the child's elements, or by the child's value
    itself when that is not an array. So a scalar of the child does not win
    over an array of the base. (The name [__proto__] apart, under which
    lodash sees no value of the base.) *)
Theorem baseMerge_base_array content base k l :
  NoDup (map fst content) ->
  k <> PROTO ->
  obj_get k base = Some (VArr l) ->
  (forall v, obj_get k content = Some v ->
     obj_get k (baseMerge content base) = Some (VArr (array_concat l v)))
  /\ (forall l', obj_get k content = Some (VArr l') ->
        obj_get k (baseMerge content base) = Some (VArr (l ++ l')))
  /\ (forall v, obj_get k content = Some v -> scalar v ->
        obj_get k (baseMerge content base) = Some (VArr (l ++ [v])))
  /\ (obj_get k content = None ->
      obj_get k (baseMerge content base) = Some (VArr l)).
Proof.
  intros Hnd Hp Hb.
  assert (Hv : forall v, obj_get k content = Some v ->
             obj_get k (baseMerge content base) = Some (VArr (array_concat l v))).
  { intros v Hc. rewrite (baseMerge_get _ _ _ Hnd Hp), Hc, Hb.
    destruct v; reflexivity. }
  split; [exact Hv|]. split; [|split].
  - intros l' Hc. rewrite (Hv _ Hc). reflexivity.
  - intros v Hc Hs. rewrite (Hv _ Hc). destruct v; try contradiction; reflexivity.
  - intros Hc. rewrite (baseMerge_get _ _ _ Hnd Hp), Hc. exact Hb.
Qed.

Lemma baseMerge_base_array_witness :
  obj_get (js "a")
    (baseMerge [(js "a", VStr (js "x"))] [(js "a", VArr [VNum 1]); (js "b", VNum 1)])
  = Some (VArr [VNum 1; VStr (js "x")]).
Proof.
  assert (Hnd : NoDup (map fst [(js "a", VStr (js "x"))]))
    by (apply (bool_decide_unpack _); vm_compute; exact I).
  exact (proj1 (proj2 (proj2 (baseMerge_base_array [(js "a", VStr (js "x"))]
                   [(js "a", VArr [VNum 1]); (js "b", VNum 1)] (js "a") [VNum 1]
                   Hnd ltac:(discriminate) eq_refl)))
           (VStr (js "x")) eq_refl I).
Defined.

Lemma obj_get_app_absent k (a b : obj) :
  obj_get k a = None -> obj_get k (a ++ b) = obj_get k b.
Proof.
  induction a as [|[k0 v0] a IH]; [reflexivity|]. cbn [app obj_get].
  destruct (bool_decide (k0 = k)); [discriminate|exact IH].
Qed.

Lemma obj_set_fresh k v (o : obj) : obj_get k o = None -> obj_set k v o = o ++ [(k, v)].
Proof.
  induction o as [|[k0 v0] o IH]; [reflexivity|]. cbn [obj_get obj_set app].
  destruct (bool_decide (k0 = k)); [discriminate|]. intros Hk. rewrite (IH Hk).
  reflexivity.
Qed.

Lemma unique_keys_obj o :
  unique_keys (VObj o) <-> NoDup (map fst o) /\ all_unique_keys o.
Proof.
  cbn [unique_keys]. apply and_iff_compat_l.
  induction o as [|[k v] o IH]; [reflexivity|]. cbn [all_unique_keys].
  rewrite IH. reflexivity.
Qed.

Lemma ordinary_names_obj o : ordinary_names (VObj o) <-> all_ordinary_names o.
Proof.
  cbn [ordinary_names].
  induction o as [|[k v] o IH]; [reflexivity|]. cbn [all_ordinary_names].
  rewrite IH. reflexivity.
Qed.

(** Merging into nothing copies the value. *)
Lemma merge_value_fresh : forall v,
  unique_keys v -> ordinary_names v -> merge_value None v = v.
Proof.
  fix IH 1. intros [| |b|z|s|l|o] Hu Hp; try reflexivity.
  - change (merge_value None (VArr l)) with (VArr (map (merge_value None) l)). f_equal.
    cbn [unique_keys ordinary_names] in Hu, Hp.
    induction l as [|w l IHl]; [reflexivity|].
    destruct Hu as [Hw Hu]. destruct Hp as [Hpw Hp].
    cbn [map]. f_equal; [exact (IH w Hw Hpw)|exact (IHl Hu Hp)].
  - apply unique_keys_obj in Hu as [Hnd Hall]. apply ordinary_names_obj in Hp.
    change (merge_value None (VObj o)) with (VObj (baseMerge o [])). f_equal.
    enough (Hgen : forall dst : obj,
               (forall k, In k (map fst o) -> obj_get k dst = None) ->
               baseMerge o dst = dst ++ o) by (apply (Hgen []); reflexivity).
    revert Hnd Hall Hp.
    induction o as [|[k v] o IHo]; intros Hnd Hall Hp dst Hfresh.
    + cbn. rewrite app_nil_r. reflexivity.
    + cbn [baseMerge]. cbn [map fst] in Hnd. apply NoDup_cons in Hnd as [Hk Hnd].
      destruct Hall as [Hv Hall]. destruct Hp as (Hkp & Hvp & Hp).
      rewrite (bool_decide_eq_false_2 (k = PROTO)) by exact Hkp. cbn [andb].
      unfold safeGet. rewrite (bool_decide_eq_false_2 (k = PROTO)) by exact Hkp.
      rewrite (Hfresh k) by (left; reflexivity).
      rewrite (IH v Hv Hvp), obj_set_fresh by (apply Hfresh; left; reflexivity).
      rewrite IHo; [rewrite <- app_assoc; reflexivity|exact Hnd|exact Hall|exact Hp|].
      intros k' Hin. rewrite obj_get_app_absent by (apply Hfresh; right; exact Hin).
      cbn [obj_get]. rewrite bool_decide_eq_false_2; [reflexivity|].
      intros ->. apply Hk. apply list_elem_of_In. exact Hin.
Qed.

(** X7. Merging a child into an empty base gives the child back: when the
    base file is empty or cannot be parsed ([readJsonFile] then returns the
    empty object), the result of [extends] is the child without its
    [extends] key. This is so for a child as [JSON.parse] returns it, with
    distinct names in every object, none of them [__proto__]. *)
Theorem baseMerge_empty_base content :
  unique_keys (VObj content) ->
  ordinary_names (VObj content) ->
  baseMerge content [] = content
  /\ obj_delete (js "extends") (baseMerge content []) = obj_delete (js "extends") content.
Proof.
  intros Hu Hp. pose proof (merge_value_fresh (VObj content) Hu Hp) as Hm.
  change (merge_value None (VObj content)) with (VObj (baseMerge content [])) in Hm.
  injection Hm as Hm. rewrite Hm. split; reflexivity.
Qed.

Lemma baseMerge_empty_base_witness :
  baseMerge [(js "a", VArr [VNum 2]); (js "o", VObj [(js "x", VNull)])] []
  = [(js "a", VArr [VNum 2]); (js "o", VObj [(js "x", VNull)])].
Proof.
  apply baseMerge_empty_base.
  - cbn -[js]. repeat split; apply (bool_decide_unpack _); vm_compute; exact I.
  - cbn -[js PROTO]. repeat split; discriminate.
Defined.

(** ** Comment stripping, further *)

(** [stripComments] follows the matches of the regular expression from
    left to right. *)
Lemma stripComments_ind (P : jsstring -> jsstring -> Prop) :
  P [] [] ->
  (forall c s, regexp_exec (c :: s) = None ->
     P s (stripComments s) -> P (c :: s) (c :: stripComments s)) ->
  (forall s g m r, regexp_exec s = Some (g, m, r) ->
     P r (stripComments r) -> P (m ++ r) (replacer g m ++ stripComments r)) ->
  forall s, P s (stripComments s).
Proof.
  intros Hnil Hcopy Hmatch s.
  remember (List.length s) as n eqn:Hn. revert s Hn.
  induction n as [n IH] using lt_wf_ind. intros s Hn.
  destruct s as [|c s]; [exact Hnil|].
  destruct (regexp_exec (c :: s)) as [[[g m] r]|] eqn:E.
  - rewrite (stripComments_match _ _ _ _ E).
    destruct (regexp_exec_split _ _ _ _ E) as [Hs Hm]. rewrite Hs.
    apply (Hmatch (c :: s)); [exact E|].
    apply (IH (List.length r)); [|reflexivity].
    subst n. rewrite Hs, length_app. destruct m; [contradiction|]. simpl. lia.
  - rewrite (stripComments_copy _ _ E). apply Hcopy; [exact E|].
    apply (IH (List.length s)); [subst n; simpl; lia|reflexivity].
Qed.

Lemma replacer_length g m : (List.length (replacer g m) <= List.length m)%nat.
Proof.
  destruct g; cbn [replacer]; try lia; [simpl; lia|].
  destruct ((2 <? List.length m)%nat && (nth (List.length m - 1) m 0 =? lf)) eqn:E;
    [|simpl; lia].
  apply andb_true_iff in E as [E _]. apply Nat.ltb_lt in E.
  destruct (nth (List.length m - 2) m 0 =? cr); simpl; lia.
Qed.

(** X8. Stripping never makes a text longer. *)
Theorem stripComments_never_longer content :
  (List.length (stripComments content) <= List.length content)%nat.
Proof.
  apply (stripComments_ind (fun s out => (List.length out <= List.length s)%nat)).
  - reflexivity.
  - intros c s _ IH. simpl. lia.
  - intros s g m r _ IH. rewrite !length_app. pose proof (replacer_length g m). lia.
Qed.

Lemma regexp_exec_quoted s g m r :
  regexp_exec s = Some (g, m, r) -> ~ In slash s -> replacer g m = m.
Proof.
  destruct s as [|c s]; [discriminate|]. cbn [regexp_exec]. intros E Hn.
  destruct (c =? dquote).
  { destruct (scan_string dquote s) as [[m' r']|]; [|discriminate].
    injection E as <- <- <-. reflexivity. }
  destruct (c =? squote).
  { destruct (scan_string squote s) as [[m' r']|]; [|discriminate].
    injection E as <- <- <-. reflexivity. }
  destruct (N.eqb_spec c slash) as [->|_]; [|discriminate].
  exfalso. apply Hn. left. reflexivity.
Qed.

(** X9. A text without a slash has no comment: [stripComments] returns it
    as it is, quotes balanced or not. *)
Theorem stripComments_without_slash content :
  ~ In slash content -> stripComments content = content.
Proof.
  apply (stripComments_ind (fun s out => ~ In slash s -> out = s)).
  - reflexivity.
  - intros c s _ IH Hn. f_equal. apply IH. intros Hin. apply Hn. right. exact Hin.
  - intros s g m r E IH Hn.
    destruct (regexp_exec_split _ _ _ _ E) as [Hs _].
    rewrite (regexp_exec_quoted _ _ _ _ E) by (rewrite Hs; exact Hn).
    f_equal. apply IH. intros Hin. apply Hn. apply in_or_app. right. exact Hin.
Qed.

Lemma stripComments_without_slash_witness :
  stripComments (js "{`a`: 'its', `b` : `unbalanced}") = js "{`a`: 'its', `b` : `unbalanced}".
Proof.
  apply stripComments_without_slash.
  intros Hin. repeat (destruct Hin as [Hin|Hin]; [discriminate Hin|]). exact Hin.
Defined.

Lemma scan_line_shape s : forall m r,
  scan_line s = Some (m, r) ->
  exists b, no_line_terminator b
            /\ (m = b ++ [lf] \/ m = b ++ [cr; lf] \/ (m = b /\ r = [])).
Proof.
  induction s as [|c s IH]; intros m r; cbn [scan_line].
  - intros [= <- <-]. exists []. split; [constructor|]. right. right. split; reflexivity.
  - destruct (c =? lf) eqn:Hlf.
    { intros [= <- <-]. exists []. split; [constructor|]. left. reflexivity. }
    destruct ((c =? cr) && starts_with lf s) eqn:Hcrlf.
    { intros [= <- <-]. exists []. split; [constructor|]. right. left. reflexivity. }
    destruct (is_line_terminator c) eqn:Hc; [discriminate|].
    destruct (scan_line s) as [[m' r']|] eqn:E; [|discriminate].
    intros [= <- <-]. destruct (IH _ _ eq_refl) as (b & Hb & Hm).
    exists (c :: b). split; [constructor; assumption|].
    destruct Hm as [->|[->|[-> ->]]]; [left|right; left|right; right; split]; reflexivity.
Qed.

Lemma replacer_line_feeds g m r s :
  regexp_exec s = Some (g, m, r) ->
  (line_feeds (replacer g m) <= line_feeds m)%nat
  /\ (g <> BlockComment -> line_feeds (replacer g m) = line_feeds m).
Proof.
  destruct s as [|c s]; [discriminate|]. cbn [regexp_exec].
  destruct (c =? dquote).
  { destruct (scan_string dquote s) as [[m' r']|]; [|discriminate].
    intros [= <- <- <-]. split; reflexivity. }
  destruct (c =? squote).
  { destruct (scan_string squote s) as [[m' r']|]; [|discriminate].
    intros [= <- <- <-]. split; reflexivity. }
  destruct (N.eqb_spec c slash) as [->|_]; [|discriminate].
  destruct s as [|d s]; [discriminate|].
  destruct (N.eqb_spec d star) as [->|_].
  { destruct (scan_block s) as [[m' r']|]; [|discriminate].
    intros [= <- <- <-]. split; [cbn [replacer]; unfold line_feeds; simpl; lia|].
    intros Hg. contradiction. }
  destruct (N.eqb_spec d slash) as [->|_]; [|discriminate].
  destruct (scan_line s) as [[m' r']|] eqn:E; [|discriminate].
  intros [= <- <- <-]. destruct (scan_line_shape _ _ _ E) as (b & Hb & Hm).
  assert (Heq : line_feeds (replacer LineComment (slash :: slash :: m'))
                = line_feeds (slash :: slash :: m')).
  { destruct Hm as [->|[->|[-> _]]].
    - rewrite replacer_line_lf by exact Hb.
      change (slash :: slash :: b ++ [lf]) with ([slash; slash] ++ b ++ [lf]).
      rewrite !line_feeds_app, (line_feeds_none b) by exact Hb. reflexivity.
    - rewrite replacer_line_crlf.
      change (slash :: slash :: b ++ [cr; lf]) with ([slash; slash] ++ b ++ [cr; lf]).
      rewrite !line_feeds_app, (line_feeds_none b) by exact Hb. reflexivity.
    - rewrite replacer_line_end by exact Hb.
      change (slash :: slash :: b) with ([slash; slash] ++ b).
      rewrite line_feeds_app, (line_feeds_none b) by exact Hb. reflexivity. }
  split; [rewrite Heq; lia|intros _; exact Heq].
Qed.

Lemma has_block_open_app m r :
  has_block_open (m ++ r) = false -> has_block_open r = false.
Proof.
  induction m as [|c m IH]; [tauto|]. cbn [app has_block_open].
  intros Hb. apply orb_false_iff in Hb as [_ Hb]. apply IH. exact Hb.
Qed.

Lemma regexp_exec_block s m r :
  regexp_exec s = Some (BlockComment, m, r) -> has_block_open s = true.
Proof.
  destruct s as [|c s]; [discriminate|]. cbn [regexp_exec has_block_open].
  destruct (c =? dquote).
  { destruct (scan_string dquote s) as [[m' r']|]; discriminate. }
  destruct (c =? squote).
  { destruct (scan_string squote s) as [[m' r']|]; discriminate. }
  destruct (c =? slash); [|discriminate]. destruct s as [|d s]; [discriminate|].
  cbn [starts_with]. destruct (d =? star); [reflexivity|].
  destruct (d =? slash); [|discriminate].
  destruct (scan_line s) as [[m' r']|]; discriminate.
Qed.

(** X10. Stripping never adds a line, and a text in which no slash is
    followed by a star keeps every line feed: what follows a line comment
    stays on its line, so positions in a parse error still point into the
    file. Only block comments can remove lines. *)
Theorem stripComments_line_feeds content :
  (line_feeds (stripComments content) <= line_feeds content)%nat
  /\ (has_block_open content = false ->
      line_feeds (stripComments content) = line_feeds content).
Proof.
  apply (stripComments_ind
           (fun s out => (line_feeds out <= line_feeds s)%nat
                         /\ (has_block_open s = false -> line_feeds out = line_feeds s))).
  - split; reflexivity.
  - intros c s _ [IH1 IH2].
    change (c :: stripComments s) with ([c] ++ stripComments s).
    change (c :: s) with ([c] ++ s). rewrite !line_feeds_app. split; [lia|].
    intros Hb. cbn [app has_block_open] in Hb. apply orb_false_iff in Hb as [_ Hb].
    rewrite (IH2 Hb). reflexivity.
  - intros s g m r E [IH1 IH2]. rewrite !line_feeds_app.
    destruct (replacer_line_feeds _ _ _ _ E) as [Hle Heq]. split; [lia|].
    intros Hb. rewrite (IH2 (has_block_open_app _ _ Hb)). f_equal. apply Heq.
    intros ->. destruct (regexp_exec_split _ _ _ _ E) as [Hs _].
    apply regexp_exec_block in E. rewrite Hs in E. congruence.
Qed.

Lemma stripComments_line_feeds_witness :
  line_feeds (stripComments (js "{ // first" ++ [cr; lf] ++ js "`a`: 1 // second" ++ [lf] ++ js "}"))
  = 2%nat.
Proof.
  rewrite (proj2 (stripComments_line_feeds _)); reflexivity.
Defined.

(** ** Looking for files *)

(** X11. [locateFile] walks from the directory upwards and does nothing but
    ask whether the file exists, one directory after the other: when it
    returns, it has probed the first k+1 directories in order, none of the
    first k had the file or was the root, and it returns the file of the
    last one if that has it, and nothing if that is the root without the
    file. It returns once the root is within as many steps as the bound on
    the loop. *)
Theorem locateFile_walk {S} H fs fuel : forall directory fileName (s : S),
  (forall r,
     outcome_of (locateFile H fs fuel directory fileName s) = Ok r ->
     exists k,
       (k < fuel)%nat
       /\ locateFile H fs fuel directory fileName s
          = (Ok r, s, probes H (Datatypes.S k) directory fileName)
       /\ (forall j, (j < k)%nat ->
             on_disk fs (path_join H (ancestor H j directory) fileName) = false
             /\ path_dirname H (ancestor H j directory) <> ancestor H j directory)
       /\ match r with
          | Some location =>
              location = path_join H (ancestor H k directory) fileName
              /\ on_disk fs location = true
          | None =>
              on_disk fs (path_join H (ancestor H k directory) fileName) = false
              /\ path_dirname H (ancestor H k directory) = ancestor H k directory
          end)
  /\ (forall k,
        (k < fuel)%nat ->
        path_dirname H (ancestor H k directory) = ancestor H k directory ->
        exists r, outcome_of (locateFile H fs fuel directory fileName s) = Ok r).
Proof.
  induction fuel as [|n IH]; intros directory fileName s.
  { split; [intros r; discriminate|intros k Hk; lia]. }
  split.
  - intros r. rewrite locateFile_unfold.
    destruct (on_disk fs (path_join H directory fileName)) eqn:Hd.
    { intros [= <-]. exists 0%nat. split; [lia|]. split; [reflexivity|].
      split; [intros j Hj; lia|]. split; [reflexivity|exact Hd]. }
    destruct (bool_decide (path_dirname H directory = directory)) eqn:Hroot.
    { intros [= <-]. exists 0%nat. split; [lia|]. split; [reflexivity|].
      split; [intros j Hj; lia|]. split; [exact Hd|].
      apply bool_decide_eq_true in Hroot. exact Hroot. }
    apply bool_decide_eq_false in Hroot.
    destruct (IH (path_dirname H directory) fileName s) as [IHr _].
    destruct (locateFile H fs n (path_dirname H directory) fileName s)
      as [[o s'] t] eqn:E.
    intros Ho. unfold outcome_of in Ho. cbn in Ho. subst o.
    destruct (IHr r eq_refl) as (k & Hk & Heq & Hbelow & Hr).
    injection Heq as -> ->.
    exists (Datatypes.S k). split; [lia|]. split; [reflexivity|]. split.
    + intros [|j] Hj; [split; assumption|]. apply Hbelow. lia.
    + exact Hr.
  - intros k Hk Hroot. rewrite locateFile_unfold.
    destruct (on_disk fs _); [eexists; reflexivity|].
    destruct (bool_decide _) eqn:Hd; [eexists; reflexivity|].
    destruct k as [|k]; [apply bool_decide_eq_false in Hd; contradiction|].
    destruct (IH (path_dirname H directory) fileName s) as [_ IHt].
    destruct (IHt k ltac:(lia) Hroot) as [r Hr]. exists r.
    unfold outcome_of in *.
    destruct (locateFile H fs n (path_dirname H directory) fileName s) as [[o s'] t].
    exact Hr.
Qed.

Lemma locateFile_walk_witness :
  exists k,
    (k < 8)%nat
    /\ locateFile (Posix.host None) conf_fs 8 (js "/proj/src/a.js") JSLINTRC tt
       = (Ok (Some (js "/proj/jslint.conf")), tt,
          probes (Posix.host None) (S k) (js "/proj/src/a.js") JSLINTRC).
Proof.
  destruct (proj1 (locateFile_walk (Posix.host None) conf_fs 8%nat
                     (js "/proj/src/a.js") JSLINTRC tt)
              (Some (js "/proj/jslint.conf")) eq_refl) as (k & Hk & Heq & _).
  exists k. split; [exact Hk|exact Heq].
Defined.

(** ** Reading configuration files *)

(** X12. [readJsonFile] never fails and never changes the resolver: it reads
    the file once; when the file is a regular file whose stripped text
    parses, it returns the parsed value and shows nothing; in every other
    case (no file, a directory, a syntax error) it returns the empty object
    after exactly one message, which names the file and, when there is one,
    the file that extends it. *)
Theorem readJsonFile_recovers {S} H fs file extendedFrom (s : S) :
  state_of (readJsonFile H fs file extendedFrom s) = s
  /\ (forall v, parsed H fs file = Some v ->
        readJsonFile H fs file extendedFrom s = (Ok v, s, [EvRead file]))
  /\ (parsed H fs file = None ->
      readJsonFile H fs file extendedFrom s
      = (Ok (VObj []), s, [EvRead file; load_error file extendedFrom]))
  /\ (parsed H fs file = None <->
      fs file = None \/ fs file = Some Directory
      \/ exists text, fs file = Some (File text)
                      /\ JSON_parse H (stripComments text) = None).
Proof.
  split; [apply reads_only_readJsonFile|].
  split; [intros v Hp; rewrite readJsonFile_eq, Hp; reflexivity|].
  split; [intros Hp; rewrite readJsonFile_eq, Hp; reflexivity|].
  unfold parsed. destruct (fs file) as [[text|]|].
  - split; [intros Hp; right; right; exists text; split; [reflexivity|exact Hp]|].
    intros [?|[?|(t & [= <-] & Hp)]]; try discriminate. exact Hp.
  - split; [intros _; right; left; reflexivity|reflexivity].
  - split; [intros _; left; reflexivity|reflexivity].
Qed.

Lemma readJsonFile_recovers_witness :
  readJsonFile (Posix.host None)
    (Posix.files [(js "/proj/jslint.conf", js "{`a`: 1,}")])
    (js "/proj/jslint.conf") (Some (js "/proj/sub/jslint.conf")) tt
  = (Ok (VObj []), tt,
     [EvRead (js "/proj/jslint.conf");
      EvShowError (Text (js "Can't load JSLint configuration from file /proj/jslint.conf extended from /proj/sub/jslint.conf. Please check the file for syntax errors."))]).
Proof.
  rewrite (proj1 (proj2 (proj2 (readJsonFile_recovers (Posix.host None)
                   (Posix.files [(js "/proj/jslint.conf", js "{`a`: 1,}")])
                   (js "/proj/jslint.conf") (Some (js "/proj/sub/jslint.conf")) tt)))
             eq_refl).
  reflexivity.
Defined.

(** X13. A configuration whose [extends] chain never ends (a file that
    extends itself, or files that extend one another in a circle) is never
    resolved: [readJSLintFile] recurses for ever, whatever bound is put on
    the depth of the recursion, and returns no configuration. *)
Theorem readJSLintFile_cycle {S} H fs (files : jsstring -> Prop) :
  extends_within H fs files ->
  forall fuel file extendedFrom (s : S),
    files file ->
    outcome_of (readJSLintFile H fs fuel file extendedFrom s) = OutOfFuel.
Proof.
  intros Hw. induction fuel as [|n IH]; intros file extendedFrom s Hf; [reflexivity|].
  destruct (Hw file Hf) as (c & e & Hp & He & Hne & Hex & Hin).
  rewrite (readJSLintFile_extends_step H fs n _ _ _ _ _
             (readJsonFile_outcome _ _ _ _ _ _ Hp) He Hne).
  cbv zeta. destruct (fs (path_resolve H (path_dirname H file) e)); [|contradiction].
  specialize (IH (path_resolve H (path_dirname H file) e) (Some file) s Hin).
  unfold outcome_of in *.
  destruct (readJSLintFile H fs n (path_resolve H (path_dirname H file) e)
              (Some file) s) as [[o s'] t].
  cbn in IH. subst o. reflexivity.
Qed.

Lemma readJSLintFile_cycle_witness :
  outcome_of (readJSLintFile (Posix.host None) self_extending_fs 1000
                (js "/proj/jslint.conf") None tt) = OutOfFuel.
Proof.
  apply (readJSLintFile_cycle (Posix.host None) self_extending_fs
           (fun f => f = js "/proj/jslint.conf")); [|reflexivity].
  intros file ->.
  exists [(js "extends", VStr (js "jslint.conf"))], (js "jslint.conf").
  split; [reflexivity|]. split; [reflexivity|]. split; [discriminate|].
  split; [discriminate|reflexivity].
Defined.

(** X14. The edge cases of [readJSLintFile]. A file that parses to [null]
    makes it throw a TypeError (reading [extends] of null); so does an
    [extends] that is truthy but not a string, such as a number or a list
    (path.resolve refuses it). A file that cannot be loaded, or whose content
    has no truthy [extends], is returned exactly as [readJsonFile] returns
    it, with the same message if any. *)
Theorem readJSLintFile_edges {S} H fs n file extendedFrom (s : S) :
  (parsed H fs file = Some VNull ->
   readJSLintFile H fs (Datatypes.S n) file extendedFrom s
   = (Throw TypeError, s, [EvRead file]))
  /\ (forall c x,
        parsed H fs file = Some (VObj c) ->
        obj_get (js "extends") c = Some x -> truthy x = true ->
        (forall e, x <> VStr e) ->
        readJSLintFile H fs (Datatypes.S n) file extendedFrom s
        = (Throw TypeError, s, [EvRead file]))
  /\ (parsed H fs file = None ->
      readJSLintFile H fs (Datatypes.S n) file extendedFrom s
      = (Ok (VObj []), s, [EvRead file; load_error file extendedFrom]))
  /\ (forall v,
        parsed H fs file = Some v -> v <> VNull -> v <> VUndef ->
        truthy (prop v (js "extends")) = false ->
        readJSLintFile H fs (Datatypes.S n) file extendedFrom s
        = (Ok v, s, [EvRead file])).
Proof.
  split; [|split; [|split]].
  - intros Hp. cbn [readJSLintFile]. unfold bind at 1.
    rewrite readJsonFile_eq, Hp. reflexivity.
  - intros c x Hp Hx Ht Hs. cbn [readJSLintFile]. unfold bind at 1.
    rewrite readJsonFile_eq, Hp. unfold get_prop, prop. rewrite Hx.
    cbn [from_option]. unfold Datatypes.id, bind at 1, ret at 1. rewrite Ht.
    destruct x; try reflexivity. exfalso. eapply Hs. reflexivity.
  - intros Hp. cbn [readJSLintFile]. unfold bind at 1.
    rewrite readJsonFile_eq, Hp. reflexivity.
  - intros v Hp Hn Hu Ht. cbn [readJSLintFile]. unfold bind at 1.
    rewrite readJsonFile_eq, Hp.
    assert (Hg : @get_prop S v (js "extends") = ret (prop v (js "extends")))
      by (unfold get_prop; destruct v; congruence).
    rewrite Hg. unfold bind at 1, ret at 1. rewrite Ht. reflexivity.
Qed.

Lemma readJSLintFile_edges_witness :
  readJSLintFile (Posix.host None)
    (Posix.files [(js "/proj/jslint.conf", js "{`extends`: [`base.conf`]}")]) 3
    (js "/proj/jslint.conf") None tt
  = (Throw TypeError, tt, [EvRead (js "/proj/jslint.conf")])
  /\ readJSLintFile (Posix.host None)
       (Posix.files [(js "/proj/jslint.conf", js "null")]) 3
       (js "/proj/jslint.conf") None tt
     = (Throw TypeError, tt, [EvRead (js "/proj/jslint.conf")]).
Proof.
  split.
  - apply (proj1 (proj2 (readJSLintFile_edges (Posix.host None)
             (Posix.files [(js "/proj/jslint.conf", js "{`extends`: [`base.conf`]}")])
             2%nat (js "/proj/jslint.conf") None tt))
             [(js "extends", VArr [VStr (js "base.conf")])]
             (VArr [VStr (js "base.conf")]) eq_refl eq_refl eq_refl).
    intros e. discriminate.
  - exact (proj1 (readJSLintFile_edges (Posix.host None)
             (Posix.files [(js "/proj/jslint.conf", js "null")])
             2%nat (js "/proj/jslint.conf") None tt) eq_refl).
Defined.

(** ** The resolver and the matcher as objects *)

(** X15. [getOptions] touches nothing but the cache entry of the path it is
    asked about: the configured path and the inline options stay, the
    entries of all other paths stay, a returned value is the one the cache
    then holds for the path, and a call that does not return (an exception
    from a configuration file) leaves the resolver as it was. *)
Theorem getOptions_frame H fs fuel fsPath this :
  configPath (state_of (getOptions H fs fuel fsPath this)) = configPath this
  /\ jslintOptions (state_of (getOptions H fs fuel fsPath this)) = jslintOptions this
  /\ (forall q, q <> fsPath ->
        optionsCache (state_of (getOptions H fs fuel fsPath this)) !! q
        = optionsCache this !! q)
  /\ (forall result,
        outcome_of (getOptions H fs fuel fsPath this) = Ok result ->
        optionsCache (state_of (getOptions H fs fuel fsPath this)) !! fsPath
        = Some result)
  /\ ((forall result, outcome_of (getOptions H fs fuel fsPath this) <> Ok result) ->
      state_of (getOptions H fs fuel fsPath this) = this).
Proof.
  destruct (truthy (default VUndef (optionsCache this !! fsPath))) eqn:Hq.
  - apply truthy_cached in Hq as (w & Hw & Htw).
    rewrite (getOptions_hit _ _ _ _ _ _ Hw Htw). cbn.
    repeat split; try reflexivity. intros result [= <-]. exact Hw.
  - rewrite getOptions_miss by exact Hq.
    pose proof (reads_only_readOptions H fs fuel fsPath this) as Hs.
    unfold state_of in Hs.
    destruct (readOptions H fs fuel fsPath this) as [[[r|e| |] s'] t];
      cbn in Hs; subst s'; cbn.
    + split; [reflexivity|]. split; [reflexivity|]. split.
      * intros q Hne. apply lookup_insert_ne. congruence.
      * split; [intros result [= <-]; apply lookup_insert_eq|].
        intros Hn. exfalso. apply (Hn r). reflexivity.
    + repeat split; try reflexivity. intros result; discriminate.
    + repeat split; try reflexivity. intros result; discriminate.
    + repeat split; try reflexivity. intros result; discriminate.
Qed.

Lemma getOptions_frame_witness :
  let this := OptionsResolver_configure None VUndef OptionsResolver_new in
  optionsCache (state_of (getOptions (Posix.host None) empty_conf 8 (js "/proj/a.js") this))
    !! js "/proj/a.js" = Some (VObj [])
  /\ optionsCache (state_of (getOptions (Posix.host None) empty_conf 8 (js "/proj/a.js") this))
       !! js "/proj/b.js" = None.
Proof.
  intros this.
  destruct (getOptions_frame (Posix.host None) empty_conf 8%nat (js "/proj/a.js") this)
    as (_ & _ & Hother & Hres & _).
  split; [exact (Hres (VObj []) eq_refl)|].
  rewrite (Hother (js "/proj/b.js")); [reflexivity|discriminate].
Defined.

(** X16. A package.json that is found first and whose content is [null]
    makes the resolution throw a TypeError (reading [jslintConfig] of null):
    the jslint.conf files and the inline options are not reached, and
    [getOptions] stores nothing. *)
Theorem readOptions_null_package H fs fuel fsPath this packageFile :
  explicit_config fs this = false -> legacy_config fs this = false ->
  nonempty fsPath = true ->
  outcome_of (locateFile H fs fuel fsPath (js "package.json") this)
  = Ok (Some packageFile) ->
  parsed H fs packageFile = Some VNull ->
  outcome_of (readOptions H fs fuel fsPath this) = Throw TypeError
  /\ (truthy (default VUndef (optionsCache this !! fsPath)) = false ->
      outcome_of (getOptions H fs fuel fsPath this) = Throw TypeError
      /\ state_of (getOptions H fs fuel fsPath this) = this).
Proof.
  intros He Hl Hp Hloc Hnull.
  assert (Hr : outcome_of (readOptions H fs fuel fsPath this) = Throw TypeError).
  { rewrite readOptions_unfold, He, Hl, Hp.
    apply bind_outcome_throw. unfold readOptions_near.
    apply bind_outcome_throw. unfold readOptions_package.
    rewrite (bind_outcome _ _ this (Some packageFile)); [|reads_only_tac|exact Hloc].
    rewrite (bind_outcome _ _ this VNull);
      [|reads_only_tac|apply readJsonFile_outcome; exact Hnull].
    apply bind_outcome_throw. reflexivity. }
  split; [exact Hr|]. intros Hq. rewrite getOptions_miss by exact Hq.
  pose proof (reads_only_readOptions H fs fuel fsPath this) as Hs.
  unfold outcome_of, state_of in *.
  destruct (readOptions H fs fuel fsPath this) as [[o s'] t].
  cbn in Hr, Hs. subst o s'. split; reflexivity.
Qed.

Lemma readOptions_null_package_witness :
  outcome_of (getOptions (Posix.host None) null_package_fs 8 (js "/proj/a.js")
                (OptionsResolver_configure None (VObj []) OptionsResolver_new))
  = Throw TypeError.
Proof.
  exact (proj1 (proj2 (readOptions_null_package (Posix.host None) null_package_fs 8%nat
                  (js "/proj/a.js")
                  (OptionsResolver_configure None (VObj []) OptionsResolver_new)
                  (js "/proj/package.json") eq_refl eq_refl eq_refl eq_refl eq_refl)
           eq_refl)).
Defined.

Lemma shouldBeExcluded_configured H fs fuel fsPath root this :
  ignore_config fs this = true ->
  shouldBeExcluded H fs fuel fsPath root this
  = let '(r, s, t) := processIgnoreFile H fs (default [] (fm_configPath this)) this in
    (match r with
     | Ok patterns => Ok (FileMatcher_match H (Some patterns) fsPath root)
     | Throw e => Throw e
     | OutOfFuel => OutOfFuel
     | Unmodelled => Unmodelled
     end, s, EvExists (default [] (fm_configPath this)) :: t).
Proof.
  intros Hi. unfold ignore_config in Hi. apply andb_true_iff in Hi as [Hp Hon].
  unfold shouldBeExcluded. unfold bind at 1. unfold get at 1. cbv beta iota zeta.
  rewrite Hp. unfold bind at 1.
  unfold existsSync, bind at 1, emit at 1, ret at 1. cbv beta iota zeta.
  unfold on_disk in Hon. rewrite Hon. cbv beta iota zeta. unfold bind, ret.
  destruct (processIgnoreFile H fs (default [] (fm_configPath this)) this)
    as [[[patterns|e| |] s'] t]; cbn; rewrite ?app_nil_r; reflexivity.
Qed.

Lemma shouldBeExcluded_static H fs fuel fsPath root this k :
  ignore_config fs this = false ->
  none_up_to H fs fsPath JSLINTIGNORE k -> (k < fuel)%nat ->
  outcome_of (shouldBeExcluded H fs fuel fsPath root this)
  = Ok (FileMatcher_match H (defaultExcludePatterns this) fsPath root)
  /\ state_of (shouldBeExcluded H fs fuel fsPath root this) = this
  /\ Forall (fun e => exists p, e = EvExists p)
       (trace_of (shouldBeExcluded H fs fuel fsPath root this)).
Proof.
  intros Hi Hnone Hk.
  destruct (locateFile_misses H fs fuel fsPath JSLINTIGNORE this k Hnone Hk)
    as (j & _ & Hloc).
  assert (Hprobes : forall n d, Forall (fun e => exists p, e = EvExists p)
                                  (probes H n d JSLINTIGNORE)).
  { induction n as [|n IH]; intros d; cbn [probes]; constructor;
      [eexists; reflexivity|apply IH]. }
  assert (Heq : exists t,
             shouldBeExcluded H fs fuel fsPath root this
             = (Ok (FileMatcher_match H (defaultExcludePatterns this) fsPath root), this, t)
             /\ Forall (fun e => exists p, e = EvExists p) t).
  { unfold shouldBeExcluded. unfold bind at 1. unfold get at 1. cbv beta iota zeta.
    unfold ignore_config in Hi. unfold bind at 1.
    destruct (truthy_str (fm_configPath this)).
    - unfold existsSync, bind at 1, emit at 1, ret at 1. cbv beta iota zeta.
      cbn [andb] in Hi. unfold on_disk in Hi. rewrite Hi. cbv beta iota zeta.
      unfold bind at 1. rewrite Hloc. cbv beta iota zeta. unfold ret.
      eexists. split; [reflexivity|].
      cbn [app]. constructor; [eexists; reflexivity|].
      rewrite app_nil_r. apply Hprobes.
    - unfold ret at 1. cbv beta iota zeta. unfold bind at 1. rewrite Hloc.
      cbv beta iota zeta. unfold ret.
      eexists. split; [reflexivity|].
      cbn [app]. rewrite app_nil_r. apply Hprobes. }
  destruct Heq as (t & -> & Ht). repeat split. exact Ht.
Qed.

(** X17. The three sources of exclusion patterns, in order. (1) If the
    configured ignore file exists, its patterns decide, against the given
    root. (2) Otherwise, if an ignore file is found from the path upwards,
    the patterns of the nearest one decide, against the folder of that
    file: the root and the static patterns play no part, so an ignore file
    without patterns excludes nothing even when the static patterns match.
    (3) Otherwise the static patterns decide, against the root; a matcher
    that was never configured excludes nothing. In (1) and (2) the patterns
    of a file are those parse-gitignore remembers for its path, whatever
    the file holds by now; only a path it has not answered for is read,
    parsed and remembered, and reading a directory throws. *)
Theorem shouldBeExcluded_priority H fs fuel fsPath root this :
  (ignore_config fs this = true ->
   (forall patterns,
      gitignoreCache this !! default [] (fm_configPath this) = Some patterns ->
      outcome_of (shouldBeExcluded H fs fuel fsPath root this)
      = Ok (FileMatcher_match H (Some patterns) fsPath root)
      /\ state_of (shouldBeExcluded H fs fuel fsPath root this) = this)
   /\ (gitignoreCache this !! default [] (fm_configPath this) = None ->
       (forall text, fs (default [] (fm_configPath this)) = Some (File text) ->
          outcome_of (shouldBeExcluded H fs fuel fsPath root this)
          = Ok (FileMatcher_match H (Some (parse_gitignore H text)) fsPath root)
          /\ gitignoreCache (state_of (shouldBeExcluded H fs fuel fsPath root this))
               !! default [] (fm_configPath this)
             = Some (parse_gitignore H text))
       /\ (fs (default [] (fm_configPath this)) = Some Directory ->
           outcome_of (shouldBeExcluded H fs fuel fsPath root this) = Throw IOError)))
  /\ (ignore_config fs this = false ->
      forall k,
        nearest_at H fs fsPath JSLINTIGNORE k -> (k < fuel)%nat ->
        let ignoreFile := path_join H (ancestor H k fsPath) JSLINTIGNORE in
        (forall patterns,
           gitignoreCache this !! ignoreFile = Some patterns ->
           outcome_of (shouldBeExcluded H fs fuel fsPath root this)
           = Ok (FileMatcher_match H (Some patterns) fsPath (Some (folderOf ignoreFile)))
           /\ (patterns = [] ->
               outcome_of (shouldBeExcluded H fs fuel fsPath root this) = Ok false))
        /\ (gitignoreCache this !! ignoreFile = None ->
            (forall text, fs ignoreFile = Some (File text) ->
               outcome_of (shouldBeExcluded H fs fuel fsPath root this)
               = Ok (FileMatcher_match H (Some (parse_gitignore H text)) fsPath
                       (Some (folderOf ignoreFile)))
               /\ gitignoreCache (state_of (shouldBeExcluded H fs fuel fsPath root this))
                    !! ignoreFile
                  = Some (parse_gitignore H text)
               /\ (parse_gitignore H text = [] ->
                   outcome_of (shouldBeExcluded H fs fuel fsPath root this) = Ok false))
            /\ (fs ignoreFile = Some Directory ->
                outcome_of (shouldBeExcluded H fs fuel fsPath root this)
                = Throw IOError)))
  /\ (ignore_config fs this = false ->
      forall k,
        none_up_to H fs fsPath JSLINTIGNORE k -> (k < fuel)%nat ->
        outcome_of (shouldBeExcluded H fs fuel fsPath root this)
        = Ok (FileMatcher_match H (defaultExcludePatterns this) fsPath root)
        /\ (defaultExcludePatterns this = None ->
            outcome_of (shouldBeExcluded H fs fuel fsPath root this) = Ok false)).
Proof.
  split; [|split].
  - intros Hi. rewrite (shouldBeExcluded_configured _ _ _ _ _ _ Hi).
    rewrite processIgnoreFile_eq.
    unfold ignore_config in Hi. apply andb_true_iff in Hi as [_ Hon]. rewrite Hon.
    split.
    + intros patterns Hc. rewrite Hc. split; reflexivity.
    + intros Hc. rewrite Hc. split.
      * intros text Ht. rewrite Ht. split; [reflexivity|].
        cbn. apply lookup_insert_eq.
      * intros Hd. rewrite Hd. reflexivity.
  - intros Hi k Hnear Hk ignoreFile.
    destruct (shouldBeExcluded_located H fs fuel fsPath root this k Hi Hnear Hk)
      as (Hhit & Hread & Hdir). fold ignoreFile in Hhit, Hread, Hdir.
    split.
    + intros patterns Hc. destruct (Hhit patterns Hc) as (Ho & _ & _).
      split; [exact Ho|]. intros ->. rewrite Ho. reflexivity.
    + intros Hc. split.
      * intros text Ht. destruct (Hread text Hc Ht) as (Ho & Hs & _).
        split; [exact Ho|]. split.
        -- rewrite Hs. cbn. apply lookup_insert_eq.
        -- intros He. rewrite Ho, He. reflexivity.
      * intros Hd. exact (proj1 (Hdir Hc Hd)).
  - intros Hi k Hnone Hk.
    destruct (shouldBeExcluded_static H fs fuel fsPath root this k Hi Hnone Hk)
      as (Ho & _ & _).
    split; [exact Ho|]. intros Hn. rewrite Ho, Hn. reflexivity.
Qed.

(** An ignore file without patterns excludes nothing though the static
    patterns match; without an ignore file the static patterns decide. *)
Lemma shouldBeExcluded_priority_witness :
  outcome_of (shouldBeExcluded (Posix.host None) empty_ignore_fs 8
                (js "/proj/build/out.js") (Some (js "/proj"))
                (FileMatcher_configure None build_patterns FileMatcher_new))
  = Ok false
  /\ outcome_of (shouldBeExcluded (Posix.host None) (Posix.files []) 8
                   (js "/proj/build/out.js") (Some (js "/proj"))
                   (FileMatcher_configure None build_patterns FileMatcher_new))
     = Ok true.
Proof.
  split.
  - destruct (shouldBeExcluded_priority (Posix.host None) empty_ignore_fs 8%nat
                (js "/proj/build/out.js") (Some (js "/proj"))
                (FileMatcher_configure None build_patterns FileMatcher_new))
      as (_ & H2 & _).
    assert (Hnear : nearest_at (Posix.host None) empty_ignore_fs
                      (js "/proj/build/out.js") JSLINTIGNORE 2).
    { split; [reflexivity|].
      intros [|[|j]] Hj; [split; [reflexivity|discriminate]..|lia]. }
    destruct (H2 eq_refl 2%nat Hnear ltac:(lia)) as (_ & Hmiss).
    destruct (Hmiss eq_refl) as (Hfile & _).
    exact (proj2 (proj2 (Hfile (js "# nothing to ignore") eq_refl)) eq_refl).
  - destruct (shouldBeExcluded_priority (Posix.host None) (Posix.files []) 8%nat
                (js "/proj/build/out.js") (Some (js "/proj"))
                (FileMatcher_configure None build_patterns FileMatcher_new))
      as (_ & _ & H3).
    assert (Hnone : none_up_to (Posix.host None) (Posix.files [])
                      (js "/proj/build/out.js") JSLINTIGNORE 3).
    { split; [reflexivity|]. intros j Hj. reflexivity. }
    exact (proj1 (H3 eq_refl 3%nat Hnone ltac:(lia))).
Defined.

(** X18. [excludes] touches nothing but the cache entry of the path it is
    asked about: the configured ignore path and the static patterns stay, a
    verdict once cached for any path is never changed, the entries of other
    paths stay, a returned verdict is the one the cache then holds for the
    path, and a call that throws (an ignore file that cannot be read) stores
    nothing. *)
Theorem excludes_frame H fs fuel c fsPath root this :
  fm_configPath (state_of (excludes H fs fuel (Some (c :: fsPath)) root this))
  = fm_configPath this
  /\ defaultExcludePatterns (state_of (excludes H fs fuel (Some (c :: fsPath)) root this))
     = defaultExcludePatterns this
  /\ (forall q v, excludeCache this !! q = Some v ->
        excludeCache (state_of (excludes H fs fuel (Some (c :: fsPath)) root this)) !! q
        = Some v)
  /\ (forall q, q <> c :: fsPath ->
        excludeCache (state_of (excludes H fs fuel (Some (c :: fsPath)) root this)) !! q
        = excludeCache this !! q)
  /\ (forall verdict,
        outcome_of (excludes H fs fuel (Some (c :: fsPath)) root this) = Ok verdict ->
        excludeCache (state_of (excludes H fs fuel (Some (c :: fsPath)) root this))
          !! (c :: fsPath) = Some verdict)
  /\ ((forall verdict,
         outcome_of (excludes H fs fuel (Some (c :: fsPath)) root this) <> Ok verdict) ->
      state_of (excludes H fs fuel (Some (c :: fsPath)) root this) = this).
Proof.
  split; [|split; [|split; [intros q v; apply excludes_keeps|]]].
  all: destruct (excludeCache this !! (c :: fsPath)) as [w|] eqn:Hq;
    [rewrite (excludes_hit _ _ _ _ _ _ _ _ Hq)
    |rewrite excludes_miss by exact Hq;
     destruct (remembers_shouldBeExcluded H fs fuel (c :: fsPath) root this)
       as [[g Hg] Hsame];
     unfold state_of, outcome_of in Hg, Hsame;
     destruct (shouldBeExcluded H fs fuel (c :: fsPath) root this) as [[[r|e| |] s'] t];
     cbn in Hg, Hsame;
     [subst s'
     |rewrite (Hsame ltac:(discriminate))
     |rewrite (Hsame ltac:(discriminate))
     |rewrite (Hsame ltac:(discriminate))]];
    try reflexivity.
  - split; [reflexivity|]. split; [intros v [= <-]; exact Hq|reflexivity].
  - split; [intros q Hne; apply lookup_insert_ne; congruence|]. split.
    + intros v [= <-]. apply lookup_insert_eq.
    + intros Hn. exfalso. apply (Hn r). reflexivity.
  - repeat split; try reflexivity. intros v; discriminate.
  - repeat split; try reflexivity. intros v; discriminate.
  - repeat split; try reflexivity. intros v; discriminate.
Qed.

Lemma excludes_frame_witness :
  let this := FileMatcher_configure (Some (js "/proj")) build_patterns FileMatcher_new in
  let dir : filesystem :=
    fun p => if bool_decide (p = js "/proj") then Some Directory else None in
  state_of (excludes (Posix.host None) dir 8 (Some (js "/proj/a.js")) (Some (js "/proj")) this)
  = this.
Proof.
  intros this dir.
  apply (excludes_frame (Posix.host None) dir 8%nat 47 (js "proj/a.js")
           (Some (js "/proj")) this).
  intros verdict. vm_compute. discriminate.
Defined.

(** ** Validating a document *)

Lemma lintContent_supported H fs fuel content fsPath this :
  data_supported (lib this) = true ->
  lintContent H fs fuel content fsPath this
  = match getOptions H fs fuel fsPath (options this) with
    | (Ok cached, o, t) =>
        (Ok (imap to_error
               (analyse (lib this) content (or_empty cached)
                  (or_empty (prop (or_empty cached) (js "globals"))))),
         set_options o this,
         t ++ [EvLint content (or_empty cached)
                      (or_empty (prop (or_empty cached) (js "globals")))])
    | (Throw e, o, t) => (Throw e, set_options o this, t)
    | (OutOfFuel, o, t) => (OutOfFuel, set_options o this, t)
    | (Unmodelled, o, t) => (Unmodelled, set_options o this, t)
    end.
Proof.
  intros Hd. unfold lintContent, bind, get, zoom.
  destruct (getOptions H fs fuel fsPath (options this)) as [[[cached|e| |] o] t];
    try reflexivity.
  unfold try_catch. rewrite Hd. cbn -[js]. rewrite ?app_nil_r. reflexivity.
Qed.

(** X19. [validate] publishes at most once, and only for the document it
    was given: when it returns, the last thing it did was to send the
    diagnostics of that document's URI, and it sent nothing before; when it
    does not return, it sent nothing at all. *)
Theorem validate_publishes_once H fs fuel document this :
  (outcome_of (validate H fs fuel document this) = Ok tt ->
   exists before diagnostics,
     trace_of (validate H fs fuel document this)
     = before ++ [EvSend (uri document) diagnostics]
     /\ Forall not_send before)
  /\ (outcome_of (validate H fs fuel document this) <> Ok tt ->
      Forall not_send (trace_of (validate H fs fuel document this))).
Proof.
  rewrite validate_eq.
  pose proof (quiet_excludes H fs fuel (lookup_path H document this)
                (workspaceRoot this) (fileMatcher this)) as Hq.
  unfold trace_of in Hq.
  destruct (excludes H fs fuel (lookup_path H document this) (workspaceRoot this)
              (fileMatcher this)) as [[[[|]|e| |] fm] t1]; cbn in Hq.
  - split; [|intros Hn; exfalso; apply Hn; reflexivity].
    intros _. exists t1, []. split; [reflexivity|exact Hq].
  - pose proof (quiet_lintContent H fs fuel (getText document)
                  (default [] (lookup_path H document this))
                  (set_fileMatcher fm this)) as Hl.
    unfold trace_of in Hl.
    destruct (lintContent H fs fuel (getText document)
                (default [] (lookup_path H document this))
                (set_fileMatcher fm this)) as [[[errors|e| |] this'] t2]; cbn in Hl.
    + split; [|intros Hn; exfalso; apply Hn; reflexivity].
      intros _. exists (t1 ++ t2), (map makeDiagnostic errors).
      split; [unfold trace_of; cbn; rewrite app_assoc; reflexivity|].
      apply Forall_app. split; assumption.
    + split; [discriminate|]. intros _. apply Forall_app. split; assumption.
    + split; [discriminate|]. intros _. apply Forall_app. split; assumption.
    + split; [discriminate|]. intros _. apply Forall_app. split; assumption.
  - split; [discriminate|]. intros _. exact Hq.
  - split; [discriminate|]. intros _. exact Hq.
  - split; [discriminate|]. intros _. exact Hq.
Qed.

Lemma validate_publishes_once_witness :
  exists before diagnostics,
    trace_of (validate (Posix.host None) (Posix.files []) 8 a_js
                (new_linter semicolon_engine))
    = before ++ [EvSend (js "file:///proj/src/a.js") diagnostics]
    /\ Forall not_send before.
Proof.
  exact (proj1 (validate_publishes_once (Posix.host None) (Posix.files []) 8%nat a_js
                  (new_linter semicolon_engine)) eq_refl).
Defined.

Lemma set_fileMatcher_same this : set_fileMatcher (fileMatcher this) this = this.
Proof. destruct this. reflexivity. Qed.

Lemma disk_only_excludes H fs fuel fsPath root :
  emits_only disk_event (excludes H fs fuel fsPath root).
Proof.
  unfold excludes, exclude_store, shouldBeExcluded, processIgnoreFile, gitignore_store,
    readFileSync, existsSync.
  assert (Hloc : forall S n d f, emits_only disk_event (@locateFile H fs S n d f)).
  { intros S n. induction n as [|n IH]; intros d f; cbn [locateFile].
    - auto with emits.
    - unfold existsSync. emits_only_tac; try apply IH. }
  emits_only_tac; try apply Hloc.
Qed.

(** X20. A document that is not to be linted is published with no
    diagnostics and nothing else happens to it. A document without a file
    path in a session without a workspace root is published empty at once:
    no file is looked at and the linter is unchanged. A document that the
    matcher excludes is published empty after the matcher's look at the
    disk: the engine is not called, no message is shown, and the resolver
    and its cache are untouched. *)
Theorem validate_skips H fs fuel document this :
  (truthy_str (lookup_path H document this) = false ->
   validate H fs fuel document this = (Ok tt, this, [EvSend (uri document) []]))
  /\ (outcome_of (excludes H fs fuel (lookup_path H document this)
                    (workspaceRoot this) (fileMatcher this)) = Ok true ->
      outcome_of (validate H fs fuel document this) = Ok tt
      /\ options (state_of (validate H fs fuel document this)) = options this
      /\ exists probes,
           trace_of (validate H fs fuel document this)
           = probes ++ [EvSend (uri document) []]
           /\ Forall disk_event probes).
Proof.
  split.
  - intros Hp. rewrite validate_eq. unfold excludes. rewrite Hp. cbn.
    rewrite set_fileMatcher_same. reflexivity.
  - intros Hex. rewrite validate_eq.
    pose proof (disk_only_excludes H fs fuel (lookup_path H document this)
                  (workspaceRoot this) (fileMatcher this)) as Hd.
    unfold outcome_of, trace_of in *.
    destruct (excludes H fs fuel (lookup_path H document this) (workspaceRoot this)
                (fileMatcher this)) as [[o fm] t1].
    cbn in Hex, Hd. subst o. cbn. split; [reflexivity|]. split; [reflexivity|].
    exists t1. split; [reflexivity|exact Hd].
Qed.

Lemma validate_skips_witness :
  validate (Posix.host None) (Posix.files []) 8 untitled
    {| options := OptionsResolver_new; fileMatcher := FileMatcher_new;
       workspaceRoot := None; lib := semicolon_engine |}
  = (Ok tt,
     {| options := OptionsResolver_new; fileMatcher := FileMatcher_new;
        workspaceRoot := None; lib := semicolon_engine |},
     [EvSend (js "untitled:Untitled-1") []])
  /\ outcome_of (validate (Posix.host None) (Posix.files []) 8 b_js
                   {| options := OptionsResolver_new;
                      fileMatcher := FileMatcher_configure None build_patterns
                                       FileMatcher_new;
                      workspaceRoot := Some (js "/proj"); lib := semicolon_engine |})
     = Ok tt.
Proof.
  split.
  - exact (proj1 (validate_skips (Posix.host None) (Posix.files []) 8%nat untitled
                    {| options := OptionsResolver_new; fileMatcher := FileMatcher_new;
                       workspaceRoot := None; lib := semicolon_engine |}) eq_refl).
  - exact (proj1 (proj2 (validate_skips (Posix.host None) (Posix.files []) 8%nat b_js
                    {| options := OptionsResolver_new;
                       fileMatcher := FileMatcher_configure None build_patterns
                                        FileMatcher_new;
                       workspaceRoot := Some (js "/proj"); lib := semicolon_engine |})
                    eq_refl)).
Defined.

Lemma map_imap {A B C} (g : B -> C) (l : list A) : forall (f : nat -> A -> B),
  map g (imap f l) = imap (fun i x => g (f i x)) l.
Proof.
  induction l as [|x l IH]; intros f; [reflexivity|].
  cbn. f_equal. apply IH.
Qed.

Lemma preparing_excludes H fs fuel fsPath root :
  emits_only preparing (excludes H fs fuel fsPath root).
Proof.
  intros s. eapply Forall_impl; [apply disk_only_excludes|].
  intros [] Hd; try exact I; contradiction.
Qed.

Lemma preparing_getOptions H fs fuel fsPath :
  emits_only preparing (getOptions H fs fuel fsPath).
Proof.
  assert (Hloc : forall S n d f, emits_only preparing (@locateFile H fs S n d f)).
  { intros S n. induction n as [|n IH]; intros d f; cbn [locateFile].
    - auto with emits.
    - unfold existsSync. emits_only_tac; try apply IH. }
  assert (Hjson : forall S file ef, emits_only preparing (@readJsonFile H fs S file ef)).
  { intros S file ef. unfold readJsonFile, readFileSync, showErrorMessage.
    emits_only_tac. }
  assert (Hlint : forall S n file ef,
             emits_only preparing (@readJSLintFile H fs S n file ef)).
  { intros S n. induction n as [|n IH]; intros file ef; cbn [readJSLintFile].
    - auto with emits.
    - unfold get_prop, path_resolve_value, mergeWith, showErrorMessage, existsSync.
      emits_only_tac; try apply Hjson; try apply IH. }
  unfold getOptions, cache_store, readOptions, readOptions_near, readOptions_package,
    readOptions_conf, readOptions_home, existsSync_value, existsSync, get_prop.
  emits_only_tac; try apply Hjson; try apply Hlint; try apply Hloc.
Qed.

(** X21. With an engine that has [data()], a document that is not excluded
    and whose options resolve is linted once, with the resolved options (the
    empty object when they are falsy) and their [globals] (the empty object
    when they have none), and what is published is the engine's warnings in
    their order, one diagnostic per warning, each made by [makeDiagnostic]:
    after looking at the disk, and telling the user about a configuration
    file that cannot be loaded, [validate] calls the engine, publishes, and
    does nothing else. *)
Theorem validate_reports H fs fuel document this matcher cached :
  data_supported (lib this) = true ->
  outcome_of (excludes H fs fuel (lookup_path H document this)
                (workspaceRoot this) (fileMatcher this)) = Ok false ->
  state_of (excludes H fs fuel (lookup_path H document this)
              (workspaceRoot this) (fileMatcher this)) = matcher ->
  outcome_of (getOptions H fs fuel (default [] (lookup_path H document this))
                (options this)) = Ok cached ->
  let opts := or_empty cached in
  let globals := or_empty (prop opts (js "globals")) in
  let warnings := analyse (lib this) (getText document) opts globals in
  let diagnostics := imap (fun i w => makeDiagnostic (to_error i w)) warnings in
  outcome_of (validate H fs fuel document this) = Ok tt
  /\ List.length diagnostics = List.length warnings
  /\ exists disk,
       trace_of (validate H fs fuel document this)
       = disk ++ [EvLint (getText document) opts globals;
                  EvSend (uri document) diagnostics]
       /\ Forall preparing disk.
Proof.
  intros Hd Hex Hm Hopt opts globals warnings diagnostics.
  rewrite validate_eq.
  pose proof (preparing_excludes H fs fuel (lookup_path H document this)
                (workspaceRoot this) (fileMatcher this)) as Hq.
  unfold outcome_of, state_of, trace_of in *.
  destruct (excludes H fs fuel (lookup_path H document this) (workspaceRoot this)
              (fileMatcher this)) as [[o fm] t1].
  cbn in Hex, Hm, Hq. subst o fm.
  rewrite lintContent_supported by exact Hd.
  pose proof (preparing_getOptions H fs fuel (default [] (lookup_path H document this))
                (options (set_fileMatcher matcher this))) as Hg.
  unfold trace_of in Hg.
  change (options (set_fileMatcher matcher this)) with (options this) in *.
  destruct (getOptions H fs fuel (default [] (lookup_path H document this))
              (options this)) as [[o' os] t2].
  cbn in Hopt, Hg. subst o'. cbn -[js].
  split; [reflexivity|]. split; [unfold diagnostics; apply length_imap|].
  exists (t1 ++ t2). split.
  - rewrite <- !app_assoc. rewrite map_imap. reflexivity.
  - apply Forall_app. split; assumption.
Qed.

Lemma validate_reports_witness :
  outcome_of (validate (Posix.host None) (Posix.files []) 8 a_js
                (new_linter semicolon_engine)) = Ok tt
  /\ exists disk,
       trace_of (validate (Posix.host None) (Posix.files []) 8 a_js
                   (new_linter semicolon_engine))
       = disk ++ [EvLint (js "x = 1") (VObj []) (VObj []);
                  EvSend (js "file:///proj/src/a.js")
                    [{| message := js "Missing semicolon (W1)";
                        severity := Warning;
                        source := js "jsLint";
                        diag_code := Some (js "W1");
                        range := {| range_start := origin; range_end := origin |} |}]]
       /\ Forall preparing disk.
Proof.
  destruct (validate_reports (Posix.host None) (Posix.files []) 8%nat a_js
              (new_linter semicolon_engine) _ VNull eq_refl eq_refl eq_refl eq_refl)
    as (Ho & _ & Ht).
  split; [exact Ho|exact Ht].
Defined.

(** X22. [validateSingle] never throws: an exception of [validate] becomes
    one message, shown after whatever [validate] had done, and the call
    returns; when [validate] does not throw, [validateSingle] is
    [validate]. *)
Theorem validateSingle_catches H fs fuel document this :
  (forall e, outcome_of (validateSingle H fs fuel document this) <> Throw e)
  /\ (forall e,
        outcome_of (validate H fs fuel document this) = Throw e ->
        validateSingle H fs fuel document this
        = (Ok tt, state_of (validate H fs fuel document this),
           trace_of (validate H fs fuel document this) ++ [EvShowError (MessageOf e)]))
  /\ ((forall e, outcome_of (validate H fs fuel document this) <> Throw e) ->
      validateSingle H fs fuel document this = validate H fs fuel document this).
Proof.
  unfold validateSingle, try_catch, outcome_of, state_of, trace_of.
  destruct (validate H fs fuel document this) as [[[[]|e| |] s'] t]; cbn.
  - split; [intros e; discriminate|]. split; [intros e; discriminate|].
    intros _. reflexivity.
  - split; [intros e'; discriminate|]. split; [intros e' [= <-]; reflexivity|].
    intros Hn. exfalso. apply (Hn e). reflexivity.
  - split; [intros e; discriminate|]. split; [intros e; discriminate|].
    intros _. reflexivity.
  - split; [intros e; discriminate|]. split; [intros e; discriminate|].
    intros _. reflexivity.
Qed.

Lemma validateSingle_catches_witness :
  outcome_of (validateSingle (Posix.host None) (Posix.files []) 8 a_js old_linter) = Ok tt
  /\ last (trace_of (validateSingle (Posix.host None) (Posix.files []) 8 a_js old_linter))
     = Some (EvShowError (MessageOf TypeError)).
Proof.
  rewrite (proj1 (proj2 (validateSingle_catches (Posix.host None) (Posix.files []) 8%nat
                           a_js old_linter)) TypeError eq_refl).
  split; [reflexivity|]. unfold trace_of. cbn [snd]. apply last_snoc.
Defined.

(** ** Validating all documents *)

Lemma sendErrors_eq {S} (tracker : list notice) (s : S) :
  sendErrors tracker s = (Ok tt, s, [EvSendErrors tracker]).
Proof. reflexivity. Qed.

Lemma validate_each_no_throw H fs fuel documents : forall tracker this e,
  outcome_of (validate_each H fs fuel documents tracker this) <> Throw e.
Proof.
  induction documents as [|d documents IH]; intros tracker this e; [discriminate|].
  cbn [validate_each]. unfold bind at 1, try_catch, bind, ret, outcome_of.
  destruct (validate H fs fuel d this) as [[[[]|x| |] s'] t]; cbn; try discriminate.
  - specialize (IH tracker s' e). unfold outcome_of in IH.
    destruct (validate_each H fs fuel documents tracker s') as [[o s''] t'].
    exact IH.
  - specialize (IH (tracker_add tracker (getMessage x d)) s' e). unfold outcome_of in IH.
    destruct (validate_each H fs fuel documents (tracker_add tracker (getMessage x d)) s')
      as [[o s''] t'].
    exact IH.
Qed.

Lemma validate_each_settled H fs fuel documents : forall tracker this,
  all_settle H fs fuel documents this ->
  exists tracker' t,
    validate_each H fs fuel documents tracker this
    = (Ok tracker', after_validating H fs fuel documents this, t)
    /\ List.filter is_send t = published H fs fuel documents this.
Proof.
  induction documents as [|d documents IH]; intros tracker this Hs.
  - exists tracker, []. split; reflexivity.
  - destruct Hs as [Hd Hs]. cbn [validate_each published after_validating].
    unfold bind at 1, try_catch, bind, ret.
    unfold outcome_of, state_of, trace_of in *.
    destruct (validate H fs fuel d this) as [[o s'] t]. cbn in Hd, Hs |- *.
    destruct Hd as [->|[e ->]].
    + destruct (IH tracker s' Hs) as (tracker' & t' & Heq & Hf).
      rewrite Heq. exists tracker', ((t ++ []) ++ t'). split; [reflexivity|].
      rewrite app_nil_r, List.filter_app, Hf. reflexivity.
    + destruct (IH (tracker_add tracker (getMessage e d)) s' Hs)
        as (tracker' & t' & Heq & Hf).
      cbn. rewrite Heq. exists tracker', ((t ++ []) ++ t'). split; [reflexivity|].
      rewrite app_nil_r, List.filter_app, Hf. reflexivity.
Qed.

(** X23. [validateAll] never throws, and a document that fails does not
    stop the others: when each validation returns or throws, [validateAll]
    returns, it publishes exactly what validating the documents one after
    the other publishes, in their order, and it leaves the linter in the
    state the last validation left. *)
Theorem validateAll_isolates H fs fuel documents this :
  (forall e, outcome_of (validateAll H fs fuel documents this) <> Throw e)
  /\ (all_settle H fs fuel documents this ->
      outcome_of (validateAll H fs fuel documents this) = Ok tt
      /\ state_of (validateAll H fs fuel documents this)
         = after_validating H fs fuel documents this
      /\ List.filter is_send (trace_of (validateAll H fs fuel documents this))
         = published H fs fuel documents this).
Proof.
  split.
  - intros e. unfold validateAll, bind.
    pose proof (validate_each_no_throw H fs fuel documents [] this e) as Hn.
    unfold outcome_of in *.
    destruct (validate_each H fs fuel documents [] this) as [[[tracker|x| |] s'] t];
      cbn in *; try discriminate.
    intros [= ->]. apply Hn. reflexivity.
  - intros Hs. destruct (validate_each_settled H fs fuel documents [] this Hs)
      as (tracker & t & Heq & Hf).
    unfold validateAll, bind. rewrite Heq, sendErrors_eq.
    unfold outcome_of, state_of, trace_of. cbn.
    split; [reflexivity|]. split; [reflexivity|].
    rewrite List.filter_app. cbn [List.filter is_send]. rewrite app_nil_r. exact Hf.
Qed.

(** The first document fails in the engine, the second is excluded and is
    still published. *)
Lemma validateAll_isolates_witness :
  outcome_of (validateAll (Posix.host None) (Posix.files []) 8 [a_js; b_js]
                excluding_old_linter) = Ok tt
  /\ List.filter is_send
       (trace_of (validateAll (Posix.host None) (Posix.files []) 8 [a_js; b_js]
                    excluding_old_linter))
     = [EvSend (js "file:///proj/build/b.js") []].
Proof.
  assert (Hs : all_settle (Posix.host None) (Posix.files []) 8 [a_js; b_js]
                 excluding_old_linter).
  { split; [right; exists TypeError; reflexivity|].
    split; [left; reflexivity|exact I]. }
  destruct (proj2 (validateAll_isolates (Posix.host None) (Posix.files []) 8%nat
                     [a_js; b_js] excluding_old_linter) Hs) as (Ho & _ & Hp).
  split; [exact Ho|]. rewrite Hp. reflexivity.
Defined.

(** ** The notification handlers *)

Lemma cleared_cleared a b c d this :
  cleared a b (cleared c d this) = cleared (a || c) (b || d) this.
Proof. destruct a, b, c, d, this; reflexivity. Qed.

Lemma cleared_nothing this : cleared false false this = this.
Proof. destruct this. reflexivity. Qed.

Lemma watched_change_eq uri needsValidating this :
  watched_change uri needsValidating this
  = (Ok (needsValidating
         || bool_decide (lastSegment uri = JSLINTRC)
         || bool_decide (lastSegment uri = JSLINTIGNORE)),
     cleared (bool_decide (lastSegment uri = JSLINTRC))
       (bool_decide (lastSegment uri = JSLINTIGNORE)) this,
     []).
Proof.
  unfold watched_change.
  destruct (bool_decide (lastSegment uri = JSLINTRC)) eqn:Hrc.
  - apply bool_decide_eq_true in Hrc. rewrite Hrc.
    replace (bool_decide (JSLINTRC = JSLINTIGNORE)) with false by reflexivity.
    rewrite orb_true_r. reflexivity.
  - destruct (bool_decide (lastSegment uri = JSLINTIGNORE)).
    + rewrite orb_true_r. reflexivity.
    + rewrite !orb_false_r, cleared_nothing. reflexivity.
Qed.

Lemma watched_changes_eq changes : forall needsValidating this,
  watched_changes changes needsValidating this
  = (Ok (needsValidating || names JSLINTRC changes || names JSLINTIGNORE changes),
     cleared (names JSLINTRC changes) (names JSLINTIGNORE changes) this,
     []).
Proof.
  induction changes as [|uri changes IH]; intros needsValidating this.
  - cbn. rewrite !orb_false_r, cleared_nothing. reflexivity.
  - cbn [watched_changes]. unfold bind.
    rewrite watched_change_eq, IH, cleared_cleared. unfold names. cbn [existsb app].
    destruct needsValidating, (bool_decide (lastSegment uri = JSLINTRC)),
      (bool_decide (lastSegment uri = JSLINTIGNORE)),
      (existsb (fun uri0 => bool_decide (lastSegment uri0 = JSLINTRC)) changes),
      (existsb (fun uri0 => bool_decide (lastSegment uri0 = JSLINTIGNORE)) changes);
      reflexivity.
Qed.

(** X24. What [onDidChangeWatchedFiles] does depends only on which of the
    two file names occur as last segment among the changed URIs, not on how
    many changes there are or in which order. If neither jslint.conf nor
    .jslintignore occurs, or there is no list of changes, nothing happens:
    no cache is cleared, nothing is validated or shown. Otherwise the
    resolver's cache is cleared iff jslint.conf occurs, the matcher's cache
    iff .jslintignore occurs, and then all documents are validated, once. *)
Theorem onDidChangeWatchedFiles_spec H fs fuel documents this :
  onDidChangeWatchedFiles H fs fuel documents None this = (Ok tt, this, [])
  /\ forall changes,
       onDidChangeWatchedFiles H fs fuel documents (Some changes) this
       = if names JSLINTRC changes || names JSLINTIGNORE changes
         then validateAll H fs fuel documents
                (cleared (names JSLINTRC changes) (names JSLINTIGNORE changes) this)
         else (Ok tt, this, []).
Proof.
  split; [reflexivity|]. intros changes.
  unfold onDidChangeWatchedFiles, bind. rewrite watched_changes_eq. cbn [orb].
  destruct (names JSLINTRC changes || names JSLINTIGNORE changes) eqn:Hn.
  - destruct (validateAll H fs fuel documents
                (cleared (names JSLINTRC changes) (names JSLINTIGNORE changes) this))
      as [[o s'] t].
    reflexivity.
  - apply orb_false_iff in Hn as [-> ->]. rewrite cleared_nothing. reflexivity.
Qed.

Lemma onDidChangeConfiguration_eq H fs fuel documents jslint this version :
  onDidChangeConfiguration H fs fuel documents jslint (this, version)
  = let '(r, this', t) := validateAll H fs fuel documents (reconfigured jslint this) in
    (r, (this', s_version (assign_defaults jslint)), t).
Proof.
  unfold onDidChangeConfiguration, bind, get, put, zoom. cbn [fst snd]. cbv zeta.
  assert (Hst : set_fileMatcher
                  (FileMatcher_configure (s_excludePath (assign_defaults jslint))
                     (s_exclude (assign_defaults jslint))
                     (fileMatcher
                        (set_options
                           (OptionsResolver_configure (s_config (assign_defaults jslint))
                              (default VUndef (s_options (assign_defaults jslint)))
                              (options this)) this)))
                  (set_options
                     (OptionsResolver_configure (s_config (assign_defaults jslint))
                        (default VUndef (s_options (assign_defaults jslint)))
                        (options this)) this)
                = reconfigured jslint this).
  { destruct jslint as [[cfg [o|] xp [x|] v]|]; reflexivity. }
  cbn [fst snd] in *. rewrite Hst.
  destruct (validateAll H fs fuel documents (reconfigured jslint this)) as [[r s'] t].
  reflexivity.
Qed.

(** X25. A change of configuration installs the incoming settings and
    validates every document again: the handler is [validateAll] on the
    linter that holds the new configuration path, options (the empty object
    when the settings have none), ignore path and enabled patterns, with
    both caches empty, and it stores the new version. So when each
    validation returns or throws, the handler returns and publishes what
    validating the documents one after the other from that linter
    publishes. Nothing of the configuration, the caches and the version the
    server had before plays a part; the workspace root, the engine and what
    parse-gitignore remembers are kept. *)
Theorem onDidChangeConfiguration_resets H fs fuel documents jslint this version :
  onDidChangeConfiguration H fs fuel documents jslint (this, version)
  = (let '(r, this', t) := validateAll H fs fuel documents (reconfigured jslint this) in
     (r, (this', s_version (assign_defaults jslint)), t))
  /\ (all_settle H fs fuel documents (reconfigured jslint this) ->
      outcome_of (onDidChangeConfiguration H fs fuel documents jslint (this, version))
      = Ok tt
      /\ state_of (onDidChangeConfiguration H fs fuel documents jslint (this, version))
         = (after_validating H fs fuel documents (reconfigured jslint this),
            match jslint with Some settings => s_version settings | None => VUndef end)
      /\ List.filter is_send
           (trace_of (onDidChangeConfiguration H fs fuel documents jslint (this, version)))
         = published H fs fuel documents (reconfigured jslint this))
  /\ (forall this2 version2,
        workspaceRoot this = workspaceRoot this2 ->
        lib this = lib this2 ->
        gitignoreCache (fileMatcher this) = gitignoreCache (fileMatcher this2) ->
        onDidChangeConfiguration H fs fuel documents jslint (this, version)
        = onDidChangeConfiguration H fs fuel documents jslint (this2, version2)).
Proof.
  split; [apply onDidChangeConfiguration_eq|]. split.
  - intros Hs. rewrite onDidChangeConfiguration_eq.
    destruct (validate_each_settled H fs fuel documents [] _ Hs)
      as (tracker & t & Heq & Hf).
    unfold validateAll, bind. rewrite Heq, sendErrors_eq.
    unfold outcome_of, state_of, trace_of. cbn [fst snd].
    split; [reflexivity|]. split; [destruct jslint; reflexivity|].
    rewrite List.filter_app. cbn [List.filter is_send]. rewrite app_nil_r. exact Hf.
  - intros this2 version2 Hw Hl Hg. rewrite !onDidChangeConfiguration_eq.
    unfold reconfigured. rewrite Hw, Hl, Hg. reflexivity.
Qed.

(** A server with a stale cache entry that excludes nothing: after the
    settings that enable build/**, b.js is published as excluded, as it is
    by a server that has just started. *)
Lemma onDidChangeConfiguration_resets_witness :
  let stale :=
    state_of (validate (Posix.host None) (Posix.files []) 8 b_js
                (new_linter semicolon_engine)) in
  excludeCache (fileMatcher stale) !! js "/proj/build/b.js" = Some false
  /\ List.filter is_send
       (trace_of (onDidChangeConfiguration (Posix.host None) (Posix.files []) 8 [b_js]
                    (Some build_settings) (stale, VUndef)))
     = [EvSend (js "file:///proj/build/b.js") []]
  /\ onDidChangeConfiguration (Posix.host None) (Posix.files []) 8 [b_js]
       (Some build_settings) (stale, VUndef)
     = onDidChangeConfiguration (Posix.host None) (Posix.files []) 8 [b_js]
         (Some build_settings) (new_linter semicolon_engine, VStr (js "es5")).
Proof.
  intros stale.
  destruct (onDidChangeConfiguration_resets (Posix.host None) (Posix.files []) 8%nat
              [b_js] (Some build_settings) stale VUndef) as (_ & Hv & Hsame).
  split; [reflexivity|]. split.
  - assert (Hs : all_settle (Posix.host None) (Posix.files []) 8 [b_js]
                   (reconfigured (Some build_settings) stale)).
    { split; [left; reflexivity|exact I]. }
    destruct (Hv Hs) as (_ & _ & Hp). rewrite Hp. reflexivity.
  - apply Hsame; reflexivity.
Defined.

(** ** What the pipeline never does *)

Lemma or_empty_truthy v : truthy (or_empty v) = true.
Proof. unfold or_empty. destruct (truthy v) eqn:E; [exact E|reflexivity]. Qed.

Lemma objects_getOptions H fs fuel fsPath :
  emits_only lints_with_objects (getOptions H fs fuel fsPath).
Proof.
  assert (Hloc : forall S n d f, emits_only lints_with_objects (@locateFile H fs S n d f)).
  { intros S n. induction n as [|n IH]; intros d f; cbn [locateFile].
    - auto with emits.
    - unfold existsSync. emits_only_tac; try apply IH. }
  assert (Hjson : forall S file ef,
             emits_only lints_with_objects (@readJsonFile H fs S file ef)).
  { intros S file ef. unfold readJsonFile, readFileSync, showErrorMessage.
    emits_only_tac. }
  assert (Hlint : forall S n file ef,
             emits_only lints_with_objects (@readJSLintFile H fs S n file ef)).
  { intros S n. induction n as [|n IH]; intros file ef; cbn [readJSLintFile].
    - auto with emits.
    - unfold get_prop, path_resolve_value, mergeWith, showErrorMessage, existsSync.
      emits_only_tac; try apply Hjson; try apply IH. }
  unfold getOptions, cache_store, readOptions, readOptions_near, readOptions_package,
    readOptions_conf, readOptions_home, existsSync_value, existsSync, get_prop.
  emits_only_tac; try apply Hjson; try apply Hlint; try apply Hloc.
Qed.

(** X26. The engine is never called with missing options: whatever the
    resolution returns (undefined, null, 0, an empty string), [lintContent]
    and [validate] pass it an options value and a globals value that are
    truthy, the empty object taking the place of a falsy one. *)
Theorem engine_gets_objects H fs fuel document this :
  Forall lints_with_objects (trace_of (validate H fs fuel document this))
  /\ forall content fsPath,
       Forall lints_with_objects (trace_of (lintContent H fs fuel content fsPath this)).
Proof.
  assert (Hl : forall content fsPath,
             emits_only lints_with_objects (lintContent H fs fuel content fsPath)).
  { intros content fsPath. unfold lintContent, showErrorMessage.
    apply emits_only_bind; [auto with emits|intros this'].
    apply emits_only_bind; [apply emits_only_zoom, objects_getOptions|intros cached].
    apply emits_only_bind.
    { apply emits_only_emit. split; apply or_empty_truthy. }
    intros _. emits_only_tac. }
  split; [|intros content fsPath; apply Hl].
  assert (Hx : forall p r, emits_only lints_with_objects (excludes H fs fuel p r)).
  { intros p r s. eapply Forall_impl; [apply disk_only_excludes|].
    intros [] Hd; try exact I; contradiction. }
  unfold validate, sendDiagnostics.
  apply emits_only_bind; [auto with emits|intros this'].
  apply emits_only_bind; [apply emits_only_zoom, Hx|intros excluded].
  apply emits_only_bind.
  - destruct (negb excluded); [|auto with emits].
    apply emits_only_bind; [apply Hl|intros errors; auto with emits].
  - intros diagnostics. apply emits_only_emit. exact I.
Qed.

Lemma engine_gets_objects_witness :
  In (EvLint (js "x = 1") (VObj []) (VObj []))
     (trace_of (lintContent (Posix.host None) zero_conf_fs 8 (js "x = 1")
                  (js "/proj/a.js") (new_linter semicolon_engine)))
  /\ Forall lints_with_objects
       (trace_of (lintContent (Posix.host None) zero_conf_fs 8 (js "x = 1")
                    (js "/proj/a.js") (new_linter semicolon_engine))).
Proof.
  split.
  - vm_compute. repeat (first [left; reflexivity | right]).
  - exact (proj2 (engine_gets_objects (Posix.host None) zero_conf_fs 8%nat a_js
                    (new_linter semicolon_engine)) (js "x = 1") (js "/proj/a.js")).
Defined.

Lemma emits_only_bind_ok {S A B} P (m : M S A) (f : A -> M S B) :
  emits_only P m ->
  (forall s a, outcome_of (m s) = Ok a -> emits_only P (f a)) ->
  emits_only P (bind m f).
Proof.
  intros Hm Hf s. unfold bind. specialize (Hm s). specialize (Hf s).
  unfold trace_of, outcome_of in *.
  destruct (m s) as [[[a|e| |] s'] t]; simpl in *; try exact Hm.
  specialize (Hf a eq_refl s'). destruct (f a s') as [[r s''] t']. simpl in *.
  apply Forall_app. split; assumption.
Qed.

Section ReadsFound.

Variable H : Host.
Variable fs : filesystem.

Lemma found_existsSync {S} p :
  emits_only (reads_found fs) (@existsSync fs S p).
Proof. unfold existsSync. emits_only_tac. Qed.

Lemma found_readFileSync {S} p :
  on_disk fs p = true -> emits_only (reads_found fs) (@readFileSync fs S p).
Proof.
  intros Hp. unfold readFileSync.
  apply emits_only_bind; [apply emits_only_emit; exact Hp|intros _].
  emits_only_tac.
Qed.

Lemma found_readJsonFile {S} file extendedFrom :
  on_disk fs file = true ->
  emits_only (reads_found fs) (@readJsonFile H fs S file extendedFrom).
Proof.
  intros Hp. unfold readJsonFile, showErrorMessage.
  apply emits_only_try_catch.
  - apply emits_only_bind; [apply found_readFileSync, Hp|intros text].
    emits_only_tac.
  - intros e. emits_only_tac.
Qed.

Lemma found_locateFile {S} fuel : forall directory fileName,
  emits_only (reads_found fs) (@locateFile H fs S fuel directory fileName).
Proof.
  induction fuel as [|n IH]; intros directory fileName; cbn [locateFile].
  - auto with emits.
  - unfold existsSync. emits_only_tac; try apply IH.
Qed.

Lemma existsSync_true {S} p (s : S) :
  outcome_of (existsSync fs p s) = Ok true -> on_disk fs p = true.
Proof. unfold existsSync, bind, emit, ret, outcome_of, on_disk. cbn. congruence. Qed.

Lemma found_readJSLintFile {S} fuel : forall file extendedFrom,
  on_disk fs file = true ->
  emits_only (reads_found fs) (@readJSLintFile H fs S fuel file extendedFrom).
Proof.
  induction fuel as [|n IH]; intros file extendedFrom Hp; cbn [readJSLintFile].
  - auto with emits.
  - apply emits_only_bind; [apply found_readJsonFile, Hp|intros content].
    apply emits_only_bind; [unfold get_prop; emits_only_tac|intros extends].
    destruct (truthy extends); [|auto with emits].
    apply emits_only_bind; [unfold path_resolve_value; emits_only_tac|intros baseFile].
    apply emits_only_bind_ok; [apply found_existsSync|intros s found Hf].
    apply emits_only_bind; [|intros c; auto with emits].
    destruct found.
    + apply existsSync_true in Hf.
      apply emits_only_bind; [apply IH, Hf|intros base].
      unfold mergeWith. emits_only_tac.
    + unfold showErrorMessage. emits_only_tac.
Qed.

Lemma found_located {S} fuel directory fileName (s : S) location :
  outcome_of (locateFile H fs fuel directory fileName s) = Ok (Some location) ->
  on_disk fs location = true.
Proof.
  intros Hl. apply locateFile_nearest in Hl as (k & _ & Hon & _). exact Hon.
Qed.

Lemma found_getOptions fuel fsPath :
  emits_only (reads_found fs) (getOptions H fs fuel fsPath).
Proof.
  unfold getOptions.
  apply emits_only_bind; [auto with emits|intros this].
  destruct (truthy (default VUndef (optionsCache this !! fsPath))); [auto with emits|].
  apply emits_only_bind; [|intros result; unfold cache_store; emits_only_tac].
  unfold readOptions.
  apply emits_only_bind; [auto with emits|intros this'].
  apply emits_only_bind_ok.
  { destruct (truthy_str (configPath this')); [apply found_existsSync|auto with emits]. }
  intros s explicit He. destruct explicit.
  { apply found_readJsonFile.
    destruct (truthy_str (configPath this')); [|discriminate He].
    apply existsSync_true in He. exact He. }
  apply emits_only_bind_ok.
  { destruct (truthy (jslintOptions this')
              && truthy (prop (jslintOptions this') (js "config")));
      [|auto with emits].
    unfold existsSync_value.
    destruct (prop (jslintOptions this') (js "config"));
      first [apply found_existsSync|auto with emits]. }
  intros s' legacy Hl. destruct legacy.
  { apply found_readJsonFile.
    destruct (truthy (jslintOptions this')
              && truthy (prop (jslintOptions this') (js "config")));
      [|discriminate Hl].
    unfold existsSync_value in Hl.
    destruct (prop (jslintOptions this') (js "config")); try discriminate Hl.
    apply existsSync_true in Hl. exact Hl. }
  apply emits_only_bind.
  - destruct (nonempty fsPath); [|auto with emits].
    unfold readOptions_near.
    apply emits_only_bind.
    + unfold readOptions_package.
      apply emits_only_bind_ok; [apply found_locateFile|intros s1 [pf|] Hpf];
        [|auto with emits].
      apply emits_only_bind; [apply found_readJsonFile; eapply found_located; exact Hpf|].
      intros content. unfold get_prop. emits_only_tac.
    + intros [c|]; [auto with emits|].
      unfold readOptions_conf.
      apply emits_only_bind_ok; [apply found_locateFile|intros s1 [cf|] Hcf];
        [|auto with emits].
      apply emits_only_bind;
        [apply found_readJSLintFile; eapply found_located; exact Hcf|].
      intros c. auto with emits.
  - intros [c|]; [auto with emits|].
    unfold readOptions_home.
    destruct (truthy_str (user_home H)); [|auto with emits].
    apply emits_only_bind_ok; [apply found_existsSync|intros s1 found Hf].
    destruct found; [|auto with emits].
    apply found_readJSLintFile. apply existsSync_true in Hf. exact Hf.
Qed.

Lemma found_processIgnoreFile path :
  emits_only (reads_found fs) (processIgnoreFile H fs path).
Proof.
  unfold processIgnoreFile.
  apply emits_only_bind_ok; [apply found_existsSync|intros s found Hf].
  destruct found; [|auto with emits].
  apply existsSync_true in Hf.
  apply emits_only_bind; [auto with emits|intros this].
  destruct (gitignoreCache this !! path); [auto with emits|].
  apply emits_only_bind; [apply found_readFileSync, Hf|intros text].
  unfold gitignore_store. emits_only_tac.
Qed.

Lemma found_excludes fuel fsPath root :
  emits_only (reads_found fs) (excludes H fs fuel fsPath root).
Proof.
  unfold excludes. destruct (truthy_str fsPath); [|auto with emits].
  apply emits_only_bind; [auto with emits|intros this].
  destruct (excludeCache this !! default [] fsPath); [auto with emits|].
  apply emits_only_bind; [|intros verdict; unfold exclude_store; emits_only_tac].
  unfold shouldBeExcluded.
  apply emits_only_bind; [auto with emits|intros this'].
  apply emits_only_bind.
  { destruct (truthy_str (fm_configPath this')); [apply found_existsSync|auto with emits]. }
  intros explicit. destruct explicit.
  - apply emits_only_bind; [apply found_processIgnoreFile|intros patterns; auto with emits].
  - apply emits_only_bind; [apply found_locateFile|intros [f|]]; [|auto with emits].
    apply emits_only_bind; [apply found_processIgnoreFile|intros patterns; auto with emits].
Qed.

End ReadsFound.

(** X27. The server only reads what is on disk: every path read during a
    validation (a configuration file, a package.json, a base named by
    [extends], an ignore file) exists, each read being guarded by
    [existsSync] or by [locateFile], so no read is ever attempted on a path
    that does not exist. This holds for [getOptions] and [excludes] alone as
    well. *)
Theorem reads_only_found_files H fs fuel document this :
  Forall (reads_found fs) (trace_of (validate H fs fuel document this))
  /\ (forall fsPath resolver,
        Forall (reads_found fs) (trace_of (getOptions H fs fuel fsPath resolver)))
  /\ (forall fsPath root matcher,
        Forall (reads_found fs) (trace_of (excludes H fs fuel fsPath root matcher))).
Proof.
  split; [|split].
  - revert this. change (emits_only (reads_found fs) (validate H fs fuel document)).
    unfold validate, sendDiagnostics.
    apply emits_only_bind; [auto with emits|intros this'].
    apply emits_only_bind; [apply emits_only_zoom, found_excludes|intros excluded].
    apply emits_only_bind.
    + destruct (negb excluded); [|auto with emits].
      apply emits_only_bind; [|intros errors; auto with emits].
      unfold lintContent, showErrorMessage.
      apply emits_only_bind; [auto with emits|intros this''].
      apply emits_only_bind; [apply emits_only_zoom, found_getOptions|intros cached].
      emits_only_tac.
    + intros diagnostics. apply emits_only_emit. exact I.
  - intros fsPath resolver. apply found_getOptions.
  - intros fsPath root matcher. apply found_excludes.
Qed.
